(** * pycaddy run ledger: a shallow embedding of [pykit/ledger/ledger.py]

    The ledger is a JSON file mapping an identifier to a run-set, itself a
    mapping from uid to a run record.  Every mutating method reloads the
    file, edits the loaded dictionary in place and writes it back; plain
    queries only read.

    Python dictionaries keep insertion order and [find_by_param_hash]
    depends on it, so dictionaries are association lists with the
    semantics of [dict]: assignment replaces in place or appends.

    The first part embeds the program: dictionaries, records, the naming
    strategy, the methods of [Ledger] in a monad of state and exceptions,
    and two processes that share the file and the lock.  The second part
    proves the properties: what each method returns and leaves in the
    file, and what holds under every interleaving of the two processes.
    The last part runs the methods on concrete ledgers. *)

From Stdlib Require Import ZArith String Ascii DecimalString DecimalNat Lia.
From stdpp Require Import base option list strings.

Local Open Scope list_scope.

(** ** Python [dict] with string keys, in insertion order *)

Module pydict.
Section ops.
Context {V : Type}.

(** [d.get(k)] *)
Fixpoint get (k : string) (d : list (string * V)) : option V :=
  match d with
  | [] => None
  | (k', v) :: d' => if String.eqb k k' then Some v else get k d'
  end.

(** [k in d] *)
Definition contains (k : string) (d : list (string * V)) : bool :=
  match get k d with Some _ => true | None => false end.

(** [d[k] = v]: an existing key keeps its position, a new one goes last. *)
Fixpoint set (k : string) (v : V) (d : list (string * V)) : list (string * V) :=
  match d with
  | [] => [(k, v)]
  | (k', v') :: d' =>
      if String.eqb k k' then (k', v) :: d' else (k', v') :: set k v d'
  end.

(** [d.setdefault(k, v)], the dictionary afterwards. *)
Definition setdefault (k : string) (v : V) (d : list (string * V)) : list (string * V) :=
  if contains k d then d else set k v d.

(** [list(d.keys())] *)
Definition keys (d : list (string * V)) : list string := d.*1.

(** [d.update(other)] *)
Definition update (d other : list (string * V)) : list (string * V) :=
  foldl (fun acc kv => set kv.1 kv.2 acc) d other.

(** A Python dictionary never holds a key twice. *)
Definition wf (d : list (string * V)) : Prop := NoDup (keys d).
End ops.
End pydict.

(** ** Errors *)

(** [KeyError] is the error the spec calls NotFound; [CapacityExceeded] is
    raised by the naming strategy; [ValidationError] by the schema check of
    a load; [FileNotFoundError] by reading a file that is not there. *)
Inductive exn :=
  | KeyError (msg : string)
  | CapacityExceeded
  | ValidationError
  | FileNotFoundError.

Inductive result (A : Type) :=
  | Ok (a : A)
  | Raise (e : exn).
Arguments Ok {A} a.
Arguments Raise {A} e.

(** ** Records *)

(** Modelled from the spec: [status.py] is not among the sources.  Section
    4.3 gives the closed set of states; the members of the enumeration are
    truthy, so [if status:] only tests that a status was passed. *)
Inductive Status := PENDING | RUNNING | DONE | ERROR.

(** Modelled from the spec: [run_record.py] is not among the sources.
    Section 3 lists the fields; [status_time] is the moment of the last
    [timestamp_status()] call, absent before the first one. *)
Record RunRecord := {
  status : Status;
  param_hash : option Z;
  relpath : string;
  status_time : option Z;
  files : list (string * string);
}.

(** [RunRecord(status=..., param_hash=..., relpath=...)] *)
Definition new_RunRecord (status : Status) (param_hash : option Z)
    (relpath : string) : RunRecord :=
  {| status := status; param_hash := param_hash; relpath := relpath;
     status_time := None; files := [] |}.

(** [record.timestamp_status()], with the clock reading [now]. *)
Definition timestamp_status (now : Z) (r : RunRecord) : RunRecord :=
  {| status := status r; param_hash := param_hash r; relpath := relpath r;
     status_time := Some now; files := files r |}.

(** [record.status = s] *)
Definition set_status (s : Status) (r : RunRecord) : RunRecord :=
  {| status := s; param_hash := param_hash r; relpath := relpath r;
     status_time := status_time r; files := files r |}.

(** [record.files.update(path_dict)] *)
Definition update_files (path_dict : list (string * string)) (r : RunRecord) : RunRecord :=
  {| status := status r; param_hash := param_hash r; relpath := relpath r;
     status_time := status_time r; files := pydict.update (files r) path_dict |}.

(** [UID_RECORD_DICT] and [DATA_STRUCTURE] of the source. *)
Abbreviation UID_RECORD_DICT := (list (string * RunRecord)).
Abbreviation DATA_STRUCTURE := (list (string * list (string * RunRecord))).

(** A document as Python can hold it: no key twice at any level. *)
Definition record_wf (r : RunRecord) : Prop := pydict.wf (files r).
Definition run_set_wf (rs : UID_RECORD_DICT) : Prop :=
  pydict.wf rs ∧ Forall (fun kv => record_wf kv.2) rs.
Definition data_wf (data : DATA_STRUCTURE) : Prop :=
  pydict.wf data ∧ Forall (fun kv => run_set_wf kv.2) data.

(** ** Naming strategy *)

(** [str(n)] for a natural number and for an integer *)
Definition str (n : nat) : string := NilZero.string_of_uint (Nat.to_uint n).
Definition str_int (z : Z) : string := NilZero.string_of_int (Z.to_int z).

Fixpoint zeros (n : nat) : string :=
  match n with
  | O => EmptyString
  | S n' => String "0" (zeros n')
  end.

(** [f"{i:0{width}d}"]: zeros are added in front up to [width], nothing is
    cut off. *)
Definition zero_padded (width i : nat) : string :=
  (zeros (width - String.length (str i)) +:+ str i)%string.

(** [len(str(maxsize - 1))] *)
Definition uid_width (maxsize : Z) : nat := String.length (str_int (maxsize - 1)).

(** [key in existing_keys] on a list of strings *)
Definition mem (key : string) (existing_keys : list string) : bool :=
  existsb (String.eqb key) existing_keys.

(** The loop [for i in range(maxsize)] with its early return, over the
    values of the range still to visit. *)
Fixpoint first_unused (existing_keys : list string) (width : nat)
    (range : list nat) : option string :=
  match range with
  | [] => None
  | i :: rest =>
      let key := zero_padded width i in
      if mem key existing_keys then first_unused existing_keys width rest
      else Some key
  end.

(** Modelled from the spec: [naming_strategy.py] is not among the sources.
    Section 4.2: the uid is the decimal form of a counter, zero-padded to
    the width of [maxsize - 1], for the smallest non-negative integer whose
    padded form is not present; a capacity error when no integer of
    [[0, maxsize)] is free. *)
Definition counter_naming_strategy (existing_keys : list string) (maxsize : Z)
    : result string :=
  match first_unused existing_keys (uid_width maxsize) (seq 0 (Z.to_nat maxsize)) with
  | Some key => Ok key
  | None => Raise CapacityExceeded
  end.

(** Reading a padded uid back as a number. *)
Definition uid_number (s : string) : option nat :=
  Nat.of_uint <$> NilEmpty.uint_of_string s.

(** [k] zero digits in front of a decimal number. *)
Fixpoint lead0 (k : nat) (d : Decimal.uint) : Decimal.uint :=
  match k with
  | O => d
  | S k' => Decimal.D0 (lead0 k' d)
  end.

(** ** The schema adapter

    [DATA_STRUCTURE_MODEL = TypeAdapter(DATA_STRUCTURE)] comes from
    pydantic: [dump_json] serialises a document to the bytes of the file,
    [validate_json] parses and checks them and fails with a validation
    error, here [None]. *)
Class TypeAdapter := {
  bytes : Type;
  dump_json : DATA_STRUCTURE → bytes;
  validate_json : bytes → option DATA_STRUCTURE;
}.

(** ** The process and its file *)

Section ledger.
Context `{DATA_STRUCTURE_MODEL : TypeAdapter}.

(** What a call does to the outside world, in order. *)
Inductive event :=
  | FileExists               (* self.file.exists() *)
  | ReadBytes                (* self.file.read_bytes() *)
  | WriteBytes (b : bytes)   (* self.file.write_bytes(b) *)
  | Acquire                  (* LEDGER_LOCK.__enter__() *)
  | Release.                 (* LEDGER_LOCK.__exit__() *)

(** The ledger object, the dictionaries it can reach, the module global
    [LEDGER_LOCK] and the file.  A document dictionary is an object: it
    lives at an address of [objects], and two names for one address see
    each other's changes.  Run-sets and records are reached through the
    document that holds them. *)
Record state := {
  file : option bytes;              (* content of self.file, None: no such file *)
  maxsize : Z;                      (* self.maxsize *)
  objects : list DATA_STRUCTURE;    (* document dictionaries by address *)
  _data : nat;                      (* self._data, an address *)
  LEDGER_LOCK : bool;               (* is a lock installed? *)
  trace : list event;               (* events so far, oldest first *)
}.

(** A method: it ends with a value or an exception, and what it did to
    the state stays done in both cases. *)
Definition M (A : Type) : Type := state → result A * state.

Definition ret {A} (a : A) : M A := fun st => (Ok a, st).

Definition bind {A B} (c : M A) (k : A → M B) : M B := fun st =>
  match c st with
  | (Ok a, st') => k a st'
  | (Raise e, st') => (Raise e, st')
  end.

Definition raise {A} (e : exn) : M A := fun st => (Raise e, st).

Definition lift {A} (r : result A) : M A := fun st => (r, st).

Definition emit (e : event) : M unit := fun st =>
  (Ok tt, {| file := file st; maxsize := maxsize st; objects := objects st;
             _data := _data st; LEDGER_LOCK := LEDGER_LOCK st;
             trace := trace st ++ [e] |}).

(** A new dictionary object; its address is returned. *)
Definition new_dict (d : DATA_STRUCTURE) : M nat := fun st =>
  (Ok (length (objects st)),
   {| file := file st; maxsize := maxsize st; objects := objects st ++ [d];
      _data := _data st; LEDGER_LOCK := LEDGER_LOCK st; trace := trace st |}).

(** The dictionary at an address. *)
Definition deref (data : nat) : M DATA_STRUCTURE := fun st =>
  (Ok (default [] (objects st !! data)), st).

(** A change in place of the dictionary at an address. *)
Definition mutate (data : nat) (f : DATA_STRUCTURE → DATA_STRUCTURE) : M unit := fun st =>
  (Ok tt,
   {| file := file st; maxsize := maxsize st;
      objects := alter f data (objects st);
      _data := _data st; LEDGER_LOCK := LEDGER_LOCK st; trace := trace st |}).

(** [self._data = data] *)
Definition set__data (data : nat) : M unit := fun st =>
  (Ok tt,
   {| file := file st; maxsize := maxsize st; objects := objects st;
      _data := data; LEDGER_LOCK := LEDGER_LOCK st; trace := trace st |}).

(** [self.file.exists()] and [self.file.read_bytes()] *)
Definition file_exists : M bool := fun st =>
  bind (emit FileExists)
    (fun _ st' => (Ok (match file st' with Some _ => true | None => false end), st')) st.

Definition read_bytes : M bytes := fun st =>
  bind (emit ReadBytes) (fun _ st' =>
    match file st' with
    | Some b => (Ok b, st')
    | None => (Raise FileNotFoundError, st')
    end) st.

(** [self.file.write_bytes(b)] *)
Definition write_bytes (b : bytes) : M unit := fun st =>
  bind (emit (WriteBytes b)) (fun _ st' =>
    (Ok tt,
     {| file := Some b; maxsize := maxsize st'; objects := objects st';
        _data := _data st'; LEDGER_LOCK := LEDGER_LOCK st'; trace := trace st' |})) st.

Definition get_maxsize : M Z := fun st => (Ok (maxsize st), st).
End ledger.

Declare Scope ledger_scope.
Delimit Scope ledger_scope with ledger.
Notation "x <- c ;; k" := (bind c (fun x => k))
  (at level 100, c at next level, right associativity) : ledger_scope.
Notation "c ;; k" := (bind c (fun _ => k))
  (at level 100, right associativity) : ledger_scope.
Local Open Scope ledger_scope.

Section methods.
Context `{DATA_STRUCTURE_MODEL : TypeAdapter}.

(** [lock = LEDGER_LOCK or nullcontext()] and [with lock: body]: the
    lock is released on the way out, also when [body] raises. *)
Definition with_lock {A} (body : M A) : M A := fun st =>
  if LEDGER_LOCK st then
    match bind (emit Acquire) (fun _ => body) st with
    | (r, st') => (r, (emit Release st').2)
    end
  else body st.

(** [Ledger._load]: what it does with a file that exists, and the
    method. *)
Definition _load_existing : M nat :=
  data <- read_bytes ;;
  match validate_json data with
  | None => raise ValidationError
  | Some d =>
      r <- new_dict d ;;
      set__data r ;;
      ret r
  end.

Definition _load : M nat :=
  e <- file_exists ;;
  if negb e then new_dict [] else _load_existing.

(** [Ledger._save] *)
Definition _save (data : nat) : M unit :=
  d <- deref data ;;
  write_bytes (dump_json d) ;;
  set__data data.

(** [Ledger._edit_data]: the part after [yield] is not reached when the
    body of the [with] statement raises. *)
Definition _edit_data {A} (body : nat → M A) : M A :=
  with_lock (
    data <- _load ;;
    r <- body data ;;
    _save data ;;
    ret r).

(** The run-set of [identifier] inside the document at [data], and the
    record of [uid] inside that run-set: what [uid_records] and [record]
    name in the source. *)
Definition run_set_of (identifier : string) (d : DATA_STRUCTURE) : UID_RECORD_DICT :=
  default [] (pydict.get identifier d).

Definition uid_records_keys (uid_records : nat * string) : M (list string) :=
  d <- deref uid_records.1 ;;
  ret (pydict.keys (run_set_of uid_records.2 d)).

Definition uid_records_contains (uid_records : nat * string) (uid : string) : M bool :=
  d <- deref uid_records.1 ;;
  ret (pydict.contains uid (run_set_of uid_records.2 d)).

(** [uid_records[uid] = record] *)
Definition uid_records_setitem (uid_records : nat * string) (uid : string)
    (record : RunRecord) : M unit :=
  mutate uid_records.1 (fun d =>
    pydict.set uid_records.2 (pydict.set uid record (run_set_of uid_records.2 d)) d).

(** A change in place of the record at [data[identifier][uid]]. *)
Definition record_mutate (record : nat * string * string)
    (f : RunRecord → RunRecord) : M unit :=
  let '(data, identifier, uid) := record in
  mutate data (fun d =>
    match pydict.get uid (run_set_of identifier d) with
    | Some r => pydict.set identifier (pydict.set uid (f r) (run_set_of identifier d)) d
    | None => d
    end).

(** [Ledger._edit_uid_record_dict]: inside [_edit_data], the body gets
    [data.setdefault(identifier, {})]. *)
Definition with_uid_record_dict {A} (identifier : string)
    (body : nat * string → M A) (data : nat) : M A :=
  mutate data (pydict.setdefault identifier []) ;;
  body (data, identifier).

Definition _edit_uid_record_dict {A} (identifier : string)
    (body : nat * string → M A) : M A :=
  _edit_data (with_uid_record_dict identifier body).

Definition no_run_found (identifier uid : string) : string :=
  ("No run found for identifier '" +:+ identifier +:+ "' and uid '" +:+ uid +:+ "'")%string.

Definition no_runs_found (identifier : string) : string :=
  ("No runs found for identifier '" +:+ identifier +:+ "'")%string.

(** [Ledger._edit_record] *)
Definition _edit_record {A} (identifier uid : string)
    (body : nat * string * string → M A) : M A :=
  _edit_uid_record_dict identifier (fun records_dict =>
    present <- uid_records_contains records_dict uid ;;
    if negb present then raise (KeyError (no_run_found identifier uid))
    else body (records_dict, uid)).

(** [Ledger.allocate]: the body of its [with] statement, and the method.
    [now] is the clock reading of the first stamp. *)
Definition allocate_body (status : Status) (relpath : string)
    (param_hash : option Z) (now : Z) (uid_records : nat * string) : M string :=
  existing_keys <- uid_records_keys uid_records ;;
  maxsize <- get_maxsize ;;
  uid <- lift (counter_naming_strategy existing_keys maxsize) ;;
  let record := new_RunRecord status param_hash relpath in
  let record := timestamp_status now record in
  uid_records_setitem uid_records uid record ;;
  ret uid.

Definition allocate (identifier : string) (status : Status) (relpath : string)
    (param_hash : option Z) (now : Z) : M string :=
  _edit_uid_record_dict identifier (allocate_body status relpath param_hash now).

(** Truth values of the two optional arguments of [log]. *)
Definition status_given (status : option Status) : bool :=
  match status with Some _ => true | None => false end.

Definition path_dict_given (path_dict : option (list (string * string))) : bool :=
  match path_dict with Some (_ :: _) => true | _ => false end.

(** [Ledger.log]; [now] is the clock reading of the stamp. *)
Definition log (identifier uid : string) (status : option Status)
    (path_dict : option (list (string * string))) (now : Z) : M unit :=
  if negb (status_given status || path_dict_given path_dict) then ret tt
  else
    _edit_record identifier uid (fun record =>
      match status with
      | Some s =>
          record_mutate record (set_status s) ;;
          record_mutate record (timestamp_status now)
      | None => ret tt
      end ;;
      if path_dict_given path_dict
      then record_mutate record (update_files (default [] path_dict))
      else ret tt).

(** [Ledger.get_record] *)
Definition get_record (identifier uid : string) : M RunRecord :=
  data <- _load ;;
  d <- deref data ;;
  if negb (pydict.contains identifier d)
     || negb (pydict.contains uid (run_set_of identifier d))
  then raise (KeyError (no_run_found identifier uid))
  else
    match pydict.get uid (run_set_of identifier d) with
    | Some r => ret r
    | None => raise (KeyError (no_run_found identifier uid))
    end.

(** [Ledger.get_uid_record_dict] *)
Definition get_uid_record_dict (identifier : string) : M UID_RECORD_DICT :=
  data <- _load ;;
  d <- deref data ;;
  if negb (pydict.contains identifier d)
  then raise (KeyError (no_runs_found identifier))
  else ret (run_set_of identifier d).

(** [r.param_hash == param_hash] for a query that is not [None] *)
Definition hash_matches (param_hash : Z) (item : string * RunRecord) : bool :=
  match item.2 with
  | {| param_hash := Some h |} => Z.eqb h param_hash
  | _ => false
  end.

(** [Ledger.find_by_param_hash]: [next(match, None)] is the first item
    of the run-set, in its order, that matches. *)
Definition find_by_param_hash (identifier : string) (param_hash : option Z)
    : M (option (string * RunRecord)) :=
  match param_hash with
  | None => ret None
  | Some h =>
      uid_records_dict <- get_uid_record_dict identifier ;;
      ret (List.find (hash_matches h) uid_records_dict)
  end.

(** [set_global_lock] *)
Definition set_global_lock (lock : bool) : M unit := fun st =>
  (Ok tt,
   {| file := file st; maxsize := maxsize st; objects := objects st;
      _data := _data st; LEDGER_LOCK := lock; trace := trace st |}).

(** [Ledger.__init__] on a path whose file holds [f]: the state of a
    process right after the constructor, with no lock installed. *)
Definition init (f : option bytes) (maxsize : Z) : state :=
  {| file := f; maxsize := maxsize; objects := [ [] ]; _data := 0;
     LEDGER_LOCK := false; trace := [] |}.

(** *** Callers *)

(** The arguments of one [allocate] call besides the identifier. *)
Record allocate_args := {
  arg_status : Status;
  arg_relpath : string;
  arg_param_hash : option Z;
  arg_now : Z;
}.

(** A caller that makes one [allocate] call after the other for one
    identifier and goes on after a call that raised.  Every call is
    listed with the state it started from and with how it ended. *)
Fixpoint allocations (identifier : string) (calls : list allocate_args)
    (st : state) : list (state * result string) :=
  match calls with
  | [] => []
  | c :: rest =>
      let out := allocate identifier (arg_status c) (arg_relpath c)
                   (arg_param_hash c) (arg_now c) st in
      (st, out.1) :: allocations identifier rest out.2
  end.

(** The uids of the calls that returned one. *)
Definition uids (outs : list (result string)) : list string :=
  omap (fun o => match o with Ok uid => Some uid | Raise _ => None end) outs.

Definition returned_uids (outs : list (state * result string)) : list string :=
  uids outs.*2.

(** The public methods as one type of call, and what a call returns. *)
Inductive call :=
  | Allocate (identifier : string) (args : allocate_args)
  | Log (identifier uid : string) (status : option Status)
      (path_dict : option (list (string * string))) (now : Z)
  | GetRecord (identifier uid : string)
  | GetUidRecordDict (identifier : string)
  | FindByParamHash (identifier : string) (param_hash : option Z).

Inductive returned :=
  | RUid (uid : string)
  | RNone
  | RRecord (r : RunRecord)
  | RRecords (rs : UID_RECORD_DICT)
  | RFound (hit : option (string * RunRecord)).

Definition perform (c : call) : M returned :=
  match c with
  | Allocate identifier a =>
      uid <- allocate identifier (arg_status a) (arg_relpath a)
               (arg_param_hash a) (arg_now a) ;;
      ret (RUid uid)
  | Log identifier uid status path_dict now =>
      log identifier uid status path_dict now ;;
      ret RNone
  | GetRecord identifier uid =>
      r <- get_record identifier uid ;;
      ret (RRecord r)
  | GetUidRecordDict identifier =>
      rs <- get_uid_record_dict identifier ;;
      ret (RRecords rs)
  | FindByParamHash identifier param_hash =>
      hit <- find_by_param_hash identifier param_hash ;;
      ret (RFound hit)
  end.

(** *** What the methods amount to

    The methods above follow the source statement by statement.  The
    definitions below say the same in terms of documents: what a load
    sees, what an edit leaves behind, and the change each mutating
    method makes to the loaded document.  They are proved equal to the
    methods in the facts. *)

(** The document a load returns: the empty one while there is no file. *)
Definition stored (st : state) : option DATA_STRUCTURE :=
  match file st with
  | None => Some []
  | Some b => validate_json b
  end.

Definition load_events (st : state) : list event :=
  FileExists :: match file st with Some _ => [ReadBytes] | None => [] end.

Definition lock_events (st : state) (e : event) : list event :=
  if LEDGER_LOCK st then [e] else [].

(** The state after a load that returned [d]. *)
Definition loaded (st : state) (d : DATA_STRUCTURE) : state :=
  {| file := file st; maxsize := maxsize st;
     objects := objects st ++ [d];
     _data := match file st with Some _ => length (objects st) | None => _data st end;
     LEDGER_LOCK := LEDGER_LOCK st;
     trace := trace st ++ load_events st |}.

(** The state after [_edit_data] whose body ended with [r] and left the
    loaded dictionary as [d]: the write happens only after a body that
    returned. *)
Definition edited {A} (st : state) (r : result A) (d : DATA_STRUCTURE) : state :=
  {| file := match r with Ok _ => Some (dump_json d) | Raise _ => file st end;
     maxsize := maxsize st;
     objects := objects st ++ [d];
     _data := match r, file st with
              | Raise _, None => _data st
              | _, _ => length (objects st)
              end;
     LEDGER_LOCK := LEDGER_LOCK st;
     trace := trace st ++ lock_events st Acquire ++ load_events st
                ++ match r with Ok _ => [WriteBytes (dump_json d)] | Raise _ => [] end
                ++ lock_events st Release |}.

(** The record at [(identifier, uid)] of the document has the file tag. *)
Definition has_file (d : DATA_STRUCTURE) (identifier uid tag : string) : Prop :=
  ∃ rs r, pydict.get identifier d = Some rs ∧ pydict.get uid rs = Some r ∧
          tag ∈ pydict.keys (files r).

(** The state after [_edit_data] on a file that does not validate. *)
Definition rejected (st : state) : state :=
  {| file := file st; maxsize := maxsize st; objects := objects st;
     _data := _data st; LEDGER_LOCK := LEDGER_LOCK st;
     trace := trace st ++ lock_events st Acquire ++ [FileExists; ReadBytes]
                ++ lock_events st Release |}.

(** The body of [allocate] on the loaded document. *)
Definition allocate_on (identifier : string) (status : Status) (relpath : string)
    (param_hash : option Z) (now : Z) (maxsize : Z) (d : DATA_STRUCTURE)
    : result string * DATA_STRUCTURE :=
  let d1 := pydict.setdefault identifier [] d in
  match counter_naming_strategy (pydict.keys (run_set_of identifier d1)) maxsize with
  | Ok uid =>
      let record := timestamp_status now (new_RunRecord status param_hash relpath) in
      (Ok uid,
       pydict.set identifier (pydict.set uid record (run_set_of identifier d1)) d1)
  | Raise e => (Raise e, d1)
  end.

(** The changes [log] makes to the record it found. *)
Definition log_record (status : option Status)
    (path_dict : option (list (string * string))) (now : Z) (r : RunRecord) : RunRecord :=
  let r1 := match status with
            | Some s => timestamp_status now (set_status s r)
            | None => r
            end in
  if path_dict_given path_dict then update_files (default [] path_dict) r1 else r1.

(** The body of [log] on the loaded document. *)
Definition log_on (identifier uid : string) (status : option Status)
    (path_dict : option (list (string * string))) (now : Z) (d : DATA_STRUCTURE)
    : result unit * DATA_STRUCTURE :=
  let d1 := pydict.setdefault identifier [] d in
  match pydict.get uid (run_set_of identifier d1) with
  | None => (Raise (KeyError (no_run_found identifier uid)), d1)
  | Some r =>
      (Ok tt,
       pydict.set identifier
         (pydict.set uid (log_record status path_dict now r) (run_set_of identifier d1)) d1)
  end.
End methods.

(** ** Two processes on one file

    Each process has its own ledger object and its own dictionaries; the
    file and the lock are shared.  A process inside [allocate] moves from
    one use of the lock or of the file to the next: entering
    [with lock:], the test that the file exists, the read, the body of
    the [with] statement of [allocate] (which touches memory only), the
    write, and leaving [with lock:].  Between any two of these the other
    process may move. *)

Section processes.
Context `{DATA_STRUCTURE_MODEL : TypeAdapter}.

(** Where a process is. *)
Inductive stage :=
  | Idle                                      (* between two calls *)
  | Entered (a : allocate_args)               (* inside [with lock:], before [self.file.exists()] *)
  | Exists (a : allocate_args)                (* the file exists, before [self.file.read_bytes()] *)
  | Loaded (a : allocate_args) (data : nat)   (* at [yield data] *)
  | Edited (data : nat) (uid : string)        (* the body returned, before [self._save(data)] *)
  | Leaving (out : result string).            (* at the end of [with lock:] *)

Record process := {
  memory : state;                   (* its ledger object and dictionaries *)
  stage_of : stage;
  todo : list allocate_args;        (* the calls it has still to make *)
  outcomes : list (result string);  (* how its calls ended, oldest first *)
}.

(** The two processes are named [false] and [true]. *)
Record system := {
  shared_file : option bytes;
  holder : option bool;             (* the process that holds the lock *)
  process_false : process;
  process_true : process;
}.

Definition proc (p : bool) (s : system) : process :=
  if p then process_true s else process_false s.

(** The state of the system after process [p] has moved. *)
Definition moved (p : bool) (f : option bytes) (h : option bool) (pr : process)
    (s : system) : system :=
  {| shared_file := f; holder := h;
     process_false := if p then process_false s else pr;
     process_true := if p then pr else process_true s |}.

(** What a process sees when it looks at the file. *)
Definition see (f : option bytes) (m : state) : state :=
  {| file := f; maxsize := maxsize m; objects := objects m; _data := _data m;
     LEDGER_LOCK := LEDGER_LOCK m; trace := trace m |}.

Definition at_stage (pr : process) (m : state) (g : stage) : process :=
  {| memory := m; stage_of := g; todo := todo pr; outcomes := outcomes pr |}.

(** One move of process [p], or [None] when it has nothing to do or
    waits for the lock. *)
Definition move (identifier : string) (p : bool) (s : system) : option system :=
  let pr := proc p s in
  let m := memory pr in
  match stage_of pr with
  | Idle =>
      match todo pr with
      | [] => None
      | a :: rest =>
          if LEDGER_LOCK m then
            match holder s with
            | Some _ => None
            | None =>
                Some (moved p (shared_file s) (Some p)
                        {| memory := (emit Acquire m).2; stage_of := Entered a;
                           todo := rest; outcomes := outcomes pr |} s)
            end
          else
            Some (moved p (shared_file s) (holder s)
                    {| memory := m; stage_of := Entered a;
                       todo := rest; outcomes := outcomes pr |} s)
      end
  | Entered a =>
      match file_exists (see (shared_file s) m) with
      | (Ok true, m') =>
          Some (moved p (shared_file s) (holder s) (at_stage pr m' (Exists a)) s)
      | (Ok false, m') =>
          match new_dict [] m' with
          | (Ok data, m'') =>
              Some (moved p (shared_file s) (holder s) (at_stage pr m'' (Loaded a data)) s)
          | (Raise e, m'') =>
              Some (moved p (shared_file s) (holder s)
                      (at_stage pr m'' (Leaving (Raise e))) s)
          end
      | (Raise e, m') =>
          Some (moved p (shared_file s) (holder s) (at_stage pr m' (Leaving (Raise e))) s)
      end
  | Exists a =>
      match _load_existing (see (shared_file s) m) with
      | (Ok data, m') =>
          Some (moved p (shared_file s) (holder s) (at_stage pr m' (Loaded a data)) s)
      | (Raise e, m') =>
          Some (moved p (shared_file s) (holder s) (at_stage pr m' (Leaving (Raise e))) s)
      end
  | Loaded a data =>
      match with_uid_record_dict identifier
              (allocate_body (arg_status a) (arg_relpath a) (arg_param_hash a) (arg_now a))
              data m with
      | (Ok uid, m') =>
          Some (moved p (shared_file s) (holder s) (at_stage pr m' (Edited data uid)) s)
      | (Raise e, m') =>
          Some (moved p (shared_file s) (holder s) (at_stage pr m' (Leaving (Raise e))) s)
      end
  | Edited data uid =>
      match _save data (see (shared_file s) m) with
      | (Ok _, m') =>
          Some (moved p (file m') (holder s) (at_stage pr m' (Leaving (Ok uid))) s)
      | (Raise e, m') =>
          Some (moved p (file m') (holder s) (at_stage pr m' (Leaving (Raise e))) s)
      end
  | Leaving out =>
      Some (moved p (shared_file s)
              (if LEDGER_LOCK m then None else holder s)
              {| memory := if LEDGER_LOCK m then (emit Release m).2 else m;
                 stage_of := Idle; todo := todo pr;
                 outcomes := outcomes pr ++ [out] |} s)
  end.

(** A schedule names the process that moves next; a process that cannot
    move when named is passed over. *)
Fixpoint run (identifier : string) (schedule : list bool) (s : system) : system :=
  match schedule with
  | [] => s
  | p :: rest => run identifier rest (default s (move identifier p s))
  end.

(** Both processes about to start, with the calls they will make. *)
Definition start (f : option bytes) (m_false m_true : state)
    (calls_false calls_true : list allocate_args) : system :=
  {| shared_file := f; holder := None;
     process_false := {| memory := m_false; stage_of := Idle;
                         todo := calls_false; outcomes := [] |};
     process_true := {| memory := m_true; stage_of := Idle;
                        todo := calls_true; outcomes := [] |} |}.

(** A process is inside a load-mutate-persist cycle. *)
Definition inside (pr : process) : bool :=
  match stage_of pr with Idle => false | _ => true end.

Definition finished (s : system) : Prop :=
  ∀ p, stage_of (proc p s) = Idle ∧ todo (proc p s) = [].

(** The document in the shared file. *)
Definition system_stored (s : system) : option DATA_STRUCTURE :=
  match shared_file s with
  | None => Some []
  | Some b => validate_json b
  end.

(** The uids a process has been given, the one of a call that has
    saved but not yet left the lock included. *)
Definition given (pr : process) : list string :=
  uids (outcomes pr ++ match stage_of pr with Leaving out => [out] | _ => [] end).

(** The calls of a process: made, under way and to come. *)
Definition calls_count (pr : process) : nat :=
  length (outcomes pr) + (if inside pr then 1 else 0) + length (todo pr).

(** The moves a process has still to make, at most. *)
Definition remaining (pr : process) : nat :=
  6 * length (todo pr) +
  match stage_of pr with
  | Idle => 0
  | Entered _ => 5
  | Exists _ => 4
  | Loaded _ _ => 3
  | Edited _ _ => 2
  | Leaving _ => 1
  end.

(** What holds of the system at every moment when both processes have
    the lock installed; [D0] is the document at the start. *)
Definition stage_ok (identifier : string) (D : DATA_STRUCTURE) (pr : process) : Prop :=
  match stage_of pr with
  | Loaded _ data => objects (memory pr) !! data = Some D
  | Edited data uid =>
      ∃ D1, objects (memory pr) !! data = Some D1 ∧ data_wf D1 ∧
            pydict.keys (run_set_of identifier D1)
              = pydict.keys (run_set_of identifier D) ++ [uid]
  | _ => True
  end.

Definition invariant (identifier : string) (D0 : DATA_STRUCTURE) (s : system) : Prop :=
  (∀ p, LEDGER_LOCK (memory (proc p s)) = true) ∧
  (∀ p, holder s = Some p ↔ inside (proc p s) = true) ∧
  ∃ D, system_stored s = Some D ∧ data_wf D ∧
       (∀ p, stage_ok identifier D (proc p s)) ∧
       pydict.keys (run_set_of identifier D)
         ≡ₚ pydict.keys (run_set_of identifier D0)
              ++ given (proc false s) ++ given (proc true s).
End processes.

(** ** A JSON adapter

    The layout of the file: an object of identifiers, each an object of
    uids, each a record object with the fields [status], [param_hash],
    [relpath], [status_time] and [files].  The adapter starts from the
    parsed JSON value and leaves the text of the file to the JSON
    library.  An object becomes a Python dictionary: a repeated key keeps
    its first place and its last value. *)

#[warnings="-register-all"]
Inductive json :=
  | JNull
  | JNumber (z : Z)
  | JString (s : string)
  | JObject (members : list (string * json)).

Definition status_value (s : Status) : string :=
  match s with
  | PENDING => "PENDING"
  | RUNNING => "RUNNING"
  | DONE => "DONE"
  | ERROR => "ERROR"
  end.

Definition status_of_value (v : string) : option Status :=
  if String.eqb v "PENDING" then Some PENDING
  else if String.eqb v "RUNNING" then Some RUNNING
  else if String.eqb v "DONE" then Some DONE
  else if String.eqb v "ERROR" then Some ERROR
  else None.

Definition json_of_option (o : option Z) : json :=
  match o with Some z => JNumber z | None => JNull end.

Definition option_of_json (j : json) : option (option Z) :=
  match j with
  | JNull => Some None
  | JNumber z => Some (Some z)
  | _ => None
  end.

Definition string_of_json (j : json) : option string :=
  match j with JString s => Some s | _ => None end.

(** The members of an object, each value checked by [f], as a dictionary. *)
Definition dict_of_members {V} (f : json → option V) (ms : list (string * json))
    : option (list (string * V)) :=
  kvs ← mapM (fun kv => v ← f kv.2; Some (kv.1, v)) ms;
  Some (pydict.update [] kvs).

Definition members_of_dict {V} (g : V → json) (d : list (string * V))
    : list (string * json) :=
  (fun kv => (kv.1, g kv.2)) <$> d.

(** Modelled from the spec: [run_record.py] and pydantic are not among
    the sources.  Section 6 gives the fields of a record in the file:
    [status] as the string of the enum value, [param_hash] as a number
    or null, [relpath] as a string, the time of the status, and [files]
    as an object of strings. *)
Definition json_of_record (r : RunRecord) : json :=
  JObject [("status", JString (status_value (status r)));
           ("param_hash", json_of_option (param_hash r));
           ("relpath", JString (relpath r));
           ("status_time", json_of_option (status_time r));
           ("files", JObject (members_of_dict JString (files r)))]%string.

(** The member [name] of an object, checked by [check]. *)
Definition field {A} (check : json → option A) (name : string)
    (ms : list (string * json)) : option A :=
  match pydict.get name ms with
  | Some j => check j
  | None => None
  end.

Definition status_of_json (j : json) : option Status :=
  match j with JString v => status_of_value v | _ => None end.

Definition files_of_json (j : json) : option (list (string * string)) :=
  match j with JObject ms => dict_of_members string_of_json ms | _ => None end.

Definition record_of_json (j : json) : option RunRecord :=
  match j with
  | JObject ms =>
      s ← field status_of_json "status" ms;
      h ← field option_of_json "param_hash" ms;
      p ← field string_of_json "relpath" ms;
      t ← field option_of_json "status_time" ms;
      fs ← field files_of_json "files" ms;
      Some {| status := s; param_hash := h; relpath := p; status_time := t; files := fs |}
  | _ => None
  end.

Definition json_of_data (d : DATA_STRUCTURE) : json :=
  JObject (members_of_dict (fun rs => JObject (members_of_dict json_of_record rs)) d).

Definition run_set_of_json (j : json) : option UID_RECORD_DICT :=
  match j with JObject ms => dict_of_members record_of_json ms | _ => None end.

Definition data_of_json (j : json) : option DATA_STRUCTURE :=
  match j with JObject ms => dict_of_members run_set_of_json ms | _ => None end.

(** Modelled from the spec: [DATA_STRUCTURE_MODEL], the pydantic adapter
    of [dict[str, dict[str, RunRecord]]], for the layout of section 6. *)
Definition json_adapter : TypeAdapter :=
  {| bytes := json; dump_json := json_of_data; validate_json := data_of_json |}.

(** ** Example ledgers, on [json_adapter] *)

Definition args0 : allocate_args :=
  {| arg_status := PENDING; arg_relpath := "."; arg_param_hash := None; arg_now := 0 |}.

Definition record_with (h : option Z) : RunRecord :=
  timestamp_status 0 (new_RunRecord PENDING h ".").

(** The run-set of the resume example of the spec: fingerprints 5, none,
    5 and 7, in this order. *)
Definition resume_run_set : UID_RECORD_DICT :=
  [("000", record_with (Some 5%Z)); ("001", record_with None);
   ("002", record_with (Some 5%Z)); ("003", record_with (Some 7%Z))]%string.

Definition resume_document : DATA_STRUCTURE := [("known_id", resume_run_set)]%string.

(** A ledger right after its constructor, on a file with the resume
    example and on no file. *)
Definition resume_ledger : state :=
  init (DATA_STRUCTURE_MODEL := json_adapter) (Some (json_of_data resume_document)) 1000.

(** A ledger on a file that is not a document. *)
Definition corrupt_ledger : state :=
  init (DATA_STRUCTURE_MODEL := json_adapter) (Some (JString "oops")) 1000.

Definition empty_ledger (maxsize : Z) : state :=
  init (DATA_STRUCTURE_MODEL := json_adapter) None maxsize.

(** Two worker processes about to allocate on a file that is not there
    yet, with and without the lock installed by the pool initializer. *)
Definition worker (lock : bool) : state :=
  (set_global_lock (DATA_STRUCTURE_MODEL := json_adapter) lock (empty_ledger 1000)).2.

Definition two_workers (lock : bool) : system :=
  start (DATA_STRUCTURE_MODEL := json_adapter) None (worker lock) (worker lock)
    [args0; args0] [args0].

(** ** Callers of the ledger *)

(** [data[identifier][uid]] when both keys are there. *)
Definition record_at (d : DATA_STRUCTURE) (identifier uid : string) : option RunRecord :=
  pydict.get identifier d ≫= pydict.get uid.

(** What no call changes of a record that is there: its fingerprint,
    its path, and the tags of its files in the order they came. *)
Definition record_kept (r r' : RunRecord) : Prop :=
  param_hash r' = param_hash r ∧ relpath r' = relpath r ∧
  pydict.keys (files r) `prefix_of` pydict.keys (files r').

(** Two records with the same fields but for the time of the status. *)
Definition same_but_stamp (r r' : RunRecord) : Prop :=
  status r' = status r ∧ param_hash r' = param_hash r ∧
  relpath r' = relpath r ∧ files r' = files r.

(** A dictionary that has kept its keys in their places, with values
    related by [R], and may have got new keys at the end. *)
Definition dict_grows {V} (R : V → V → Prop) (d d' : list (string * V)) : Prop :=
  ∃ kept new, d' = kept ++ new ∧ Forall2 (fun a b => a.1 = b.1 ∧ R a.2 b.2) d kept.

Definition data_grows (d d' : DATA_STRUCTURE) : Prop :=
  dict_grows (dict_grows record_kept) d d'.

Section callers.
Context `{DATA_STRUCTURE_MODEL : TypeAdapter}.

(** A caller that makes one call after the other, whatever they are, and
    goes on after a call that raised: the state at the end. *)
Fixpoint perform_all (calls : list call) (st : state) : state :=
  match calls with
  | [] => st
  | c :: rest => perform_all rest (perform c st).2
  end.


(** A call on the document of the file: what it returns and the document
    of the file afterwards.  Proved equal to [perform] in the facts. *)
Definition perform_on (c : call) (maxsize : Z) (d : DATA_STRUCTURE)
    : result returned * DATA_STRUCTURE :=
  match c with
  | Allocate identifier a =>
      match allocate_on identifier (arg_status a) (arg_relpath a) (arg_param_hash a)
              (arg_now a) maxsize d with
      | (Ok uid, d') => (Ok (RUid uid), d')
      | (Raise e, _) => (Raise e, d)
      end
  | Log identifier uid status path_dict now =>
      if negb (status_given status || path_dict_given path_dict) then (Ok RNone, d)
      else
        match log_on identifier uid status path_dict now d with
        | (Ok _, d') => (Ok RNone, d')
        | (Raise e, _) => (Raise e, d)
        end
  | GetRecord identifier uid =>
      (match record_at d identifier uid with
       | Some r => Ok (RRecord r)
       | None => Raise (KeyError (no_run_found identifier uid))
       end, d)
  | GetUidRecordDict identifier =>
      (match pydict.get identifier d with
       | Some rs => Ok (RRecords rs)
       | None => Raise (KeyError (no_runs_found identifier))
       end, d)
  | FindByParamHash identifier None => (Ok (RFound None), d)
  | FindByParamHash identifier (Some h) =>
      (match pydict.get identifier d with
       | Some rs => Ok (RFound (List.find (hash_matches h) rs))
       | None => Raise (KeyError (no_runs_found identifier))
       end, d)
  end.

(** The calls that go to the file: all but a [log] with nothing to log
    and a search for no fingerprint. *)
Definition loads (c : call) : bool :=
  match c with
  | Log _ _ status path_dict _ => status_given status || path_dict_given path_dict
  | FindByParamHash _ None => false
  | _ => true
  end.

(** The calls that edit: [allocate] and a [log] with something to log. *)
Definition edits (c : call) : bool :=
  match c with
  | Allocate _ _ => true
  | Log _ _ status path_dict _ => status_given status || path_dict_given path_dict
  | _ => false
  end.

Definition lock_event (e : event) : bool :=
  match e with Acquire | Release => true | _ => false end.
End callers.

(** *** Two processes and one process

    What the calls of two processes amount to when they are made by one
    process, one after the other, in the order in which they took
    effect. *)
Section serial.
Context `{DATA_STRUCTURE_MODEL : TypeAdapter}.

(** [allocate] on the document of the file: what it returns and the
    document of the file afterwards. *)
Definition allocate_doc (identifier : string) (maxsize : Z) (a : allocate_args)
    (d : DATA_STRUCTURE) : result string * DATA_STRUCTURE :=
  match allocate_on identifier (arg_status a) (arg_relpath a) (arg_param_hash a)
          (arg_now a) maxsize d with
  | (Ok uid, d') => (Ok uid, d')
  | (Raise e, _) => (Raise e, d)
  end.

(** Calls, each with the process that makes it, made one after the other
    on a document: how they ended, and the document at the end. *)
Definition replay (identifier : string) (maxsize : Z)
    (h : list (bool * allocate_args)) (d : DATA_STRUCTURE)
    : list (bool * result string) * DATA_STRUCTURE :=
  foldl (fun acc c =>
           let r := allocate_doc identifier maxsize c.2 acc.2 in
           (acc.1 ++ [(c.1, r.1)], r.2))
        ([], d) h.

(** Of a list of things of both processes, those of process [p]. *)
Definition of_process {A} (p : bool) (l : list (bool * A)) : list A :=
  (filter (fun x => x.1 = p) l).*2.

(** The outcome of the call under way, once its body is over. *)
Definition pending (pr : process) : list (result string) :=
  match stage_of pr with
  | Edited _ uid => [Ok uid]
  | Leaving out => [out]
  | _ => []
  end.

(** The calls whose body is still to come. *)
Definition calls_left (pr : process) : list allocate_args :=
  match stage_of pr with
  | Entered a | Exists a | Loaded a _ => a :: todo pr
  | _ => todo pr
  end.

(** What holds at every moment of two processes with the lock, of the
    calls [h] whose body is over, in the order of their bodies. *)
Definition serial_invariant (identifier : string) (D0 : DATA_STRUCTURE) (ms : Z)
    (calls : bool → list allocate_args) (s : system)
    (h : list (bool * allocate_args)) : Prop :=
  let R := replay identifier ms h D0 in
  data_wf R.2 ∧
  (∀ p, maxsize (memory (proc p s)) = ms) ∧
  (∀ p a, stage_of (proc p s) = Exists a → is_Some (shared_file s)) ∧
  (∀ p, of_process p R.1 = outcomes (proc p s) ++ pending (proc p s)) ∧
  (∀ p, of_process p h ++ calls_left (proc p s) = calls p) ∧
  (∀ p, inside (proc (negb p) s) = false →
        match stage_of (proc p s) with
        | Edited data _ => objects (memory (proc p s)) !! data = Some R.2
        | Loaded _ data =>
            objects (memory (proc p s)) !! data = Some R.2 ∧
            system_stored s = Some R.2
        | _ => system_stored s = Some R.2
        end).
End serial.

(** *** [Session] of [project/session.py]

    The methods that go through the ledger.  [folder] and [path] build
    filesystem paths from [StorageMode], which is not among the sources,
    and are left out. *)
Module Session.
Local Abbreviation record_status := status.
Local Abbreviation record_files := files.

(** The dataclass; its field [ledger] is the ledger object of the
    process, the state the methods run in. *)
Record t := {
  identifier : string;
  uid : string;
  project_path : string;
  param_hash : option string;
}.

Section methods.
Context `{DATA_STRUCTURE_MODEL : TypeAdapter}.
(** [pathlib.Path] and its constructor from a string *)
Context {path : Type} (Path : string → path).

(** The property [Session.status] *)
Definition status (self : t) : M Status :=
  record <- get_record (identifier self) (uid self) ;;
  ret (record_status record).

(** [Session.start], [Session.error] and [Session.done]; [now] is the
    clock reading of the stamp. *)
Definition start (self : t) (now : Z) : M unit :=
  log (identifier self) (uid self) (Some RUNNING) None now.

Definition error (self : t) (now : Z) : M unit :=
  log (identifier self) (uid self) (Some ERROR) None now.

Definition done (self : t) (now : Z) : M unit :=
  log (identifier self) (uid self) (Some DONE) None now.

(** [Session.attach_files] *)
Definition attach_files (self : t) (path_dict : list (string * string)) (now : Z)
    : M unit :=
  log (identifier self) (uid self) None (Some path_dict) now.

(** The property [Session.files]: the comprehension
    [{k: Path(v) for k, v in files_dict.items()}] assigns item by item
    to a new dictionary. *)
Definition files (self : t) : M (list (string * path)) :=
  record <- get_record (identifier self) (uid self) ;;
  let files_dict := record_files record in
  ret (pydict.update [] ((fun kv => (kv.1, Path kv.2)) <$> files_dict)).

(** [Session.is_done] *)
Definition is_done (self : t) : M bool :=
  s <- status self ;;
  ret (match s with DONE => true | _ => false end).
End methods.
End Session.

(** A session on the second record of the resume example. *)
Definition resume_session : Session.t :=
  {| Session.identifier := "known_id"; Session.uid := "001";
     Session.project_path := "."; Session.param_hash := None |}.

(** A session for a run that was never allocated. *)
Definition lost_session : Session.t :=
  {| Session.identifier := "known_id"; Session.uid := "999";
     Session.project_path := "."; Session.param_hash := None |}.

(** A session for the run that the next [allocate] of the resume example
    makes. *)
Definition next_session : Session.t :=
  {| Session.identifier := "known_id"; Session.uid := "004";
     Session.project_path := "."; Session.param_hash := None |}.

(** What a caller of the resume example may do next. *)
Definition resume_calls : list call :=
  [Allocate "known_id" args0;
   Log "known_id" "001" (Some DONE) (Some [("out", "a.csv")]) 3;
   GetRecord "nobody" "000";
   Allocate "other_id" args0]%string.

(** Two worker processes without the lock, one call each, on the file of
    the resume example. *)
Definition racing_workers : system :=
  start (DATA_STRUCTURE_MODEL := json_adapter) (Some (json_of_data resume_document))
    resume_ledger resume_ledger [args0] [args0].

(** * Facts *)

(** ** Dictionaries *)

Module pydict_facts.
Import pydict.
Section facts.
Context {V : Type}.
Implicit Types (d other : list (string * V)) (k : string) (v : V).

Lemma get_None k d : get k d = None ↔ k ∉ keys d.
Proof.
  induction d as [|[k' v] d IH]; simpl.
  - split; [intros _; apply not_elem_of_nil | done].
  - destruct (String.eqb_spec k k') as [->|Hne].
    + split; [done | intros H; exfalso; apply H; left].
    + rewrite IH, not_elem_of_cons. tauto.
Qed.

Lemma get_Some_elem k v d : get k d = Some v → (k, v) ∈ d.
Proof.
  induction d as [|[k' v'] d IH]; simpl; [done|].
  destruct (String.eqb_spec k k') as [->|Hne].
  - intros [= ->]. left.
  - intros H. right. auto.
Qed.

Lemma elem_get k v d : wf d → (k, v) ∈ d → get k d = Some v.
Proof.
  unfold wf, keys. induction d as [|[k' v'] d IH]; simpl.
  - intros _ H. by apply elem_of_nil in H.
  - rewrite NoDup_cons. intros [Hnin Hnd] [[= -> ->]|Hin]%elem_of_cons.
    + by rewrite String.eqb_refl.
    + destruct (String.eqb_spec k k') as [->|Hne]; [|by apply IH].
      exfalso. apply Hnin. apply (list_elem_of_fmap_2 fst _ (k', v)). done.
Qed.

Lemma contains_true k d : contains k d = true ↔ k ∈ keys d.
Proof.
  unfold contains. destruct (get k d) eqn:E.
  - split; [intros _|done]. destruct (decide (k ∈ keys d)) as [|Hn]; [done|].
    apply get_None in Hn. congruence.
  - apply get_None in E. split; [done | intros; contradiction].
Qed.

Lemma contains_false k d : contains k d = false ↔ k ∉ keys d.
Proof.
  rewrite <- contains_true. destruct (contains k d); split; congruence.
Qed.

Lemma get_set_eq k v d : get k (set k v d) = Some v.
Proof.
  induction d as [|[k' v'] d IH]; simpl.
  - by rewrite String.eqb_refl.
  - destruct (String.eqb_spec k k') as [->|Hne]; simpl.
    + by rewrite String.eqb_refl.
    + by destruct (String.eqb_spec k k').
Qed.

Lemma get_set_ne k k' v d : k ≠ k' → get k' (set k v d) = get k' d.
Proof.
  intros Hne. induction d as [|[k1 v1] d IH]; simpl.
  - by destruct (String.eqb_spec k' k) as [->|].
  - destruct (String.eqb_spec k k1) as [->|Hne1]; simpl.
    + by destruct (String.eqb_spec k' k1).
    + by rewrite IH.
Qed.

Lemma set_set k v v' d : set k v' (set k v d) = set k v' d.
Proof.
  induction d as [|[k1 v1] d IH]; simpl.
  - by rewrite String.eqb_refl.
  - destruct (String.eqb_spec k k1) as [->|Hne]; simpl.
    + by rewrite String.eqb_refl.
    + destruct (String.eqb_spec k k1); [done|]. by rewrite IH.
Qed.

Lemma get_set k k' v d :
  get k' (set k v d) = if String.eqb k' k then Some v else get k' d.
Proof.
  destruct (String.eqb_spec k' k) as [->|Hne].
  - apply get_set_eq.
  - apply get_set_ne. congruence.
Qed.

Lemma keys_set_in k v d : k ∈ keys d → keys (set k v d) = keys d.
Proof.
  unfold keys. induction d as [|[k' v'] d IH]; simpl.
  - intros H. by apply elem_of_nil in H.
  - destruct (String.eqb_spec k k') as [->|Hne]; simpl; [done|].
    intros [?|Hin]%elem_of_cons; [done|]. f_equal. by apply IH.
Qed.

Lemma keys_set_notin k v d : k ∉ keys d → keys (set k v d) = keys d ++ [k].
Proof.
  unfold keys. induction d as [|[k' v'] d IH]; simpl; [done|].
  rewrite not_elem_of_cons. intros [Hne Hnin].
  destruct (String.eqb_spec k k') as [->|_]; [done|].
  simpl. f_equal. by apply IH.
Qed.

Lemma set_notin k v d : k ∉ keys d → set k v d = d ++ [(k, v)].
Proof.
  unfold keys. induction d as [|[k' v'] d IH]; simpl; [done|].
  rewrite not_elem_of_cons. intros [Hne Hnin].
  destruct (String.eqb_spec k k') as [->|_]; [done|].
  f_equal. by apply IH.
Qed.

Lemma elem_keys_set k k' v d : k' ∈ keys (set k v d) ↔ k' = k ∨ k' ∈ keys d.
Proof.
  destruct (decide (k ∈ keys d)) as [Hin|Hnin].
  - rewrite keys_set_in by done. split; [tauto | by intros [->|?]].
  - rewrite keys_set_notin by done. rewrite elem_of_app, list_elem_of_singleton.
    tauto.
Qed.

Lemma wf_set k v d : wf d → wf (set k v d).
Proof.
  unfold wf. intros Hd. destruct (decide (k ∈ keys d)) as [Hin|Hnin].
  - by rewrite keys_set_in.
  - rewrite keys_set_notin by done. apply NoDup_app. split; [done|].
    split; [|apply NoDup_singleton].
    intros x Hx ->%list_elem_of_singleton. done.
Qed.

Lemma wf_setdefault k v d : wf d → wf (setdefault k v d).
Proof. unfold setdefault. destruct (contains k d); auto using wf_set. Qed.

Lemma wf_update d other : wf d → wf (update d other).
Proof.
  unfold update. revert d. induction other as [|[k v] o IH]; simpl; [done|].
  intros d Hd. apply IH. by apply wf_set.
Qed.

Lemma wf_nil : wf (@nil (string * V)).
Proof. apply NoDup_nil_2. Qed.

Lemma elem_keys_update k d other :
  k ∈ keys (update d other) ↔ k ∈ keys d ∨ k ∈ keys other.
Proof.
  unfold update. revert d. induction other as [|[k' v] o IH]; simpl; intros d.
  - change (keys []) with (@nil string). rewrite elem_of_nil. tauto.
  - change (keys ((k', v) :: o)) with (k' :: keys o).
    rewrite IH, elem_keys_set, elem_of_cons. tauto.
Qed.

(** Merging: a tag of [other] gets the path [other] gives it, every other
    tag keeps its own. *)
Lemma get_update k d other :
  wf other →
  get k (update d other) =
    match get k other with Some v => Some v | None => get k d end.
Proof.
  unfold update, wf, keys. revert d.
  induction other as [|[k' v] o IH]; simpl; intros d Hwf; [done|].
  apply NoDup_cons in Hwf as [Hnin Hnd]. rewrite IH by done.
  destruct (String.eqb_spec k k') as [->|Hne].
  - assert (get k' o = None) as -> by by apply get_None.
    apply get_set_eq.
  - destruct (get k o); [done|]. apply get_set_ne. congruence.
Qed.

Lemma get_Forall (P : V → Prop) k v d :
  get k d = Some v → Forall (λ kv, P kv.2) d → P v.
Proof.
  intros Hg%get_Some_elem HF. rewrite Forall_forall in HF. exact (HF _ Hg).
Qed.

Lemma Forall_set (P : V → Prop) k v d :
  Forall (λ kv, P kv.2) d → P v → Forall (λ kv, P kv.2) (set k v d).
Proof.
  intros HF Hv. induction d as [|[k1 v1] d IH]; simpl.
  - by constructor.
  - apply Forall_cons in HF as [H1 HF].
    destruct (String.eqb_spec k k1) as [->|Hne]; constructor; auto.
Qed.

Lemma get_setdefault k v d :
  get k (setdefault k v d) = Some (default v (get k d)).
Proof.
  unfold setdefault, contains. destruct (get k d) eqn:E; simpl; [done|].
  apply get_set_eq.
Qed.

Lemma get_setdefault_ne k k' v d : k ≠ k' → get k' (setdefault k v d) = get k' d.
Proof.
  intros Hne. unfold setdefault. destruct (contains k d); [done|].
  by apply get_set_ne.
Qed.

Lemma setdefault_in k v d : k ∈ keys d → setdefault k v d = d.
Proof. intros H%contains_true. unfold setdefault. by rewrite H. Qed.

Lemma setdefault_notin k v d : k ∉ keys d → setdefault k v d = d ++ [(k, v)].
Proof.
  intros H. unfold setdefault. rewrite (proj2 (contains_false k d) H).
  by apply set_notin.
Qed.

Lemma Forall_setdefault (P : V → Prop) k v d :
  Forall (λ kv, P kv.2) d → P v → Forall (λ kv, P kv.2) (setdefault k v d).
Proof.
  intros HF Hv. unfold setdefault. destruct (contains k d); [done|].
  by apply Forall_set.
Qed.

Lemma get_is_Some k d : is_Some (get k d) ↔ k ∈ keys d.
Proof.
  rewrite <- contains_true. unfold contains.
  destruct (get k d); split; intros H; try done; by destruct H.
Qed.
End facts.
End pydict_facts.

(** ** Naming strategy *)

Section naming_facts.
Lemma mem_true key l : mem key l = true ↔ key ∈ l.
Proof.
  unfold mem. rewrite existsb_exists. split.
  - intros (x & Hin & ->%String.eqb_eq). by apply list_elem_of_In.
  - intros Hin. exists key. split; [by apply list_elem_of_In | apply String.eqb_refl].
Qed.

Lemma mem_false key l : mem key l = false ↔ key ∉ l.
Proof. rewrite <- mem_true. destruct (mem key l); split; congruence. Qed.

Lemma to_uint_not_Nil n : Nat.to_uint n ≠ Decimal.Nil.
Proof.
  intros H. pose proof (DecimalNat.Unsigned.to_of (Nat.to_uint n)) as E.
  rewrite DecimalNat.Unsigned.of_to in E. rewrite H in E at 2.
  simpl in E. rewrite H in E. discriminate.
Qed.

Lemma str_digits n : str n = NilEmpty.string_of_uint (Nat.to_uint n).
Proof.
  unfold str, NilZero.string_of_uint.
  pose proof (to_uint_not_Nil n). by destruct (Nat.to_uint n).
Qed.

Lemma uint_of_zeros k s d :
  NilEmpty.uint_of_string s = Some d →
  NilEmpty.uint_of_string (zeros k +:+ s) = Some (lead0 k d).
Proof. intros H. induction k as [|k IH]; simpl; [done|]. by rewrite IH. Qed.

Lemma of_uint_lead0 k d : Nat.of_uint (lead0 k d) = Nat.of_uint d.
Proof. induction k as [|k IH]; simpl; [done|]. exact IH. Qed.

Lemma uid_number_zero_padded w i : uid_number (zero_padded w i) = Some i.
Proof.
  unfold uid_number, zero_padded. rewrite str_digits.
  rewrite (uint_of_zeros _ _ (Nat.to_uint i)) by apply NilEmpty.usu.
  simpl. by rewrite of_uint_lead0, DecimalNat.Unsigned.of_to.
Qed.

Lemma zero_padded_inj w i j : zero_padded w i = zero_padded w j → i = j.
Proof.
  intros H. apply (f_equal uid_number) in H.
  rewrite !uid_number_zero_padded in H. congruence.
Qed.

Lemma first_unused_Some ex w a n key :
  first_unused ex w (seq a n) = Some key →
  ∃ i, a ≤ i < a + n ∧ key = zero_padded w i ∧ (key ∉ ex) ∧
       ∀ j, a ≤ j < i → zero_padded w j ∈ ex.
Proof.
  revert a. induction n as [|n IH]; intros a; simpl; [done|].
  destruct (mem (zero_padded w a) ex) eqn:E.
  - intros (i & Hi & -> & Hnin & Hlt)%IH. exists i. repeat split; [lia | lia | done |].
    intros j Hj. destruct (decide (j = a)) as [->|]; [by apply mem_true|].
    apply Hlt. lia.
  - intros [= <-]. exists a. repeat split; [lia | lia | by apply mem_false |].
    intros j Hj. lia.
Qed.

Lemma first_unused_None ex w a n :
  first_unused ex w (seq a n) = None ↔
  ∀ j, a ≤ j < a + n → zero_padded w j ∈ ex.
Proof.
  revert a. induction n as [|n IH]; intros a; simpl.
  - split; [intros _ j Hj; lia | done].
  - destruct (mem (zero_padded w a) ex) eqn:E.
    + rewrite IH. apply mem_true in E. split.
      * intros H j Hj. destruct (decide (j = a)) as [->|]; [done|]. apply H. lia.
      * intros H j Hj. apply H. lia.
    + apply mem_false in E. split; [done|]. intros H. exfalso. apply E. apply H. lia.
Qed.
End naming_facts.

(** ** The methods on a stored document *)

#[global] Arguments pydict.get : simpl never.
#[global] Arguments pydict.set : simpl never.
#[global] Arguments pydict.setdefault : simpl never.
#[global] Arguments pydict.contains : simpl never.
#[global] Arguments pydict.keys : simpl never.
#[global] Arguments pydict.update : simpl never.
#[global] Arguments run_set_of : simpl never.
#[global] Arguments counter_naming_strategy : simpl never.

Lemma lookup_last {A} (l : list A) (x : A) : (l ++ [x]) !! length l = Some x.
Proof. by apply list_lookup_middle. Qed.

Lemma alter_last {A} (f : A → A) (l : list A) (x : A) :
  alter f (length l) (l ++ [x]) = l ++ [f x].
Proof.
  induction l as [|y l IH]; simpl; [done|]. f_equal. exact IH.
Qed.

Ltac crush_run :=
  simpl; rewrite ?alter_last, ?lookup_last, <- ?app_assoc; simpl.

Section ledger_facts.
Context `{DATA_STRUCTURE_MODEL : TypeAdapter}.
Import pydict_facts.

Lemma stored_cases st D :
  stored st = Some D →
  (file st = None ∧ D = []) ∨ (∃ b, file st = Some b ∧ validate_json b = Some D).
Proof.
  unfold stored. destruct (file st) as [b|]; [right; eauto | left; split; congruence].
Qed.

Lemma _load_run st D :
  stored st = Some D → _load st = (Ok (length (objects st)), loaded st D).
Proof.
  intros [[Hf ->]|(b & Hf & Hv)]%stored_cases; destruct st as [f ms objs cache lk tr];
    simpl in *; subst f; unfold _load, _load_existing, loaded, load_events, bind; simpl.
  - done.
  - rewrite Hv. by crush_run.
Qed.

Lemma allocate_run identifier status relpath param_hash now st D :
  stored st = Some D →
  allocate identifier status relpath param_hash now st =
    let r := allocate_on identifier status relpath param_hash now (maxsize st) D in
    (r.1, edited st r.1 r.2).
Proof.
  intros [[Hf ->]|(b & Hf & Hv)]%stored_cases; destruct st as [f ms objs cache lk tr];
    simpl in *; subst f; destruct lk;
    unfold allocate, allocate_body, _edit_uid_record_dict, with_uid_record_dict, _edit_data, with_lock, _load, _load_existing, bind,
      allocate_on, edited, load_events, lock_events; simpl.
  all: rewrite ?Hv; crush_run.
  all: destruct (counter_naming_strategy _ _); crush_run.
  all: reflexivity.
Qed.

Lemma run_set_of_set identifier rs d :
  run_set_of identifier (pydict.set identifier rs d) = rs.
Proof. unfold run_set_of. by rewrite get_set_eq. Qed.

Lemma log_noop identifier uid now st :
  log identifier uid None None now st = (Ok tt, st).
Proof. reflexivity. Qed.

Lemma log_run identifier uid status path_dict now st D :
  stored st = Some D →
  status_given status || path_dict_given path_dict = true →
  log identifier uid status path_dict now st =
    let r := log_on identifier uid status path_dict now D in
    (r.1, edited st r.1 r.2).
Proof.
  intros Hst Hgiven. unfold log. rewrite Hgiven. simpl negb. cbv iota.
  revert Hst.
  intros [[Hf ->]|(b & Hf & Hv)]%stored_cases; destruct st as [f ms objs cache lk tr];
    simpl in *; subst f; destruct lk;
    unfold _edit_record, _edit_uid_record_dict, with_uid_record_dict, _edit_data, with_lock, _load, _load_existing, bind,
      log_on, log_record, edited, load_events, lock_events, uid_records_contains; simpl.
  all: rewrite ?Hv; crush_run.
  all: unfold pydict.contains.
  all: destruct (pydict.get uid _) as [r|] eqn:Hr; crush_run; try reflexivity.
  all: destruct status as [s|]; crush_run.
  all: rewrite ?run_set_of_set, ?get_set_eq, ?Hr, ?set_set; crush_run.
  all: rewrite ?run_set_of_set, ?get_set_eq, ?Hr, ?set_set; crush_run.
  all: destruct (path_dict_given path_dict); crush_run.
  all: rewrite ?run_set_of_set, ?get_set_eq, ?Hr, ?set_set; crush_run.
  all: try reflexivity.
  all: discriminate Hgiven.
Qed.

Lemma get_record_run identifier uid st D :
  stored st = Some D →
  get_record identifier uid st =
    (match pydict.get identifier D with
     | None => Raise (KeyError (no_run_found identifier uid))
     | Some rs =>
         match pydict.get uid rs with
         | None => Raise (KeyError (no_run_found identifier uid))
         | Some r => Ok r
         end
     end, loaded st D).
Proof.
  intros Hst. unfold get_record, bind. rewrite (_load_run _ _ Hst).
  unfold deref, loaded at 1 2. simpl. rewrite lookup_last. simpl.
  unfold pydict.contains, run_set_of.
  destruct (pydict.get identifier D) as [rs|]; simpl; [|done].
  by destruct (pydict.get uid rs).
Qed.

Lemma get_uid_record_dict_run identifier st D :
  stored st = Some D →
  get_uid_record_dict identifier st =
    (match pydict.get identifier D with
     | None => Raise (KeyError (no_runs_found identifier))
     | Some rs => Ok rs
     end, loaded st D).
Proof.
  intros Hst. unfold get_uid_record_dict, bind. rewrite (_load_run _ _ Hst).
  unfold deref, loaded at 1 2. simpl. rewrite lookup_last. simpl.
  unfold pydict.contains, run_set_of.
  by destruct (pydict.get identifier D) as [rs|].
Qed.

Lemma find_by_param_hash_run identifier h st D :
  stored st = Some D →
  find_by_param_hash identifier (Some h) st =
    (match pydict.get identifier D with
     | None => Raise (KeyError (no_runs_found identifier))
     | Some rs => Ok (List.find (hash_matches h) rs)
     end, loaded st D).
Proof.
  intros Hst. unfold find_by_param_hash, bind.
  rewrite (get_uid_record_dict_run _ _ _ Hst).
  by destruct (pydict.get identifier D).
Qed.

(** A corrupt file stops every method that loads, before any change. *)
Lemma _edit_data_invalid {A} (body : nat → M A) st b :
  file st = Some b → validate_json b = None →
  _edit_data body st = (Raise ValidationError, rejected st).
Proof.
  intros Hf Hv. destruct st as [f ms objs cache lk tr]; simpl in *; subst f.
  destruct lk; unfold _edit_data, with_lock, _load, _load_existing, bind, rejected, lock_events; simpl.
  all: rewrite Hv; by crush_run.
Qed.

Lemma _load_invalid_run st b :
  file st = Some b → validate_json b = None →
  ∃ st', _load st = (Raise ValidationError, st') ∧ file st' = file st ∧
         trace st' = trace st ++ [FileExists; ReadBytes].
Proof.
  intros Hf Hv. destruct st as [f ms objs cache lk tr]; simpl in *; subst f.
  unfold _load, _load_existing, bind. simpl. rewrite Hv. eexists. split; [reflexivity|].
  by crush_run.
Qed.

Lemma no_write_lock_events st e b :
  e = Acquire ∨ e = Release → WriteBytes b ∉ lock_events st e.
Proof.
  unfold lock_events. intros He Hin. destruct (LEDGER_LOCK st).
  - apply list_elem_of_singleton in Hin. destruct He; congruence.
  - by apply elem_of_nil in Hin.
Qed.

Lemma no_write_load_events st b : WriteBytes b ∉ load_events st.
Proof.
  unfold load_events. intros Hin. apply elem_of_cons in Hin as [?|Hin]; [done|].
  destruct (file st).
  - by apply list_elem_of_singleton in Hin.
  - by apply elem_of_nil in Hin.
Qed.

(** *** The naming strategy *)

Lemma counter_naming_strategy_Ok ex ms uid :
  counter_naming_strategy ex ms = Ok uid →
  ∃ i, i < Z.to_nat ms ∧ uid = zero_padded (uid_width ms) i ∧ (uid ∉ ex) ∧
       ∀ j, j < i → zero_padded (uid_width ms) j ∈ ex.
Proof.
  unfold counter_naming_strategy.
  destruct (first_unused _ _ _) as [key|] eqn:E; [|done].
  intros [= <-]. apply first_unused_Some in E as (i & Hi & -> & Hnin & Hlt).
  exists i. repeat split; [lia | done |]. intros j Hj. apply Hlt. lia.
Qed.

Lemma counter_naming_strategy_Raise ex ms e :
  counter_naming_strategy ex ms = Raise e →
  e = CapacityExceeded ∧ ∀ j, j < Z.to_nat ms → zero_padded (uid_width ms) j ∈ ex.
Proof.
  unfold counter_naming_strategy.
  destruct (first_unused _ _ _) as [key|] eqn:E; [done|].
  intros [= <-]. split; [done|]. intros j Hj.
  rewrite first_unused_None in E. apply E. lia.
Qed.

Lemma counter_naming_strategy_full ex ms :
  (∀ j, j < Z.to_nat ms → zero_padded (uid_width ms) j ∈ ex) →
  counter_naming_strategy ex ms = Raise CapacityExceeded.
Proof.
  intros H. unfold counter_naming_strategy.
  destruct (first_unused _ _ _) as [key|] eqn:E; [|done].
  apply first_unused_Some in E as (i & Hi & -> & Hnin & _).
  exfalso. apply Hnin, H. lia.
Qed.

(** Fewer keys than [maxsize]: one of the padded numbers is free. *)
Lemma counter_naming_strategy_room ex ms :
  length ex < Z.to_nat ms → ∃ uid, counter_naming_strategy ex ms = Ok uid.
Proof.
  intros Hlen. destruct (counter_naming_strategy ex ms) as [uid|e] eqn:E; [by eexists|].
  apply counter_naming_strategy_Raise in E as [_ Hall]. exfalso.
  assert (length (zero_padded (uid_width ms) <$> seq 0 (Z.to_nat ms)) ≤ length ex) as Hle.
  { apply submseteq_length, NoDup_submseteq.
    - apply NoDup_fmap_2_strong; [|apply NoDup_seq].
      intros i j _ _. apply zero_padded_inj.
    - intros x (i & -> & Hi%elem_of_seq)%list_elem_of_fmap. apply Hall. lia. }
  rewrite length_fmap, length_seq in Hle. lia.
Qed.

(** *** Documents stay documents *)

Lemma run_set_of_setdefault identifier d :
  run_set_of identifier (pydict.setdefault identifier [] d) = run_set_of identifier d.
Proof.
  unfold run_set_of. rewrite get_setdefault. by destruct (pydict.get identifier d).
Qed.

Lemma run_set_of_setdefault_ne identifier identifier' d :
  identifier ≠ identifier' →
  run_set_of identifier' (pydict.setdefault identifier [] d) = run_set_of identifier' d.
Proof. intros Hne. unfold run_set_of. by rewrite get_setdefault_ne. Qed.

Lemma run_set_of_set_ne identifier identifier' rs d :
  identifier ≠ identifier' →
  run_set_of identifier' (pydict.set identifier rs d) = run_set_of identifier' d.
Proof. intros Hne. unfold run_set_of. by rewrite get_set_ne. Qed.

Lemma run_set_wf_nil : run_set_wf [].
Proof. split; [apply wf_nil | constructor]. Qed.

Lemma run_set_wf_run_set_of identifier d :
  data_wf d → run_set_wf (run_set_of identifier d).
Proof.
  intros [_ HF]. unfold run_set_of.
  destruct (pydict.get identifier d) as [rs|] eqn:E; simpl.
  - exact (get_Forall run_set_wf _ _ _ E HF).
  - apply run_set_wf_nil.
Qed.

Lemma run_set_wf_set uid r rs :
  run_set_wf rs → record_wf r → run_set_wf (pydict.set uid r rs).
Proof.
  intros [Hwf HF] Hr. split; [by apply wf_set|]. by apply (Forall_set record_wf).
Qed.

Lemma data_wf_set identifier rs d :
  data_wf d → run_set_wf rs → data_wf (pydict.set identifier rs d).
Proof.
  intros [Hwf HF] Hr. split; [by apply wf_set|]. by apply (Forall_set run_set_wf).
Qed.

Lemma data_wf_setdefault identifier d :
  data_wf d → data_wf (pydict.setdefault identifier [] d).
Proof.
  intros [Hwf HF]. split; [by apply wf_setdefault|].
  apply (Forall_setdefault run_set_wf); [done | apply run_set_wf_nil].
Qed.

Lemma data_wf_nil : data_wf [].
Proof. split; [apply wf_nil | constructor]. Qed.

Lemma record_wf_get identifier uid rs r d :
  data_wf d → pydict.get identifier d = Some rs → pydict.get uid rs = Some r →
  record_wf r.
Proof.
  intros [_ HF] Hrs Hr.
  pose proof (get_Forall run_set_wf _ _ _ Hrs HF) as [_ HF'].
  exact (get_Forall record_wf _ _ _ Hr HF').
Qed.

Lemma record_wf_log_record status path_dict now r :
  record_wf r → record_wf (log_record status path_dict now r).
Proof.
  unfold record_wf, log_record. intros Hr.
  destruct (path_dict_given path_dict), status; simpl; auto using wf_update.
Qed.

Lemma data_wf_allocate_on identifier status relpath param_hash now ms d :
  data_wf d → data_wf (allocate_on identifier status relpath param_hash now ms d).2.
Proof.
  intros Hd. unfold allocate_on.
  destruct (counter_naming_strategy _ _); simpl.
  - apply data_wf_set; [by apply data_wf_setdefault|].
    apply run_set_wf_set; [|exact (wf_nil (V:=string))].
    by apply run_set_wf_run_set_of, data_wf_setdefault.
  - by apply data_wf_setdefault.
Qed.

Lemma data_wf_log_on identifier uid status path_dict now d :
  data_wf d → data_wf (log_on identifier uid status path_dict now d).2.
Proof.
  intros Hd. unfold log_on.
  destruct (pydict.get uid _) as [r|] eqn:E; simpl; [|by apply data_wf_setdefault].
  apply data_wf_set; [by apply data_wf_setdefault|].
  apply run_set_wf_set; [by apply run_set_wf_run_set_of, data_wf_setdefault|].
  apply record_wf_log_record.
  pose proof (run_set_wf_run_set_of identifier _ (data_wf_setdefault identifier d Hd)) as [_ HF].
  exact (get_Forall record_wf _ _ _ E HF).
Qed.
End ledger_facts.

(** * Properties of the methods *)

Section properties.
Context `{DATA_STRUCTURE_MODEL : TypeAdapter}.
Import pydict_facts.

(** What is assumed of pydantic: a document that Python can hold is
    loaded back from its dump as it was. *)
Hypothesis validate_dump :
  ∀ d : DATA_STRUCTURE, data_wf d → validate_json (dump_json d) = Some d.

Lemma stored_edited_Ok {A} st (a : A) d :
  data_wf d → stored (edited st (Ok a) d) = Some d.
Proof. intros Hd. unfold stored, edited. simpl. by apply validate_dump. Qed.

Lemma stored_edited_Raise {A} st e d :
  stored (edited st (Raise e : result A) d) = stored st.
Proof. reflexivity. Qed.

(** One [allocate] call on a stored document. *)
Lemma allocate_step identifier status relpath param_hash now st D :
  stored st = Some D → data_wf D →
  let out := allocate identifier status relpath param_hash now st in
  let used := pydict.keys (run_set_of identifier D) in
  let w := uid_width (maxsize st) in
  maxsize out.2 = maxsize st ∧
  ∃ D', stored out.2 = Some D' ∧ data_wf D' ∧
    match out.1 with
    | Ok uid =>
        (∃ i, i < Z.to_nat (maxsize st) ∧ uid = zero_padded w i ∧ (uid ∉ used) ∧
              ∀ j, j < i → zero_padded w j ∈ used) ∧
        pydict.keys (run_set_of identifier D') = used ++ [uid]
    | Raise e =>
        (e = CapacityExceeded ∧
         ∀ j, j < Z.to_nat (maxsize st) → zero_padded w j ∈ used) ∧
        D' = D
    end.
Proof.
  intros Hst Hwf. rewrite (allocate_run _ _ _ _ _ _ _ Hst). simpl.
  split; [done|].
  pose proof (data_wf_allocate_on identifier status relpath param_hash now
                (maxsize st) D Hwf) as Hwf'.
  unfold allocate_on in *. rewrite run_set_of_setdefault in *.
  destruct (counter_naming_strategy _ _) as [uid|e] eqn:E; simpl in *.
  - eexists. split; [by apply stored_edited_Ok|]. split; [done|].
    apply counter_naming_strategy_Ok in E as Hi. split; [done|].
    destruct Hi as (i & _ & _ & Hnin & _).
    rewrite run_set_of_set. by apply keys_set_notin.
  - exists D. split; [done|]. split; [done|]. split; [|done].
    by apply counter_naming_strategy_Raise.
Qed.

Lemma allocations_facts identifier calls : ∀ st D,
  stored st = Some D → data_wf D →
  let outs := allocations identifier calls st in
  let w := uid_width (maxsize st) in
  (∀ k st_k out, outs !! k = Some (st_k, out) →
     ∃ D_k, stored st_k = Some D_k ∧
       let used := pydict.keys (run_set_of identifier D_k) in
       match out with
       | Ok uid =>
           ∃ i, i < Z.to_nat (maxsize st) ∧ uid = zero_padded w i ∧ (uid ∉ used) ∧
                ∀ j, j < i → zero_padded w j ∈ used
       | Raise e =>
           e = CapacityExceeded ∧
           ∀ j, j < Z.to_nat (maxsize st) → zero_padded w j ∈ used
       end) ∧
  NoDup (returned_uids outs) ∧
  (∀ uid, uid ∈ returned_uids outs →
     uid ∉ pydict.keys (run_set_of identifier D)) ∧
  (length (pydict.keys (run_set_of identifier D)) + length calls ≤ Z.to_nat (maxsize st) →
   Forall (fun o => ∃ uid, o.2 = Ok uid) outs).
Proof.
  induction calls as [|c calls IH]; intros st D Hst Hwf; simpl.
  - split; [intros k ? ? Hk; by rewrite lookup_nil in Hk|].
    split; [apply NoDup_nil_2|]. split; [|by constructor].
    intros uid Hin. by apply elem_of_nil in Hin.
  - pose proof (allocate_step identifier (arg_status c) (arg_relpath c)
                  (arg_param_hash c) (arg_now c) st D Hst Hwf) as Hstep.
    simpl in Hstep. destruct Hstep as (Hms & D' & Hst' & Hwf' & Hout).
    set (out := allocate identifier (arg_status c) (arg_relpath c)
                  (arg_param_hash c) (arg_now c) st) in *.
    specialize (IH out.2 D' Hst' Hwf'). simpl in IH. rewrite Hms in IH.
    destruct IH as (IHk & IHnd & IHfresh & IHroom).
    assert (∀ x, x ∈ pydict.keys (run_set_of identifier D) →
                 x ∈ pydict.keys (run_set_of identifier D')) as Hgrow.
    { intros x Hx. destruct out.1; [|by destruct Hout as [_ ->]].
      destruct Hout as [_ ->]. rewrite elem_of_app. by left. }
    split; [|split; [|split]].
    + intros [|k] st_k o Hk; simpl in Hk.
      * injection Hk as <- <-. exists D. split; [done|]. simpl.
        destruct out.1; tauto.
      * by apply IHk in Hk.
    + unfold returned_uids in *. simpl. destruct out.1 as [uid|e]; [|done].
      apply NoDup_cons. split; [|done]. intros Hin%IHfresh.
      apply Hin. destruct Hout as [_ ->]. rewrite elem_of_app. right. left.
    + intros uid Hin. unfold returned_uids in *. simpl in Hin.
      destruct out.1 as [u|e] eqn:Eo.
      * apply elem_of_cons in Hin as [->|Hin].
        -- destruct Hout as [(i & _ & _ & Hnin & _) _]. done.
        -- intros Hx%Hgrow. by apply (IHfresh uid).
      * intros Hx%Hgrow. by apply (IHfresh uid).
    + intros Hroom. destruct out.1 as [u|e] eqn:Eo.
      * constructor; [by exists u|]. apply IHroom.
        destruct Hout as [_ ->]. rewrite length_app. simpl. lia.
      * exfalso. destruct Hout as [[_ Hfull] _].
        destruct (counter_naming_strategy_room
                    (pydict.keys (run_set_of identifier D)) (maxsize st))
          as [uid Huid]; [lia|].
        rewrite (counter_naming_strategy_full _ _ Hfull) in Huid. done.
Qed.

(** C1.  Every [allocate] call of a caller that allocates for one
    identifier returns the zero-padded decimal form of the smallest
    number below [maxsize] whose padded form is not a uid of the run-set
    the call found, and raises the capacity error only when there is no
    such number.  So the uids the calls return are pairwise distinct and
    each was absent from the run-set right before its call; and while
    the run-set has room for all the calls, every call returns a uid. *)
Theorem allocate_least_unused_uid identifier calls st D :
  stored st = Some D → data_wf D →
  let outs := allocations identifier calls st in
  let w := uid_width (maxsize st) in
  (∀ k st_k out, outs !! k = Some (st_k, out) →
     ∃ D_k, stored st_k = Some D_k ∧
       let used := pydict.keys (run_set_of identifier D_k) in
       match out with
       | Ok uid =>
           ∃ i, i < Z.to_nat (maxsize st) ∧ uid = zero_padded w i ∧ (uid ∉ used) ∧
                ∀ j, j < i → zero_padded w j ∈ used
       | Raise e =>
           e = CapacityExceeded ∧
           ∀ j, j < Z.to_nat (maxsize st) → zero_padded w j ∈ used
       end) ∧
  NoDup (returned_uids outs) ∧
  (length (pydict.keys (run_set_of identifier D)) + length calls ≤ Z.to_nat (maxsize st) →
   Forall (fun o => ∃ uid, o.2 = Ok uid) outs).
Proof.
  intros Hst Hwf.
  destruct (allocations_facts identifier calls st D Hst Hwf) as (H1 & H2 & _ & H4).
  auto.
Qed.

Lemma allocate_raises_iff identifier status relpath param_hash now st D :
  stored st = Some D → data_wf D →
  (allocate identifier status relpath param_hash now st).1 = Raise CapacityExceeded ↔
  ∀ j, j < Z.to_nat (maxsize st) →
       zero_padded (uid_width (maxsize st)) j ∈ pydict.keys (run_set_of identifier D).
Proof.
  intros Hst Hwf.
  pose proof (allocate_step identifier status relpath param_hash now st D Hst Hwf) as Hstep.
  simpl in Hstep. destruct Hstep as (_ & D' & _ & _ & Hout). split.
  - intros E. rewrite E in Hout. tauto.
  - intros Hfull.
    destruct (allocate identifier status relpath param_hash now st).1 as [uid|e].
    + destruct Hout as [(i & Hi & -> & Hnin & _) _]. exfalso. by apply Hnin, Hfull.
    + destruct Hout as [[-> _] _]. done.
Qed.

(** Filling a run-set that holds the first [k] numbers. *)
Lemma allocations_fill identifier extra calls : ∀ st D k,
  stored st = Some D → data_wf D →
  pydict.keys (run_set_of identifier D)
    = (zero_padded (uid_width (maxsize st)) <$> seq 0 k) →
  k + length calls = Z.to_nat (maxsize st) →
  (allocations identifier (calls ++ [extra]) st).*2
    = (Ok <$> (zero_padded (uid_width (maxsize st)) <$> seq k (length calls)))
        ++ [Raise CapacityExceeded].
Proof.
  induction calls as [|c calls IH]; intros st D k Hst Hwf Hkeys Hlen; simpl in *.
  - f_equal. apply (allocate_raises_iff _ _ _ _ _ _ _ Hst Hwf).
    intros j Hj. rewrite Hkeys. apply list_elem_of_fmap_2.
    apply elem_of_seq. lia.
  - pose proof (allocate_step identifier (arg_status c) (arg_relpath c)
                  (arg_param_hash c) (arg_now c) st D Hst Hwf) as Hstep.
    simpl in Hstep. destruct Hstep as (Hms & D' & Hst' & Hwf' & Hout).
    set (out := allocate identifier (arg_status c) (arg_relpath c)
                  (arg_param_hash c) (arg_now c) st) in *.
    assert (zero_padded (uid_width (maxsize st)) k
              ∉ pydict.keys (run_set_of identifier D)) as Hk.
    { rewrite Hkeys. intros (j & ->%zero_padded_inj & Hj%elem_of_seq)%list_elem_of_fmap.
      lia. }
    destruct out.1 as [uid|e] eqn:Eo.
    + destruct Hout as [(i & Hi & -> & Hnin & Hlt) Hkeys'].
      assert (i = k) as ->.
      { destruct (decide (i < k)).
        - exfalso. apply Hnin. rewrite Hkeys.
          apply list_elem_of_fmap_2. apply elem_of_seq. lia.
        - destruct (decide (k < i)); [|lia]. exfalso. by apply Hk, Hlt. }
      f_equal. specialize (IH out.2 D' (S k)). rewrite Hms in IH. apply IH; try done.
      * rewrite Hkeys', Hkeys, seq_S, fmap_app. done.
      * lia.
    + exfalso. destruct Hout as [[_ Hfull] _]. apply Hk, Hfull. lia.
Qed.

(** C2.  [allocate] raises the capacity error exactly when every number
    below [maxsize] has its padded form in the run-set.  On a run-set
    without gaps, one that holds the padded forms of the first [k]
    numbers, the next [maxsize - k] calls return the padded forms of
    [k .. maxsize - 1] in this order, and the call after them raises the
    capacity error; from the empty run-set these are [maxsize] calls that
    return [0 .. maxsize - 1]. *)
Theorem allocate_capacity identifier st D :
  stored st = Some D → data_wf D →
  let w := uid_width (maxsize st) in
  (∀ status relpath param_hash now,
     (allocate identifier status relpath param_hash now st).1 = Raise CapacityExceeded ↔
     ∀ j, j < Z.to_nat (maxsize st) →
          zero_padded w j ∈ pydict.keys (run_set_of identifier D)) ∧
  (∀ k calls extra,
     pydict.keys (run_set_of identifier D) = (zero_padded w <$> seq 0 k) →
     k + length calls = Z.to_nat (maxsize st) →
     (allocations identifier (calls ++ [extra]) st).*2
       = (Ok <$> (zero_padded w <$> seq k (length calls)))
           ++ [Raise CapacityExceeded]) ∧
  (∀ calls extra,
     run_set_of identifier D = [] →
     length calls = Z.to_nat (maxsize st) →
     (allocations identifier (calls ++ [extra]) st).*2
       = (Ok <$> (zero_padded w <$> seq 0 (Z.to_nat (maxsize st))))
           ++ [Raise CapacityExceeded]).
Proof.
  intros Hst Hwf w. split; [|split].
  - intros. by apply allocate_raises_iff.
  - intros k calls extra Hkeys Hlen.
    by apply (allocations_fill identifier extra calls st D k).
  - intros calls extra Hempty Hlen. rewrite <- Hlen.
    apply (allocations_fill identifier extra calls st D 0 Hst Hwf); [|lia].
    by rewrite Hempty.
Qed.

(** [log] on a record that is there. *)
Lemma log_step identifier uid status path_dict now st D rs r :
  stored st = Some D → data_wf D →
  pydict.get identifier D = Some rs → pydict.get uid rs = Some r →
  status_given status || path_dict_given path_dict = true →
  let out := log identifier uid status path_dict now st in
  let D' := pydict.set identifier
              (pydict.set uid (log_record status path_dict now r) rs) D in
  out.1 = Ok tt ∧ stored out.2 = Some D' ∧ data_wf D' ∧ maxsize out.2 = maxsize st.
Proof.
  intros Hst Hwf Hrs Hr Hgiven. simpl.
  rewrite (log_run _ _ _ _ _ _ _ Hst Hgiven). simpl.
  pose proof (data_wf_log_on identifier uid status path_dict now D Hwf) as Hwf'.
  unfold log_on in *. rewrite run_set_of_setdefault in *.
  rewrite setdefault_in in * by (apply get_is_Some; by rewrite Hrs).
  unfold run_set_of in *. rewrite Hrs in *. simpl in *. rewrite Hr in *. simpl in *.
  split; [done|]. split; [by apply stored_edited_Ok|]. done.
Qed.

(** [log] on a record that is not there. *)
Lemma log_missing identifier uid status path_dict now st D :
  stored st = Some D →
  identifier ∉ pydict.keys D ∨ uid ∉ pydict.keys (run_set_of identifier D) →
  status_given status || path_dict_given path_dict = true →
  let out := log identifier uid status path_dict now st in
  out.1 = Raise (KeyError (no_run_found identifier uid)) ∧
  out.2 = edited st (Raise (KeyError (no_run_found identifier uid)) : result unit)
            (pydict.setdefault identifier [] D).
Proof.
  intros Hst Hmiss Hgiven. simpl.
  rewrite (log_run _ _ _ _ _ _ _ Hst Hgiven). simpl.
  unfold log_on. rewrite run_set_of_setdefault.
  assert (pydict.get uid (run_set_of identifier D) = None) as ->; [|done].
  apply get_None. destruct Hmiss as [Hid|Huid]; [|done].
  apply get_None in Hid. unfold run_set_of. rewrite Hid. simpl.
  apply not_elem_of_nil.
Qed.

(** C4.  When the identifier is not in the document, or the uid is not
    in the identifier's run-set, [get_record] raises the key error, and
    so does a [log] call that carries a status or files; the file is
    left as it was, so the stored document has no new record. *)
Theorem missing_key_errors identifier uid st D :
  stored st = Some D →
  identifier ∉ pydict.keys D ∨ uid ∉ pydict.keys (run_set_of identifier D) →
  (get_record identifier uid st).1 = Raise (KeyError (no_run_found identifier uid)) ∧
  file (get_record identifier uid st).2 = file st ∧
  ∀ status path_dict now,
    status_given status || path_dict_given path_dict = true →
    let out := log identifier uid status path_dict now st in
    out.1 = Raise (KeyError (no_run_found identifier uid)) ∧
    file out.2 = file st ∧ stored out.2 = Some D.
Proof.
  intros Hst Hmiss. rewrite (get_record_run _ _ _ _ Hst). simpl.
  split; [|split; [done|]].
  - destruct Hmiss as [Hid%get_None|Huid].
    + by rewrite Hid.
    + unfold run_set_of in Huid. destruct (pydict.get identifier D) as [rs|]; [|done].
      simpl in Huid. apply get_None in Huid. by rewrite Huid.
  - intros status path_dict now Hgiven.
    destruct (log_missing identifier uid status path_dict now st D Hst Hmiss Hgiven)
      as [H1 H2].
    simpl. rewrite H1, H2. by rewrite stored_edited_Raise.
Qed.

Lemma hash_matches_true h item :
  hash_matches h item = true ↔ param_hash item.2 = Some h.
Proof.
  unfold hash_matches. destruct item.2 as [? [x|] ? ? ?]; simpl; [|done].
  rewrite Z.eqb_eq. split; congruence.
Qed.

Lemma find_first {A} (f : A → bool) (l : list A) :
  match List.find f l with
  | Some x => ∃ before after, l = before ++ x :: after ∧ f x = true ∧
                              ∀ y, y ∈ before → f y = false
  | None => ∀ y, y ∈ l → f y = false
  end.
Proof.
  induction l as [|a l IH]; simpl.
  - intros y Hy. by apply elem_of_nil in Hy.
  - destruct (f a) eqn:Ea.
    + exists [], l. repeat split; [done|]. intros y Hy. by apply elem_of_nil in Hy.
    + destruct (List.find f l) as [x|].
      * destruct IH as (before & after & -> & Hx & Hb).
        exists (a :: before), after. repeat split; [done|].
        intros y [->|Hy]%elem_of_cons; auto.
      * intros y [->|Hy]%elem_of_cons; auto.
Qed.

(** C5.  With no fingerprint to look for, [find_by_param_hash] returns
    [None] at once.  With a fingerprint and the identifier in the
    document, it returns the first item of the run-set, in the stored
    order, whose record carries that fingerprint, and [None] when no
    record carries it.  With a fingerprint and the identifier not in the
    document it raises the key error. *)
Theorem find_by_param_hash_first identifier h st D :
  stored st = Some D →
  find_by_param_hash identifier None st = (Ok None, st) ∧
  match pydict.get identifier D with
  | Some rs =>
      ∃ hit, (find_by_param_hash identifier (Some h) st).1 = Ok hit ∧
        match hit with
        | Some (uid, r) =>
            ∃ before after, rs = before ++ (uid, r) :: after ∧ param_hash r = Some h ∧
              ∀ item, item ∈ before → param_hash item.2 ≠ Some h
        | None => ∀ item, item ∈ rs → param_hash item.2 ≠ Some h
        end
  | None =>
      (find_by_param_hash identifier (Some h) st).1
        = Raise (KeyError (no_runs_found identifier))
  end.
Proof.
  intros Hst. split; [done|].
  rewrite (find_by_param_hash_run _ _ _ _ Hst).
  destruct (pydict.get identifier D) as [rs|]; simpl; [|done].
  eexists. split; [done|].
  pose proof (find_first (hash_matches h) rs) as Hf.
  destruct (List.find (hash_matches h) rs) as [[uid r]|].
  - destruct Hf as (before & after & -> & Hx%hash_matches_true & Hb).
    exists before, after. repeat split; [done|].
    intros item Hi%Hb Hm%hash_matches_true. congruence.
  - intros item Hi%Hf Hm%hash_matches_true. congruence.
Qed.

(** What [_save] leaves on disk, and what [_load] makes of it: for any
    ledger object on that file, whatever it has in memory, the load
    reads the file and returns a new dictionary with the document that
    was saved. *)
Lemma save_then_load data st D :
  objects st !! data = Some D → data_wf D →
  ∃ st1,
    _save data st = (Ok tt, st1) ∧
    file st1 = Some (dump_json D) ∧
    _data st1 = data ∧
    trace st1 = trace st ++ [WriteBytes (dump_json D)] ∧
    ∀ reader, file reader = file st1 →
      ∃ data' st2,
        _load reader = (Ok data', st2) ∧
        objects reader !! data' = None ∧
        objects st2 !! data' = Some D ∧
        _data st2 = data' ∧
        file st2 = file reader ∧
        trace st2 = trace reader ++ [FileExists; ReadBytes] ∧
        (∀ identifier,
           (get_uid_record_dict identifier reader).1 =
             match pydict.get identifier D with
             | Some rs => Ok rs
             | None => Raise (KeyError (no_runs_found identifier))
             end) ∧
        (∀ identifier uid,
           (get_record identifier uid reader).1 =
             match pydict.get identifier D ≫= pydict.get uid with
             | Some r => Ok r
             | None => Raise (KeyError (no_run_found identifier uid))
             end).
Proof.
  intros Hobj Hwf. destruct st as [f ms objs cache lk tr]; simpl in *.
  unfold _save, bind, deref. simpl. rewrite Hobj. simpl.
  eexists. split; [reflexivity|]. simpl.
  split; [done|]. split; [done|]. split; [done|].
  intros reader Hfile.
  assert (stored reader = Some D) as Hst.
  { unfold stored. rewrite Hfile. by apply validate_dump. }
  exists (length (objects reader)), (loaded reader D).
  split; [by apply _load_run|].
  split; [by apply lookup_ge_None_2|].
  split; [apply lookup_last|].
  unfold loaded, load_events. simpl. rewrite Hfile.
  split; [done|]. split; [done|]. split; [done|]. split.
  - intros identifier. by rewrite (get_uid_record_dict_run _ _ _ Hst).
  - intros identifier uid. rewrite (get_record_run _ _ _ _ Hst). simpl.
    destruct (pydict.get identifier D) as [rs|]; simpl; [|done].
    by destruct (pydict.get uid rs).
Qed.

Lemma files_log_record status path_dict now r :
  files (log_record status path_dict now r) =
    if path_dict_given path_dict
    then pydict.update (files r) (default [] path_dict) else files r.
Proof. unfold log_record. by destruct (path_dict_given path_dict), status. Qed.

Lemma has_file_allocate_on identifier status relpath param_hash now ms D
    identifier' uid' tag :
  has_file D identifier' uid' tag →
  has_file (allocate_on identifier status relpath param_hash now ms D).2
    identifier' uid' tag.
Proof.
  intros (rs & r & Hrs & Hr & Htag). unfold allocate_on. rewrite run_set_of_setdefault.
  destruct (counter_naming_strategy _ _) as [uid|e] eqn:E; simpl.
  - apply counter_naming_strategy_Ok in E as (i & _ & _ & Hnin & _).
    destruct (decide (identifier = identifier')) as [<-|Hne].
    + eexists _, r. rewrite get_set_eq. split; [done|]. split; [|done].
      unfold run_set_of in *. rewrite Hrs in *. simpl in *.
      rewrite get_set_ne; [done|]. intros ->. apply Hnin, get_is_Some. by rewrite Hr.
    + exists rs, r. by rewrite get_set_ne, get_setdefault_ne.
  - exists rs, r. split; [|done].
    destruct (decide (identifier = identifier')) as [<-|Hne].
    + by rewrite get_setdefault, Hrs.
    + by rewrite get_setdefault_ne.
Qed.

Lemma has_file_log_on identifier uid status path_dict now D identifier' uid' tag :
  has_file D identifier' uid' tag →
  has_file (log_on identifier uid status path_dict now D).2 identifier' uid' tag.
Proof.
  intros (rs & r & Hrs & Hr & Htag). unfold log_on. rewrite run_set_of_setdefault.
  destruct (pydict.get uid (run_set_of identifier D)) as [r0|] eqn:E; simpl.
  - destruct (decide (identifier = identifier')) as [<-|Hne].
    + unfold run_set_of in *. rewrite Hrs in *. simpl in *.
      destruct (decide (uid = uid')) as [<-|Hne'].
      * eexists _, _. rewrite !get_set_eq. split; [done|]. split; [done|].
        assert (r0 = r) as -> by congruence.
        rewrite files_log_record. destruct (path_dict_given path_dict); [|done].
        apply elem_keys_update. by left.
      * eexists _, r. rewrite get_set_eq. split; [done|]. by rewrite get_set_ne.
    + exists rs, r. by rewrite get_set_ne, get_setdefault_ne.
  - exists rs, r. split; [|done].
    destruct (decide (identifier = identifier')) as [<-|Hne].
    + by rewrite get_setdefault, Hrs.
    + by rewrite get_setdefault_ne.
Qed.

Lemma stored_loaded st d : stored (loaded st d) = stored st.
Proof. reflexivity. Qed.

(** No call takes a file tag away from a record of the stored document. *)
Lemma perform_keeps_files c st D :
  stored st = Some D → data_wf D →
  ∃ D', stored (perform c st).2 = Some D' ∧ data_wf D' ∧
    ∀ identifier uid tag, has_file D identifier uid tag → has_file D' identifier uid tag.
Proof.
  intros Hst Hwf. destruct c as [identifier a|identifier uid status path_dict now
    |identifier uid|identifier|identifier [h|]]; unfold perform, bind.
  - rewrite (allocate_run _ _ _ _ _ _ _ Hst). simpl.
    pose proof (data_wf_allocate_on identifier (arg_status a) (arg_relpath a)
                  (arg_param_hash a) (arg_now a) (maxsize st) D Hwf) as Hwf'.
    pose proof (has_file_allocate_on identifier (arg_status a) (arg_relpath a)
                  (arg_param_hash a) (arg_now a) (maxsize st) D) as Hkeep.
    destruct (allocate_on _ _ _ _ _ _ _) as [[uid|e] D']; simpl in *.
    + exists D'. split; [by apply stored_edited_Ok|]. split; [done|].
      intros ???. apply Hkeep.
    + exists D. by rewrite stored_edited_Raise.
  - destruct (status_given status || path_dict_given path_dict) eqn:Hgiven.
    + rewrite (log_run _ _ _ _ _ _ _ Hst Hgiven). simpl.
      pose proof (data_wf_log_on identifier uid status path_dict now D Hwf) as Hwf'.
      pose proof (has_file_log_on identifier uid status path_dict now D) as Hkeep.
      destruct (log_on _ _ _ _ _ _) as [[[]|e] D']; simpl in *.
      * exists D'. split; [by apply stored_edited_Ok|]. split; [done|].
        intros ???. apply Hkeep.
      * exists D. by rewrite stored_edited_Raise.
    + unfold log. rewrite Hgiven. simpl. by exists D.
  - rewrite (get_record_run _ _ _ _ Hst).
    exists D. destruct (pydict.get identifier D) as [rs|]; [|done].
    by destruct (pydict.get uid rs).
  - rewrite (get_uid_record_dict_run _ _ _ Hst).
    exists D. by destruct (pydict.get identifier D) as [rs|].
  - rewrite (find_by_param_hash_run _ _ _ _ Hst).
    exists D. by destruct (pydict.get identifier D) as [rs|].
  - simpl. by exists D.
Qed.

(** C7.  Attaching files to a record that is there merges them into its
    [files]: a tag of [path_dict] gets the path [path_dict] gives it and
    every other tag keeps its path.  On a record without files,
    attaching a:x and then b:y gives a:x, b:y, and attaching a:z after
    that gives a:z, b:y.  No call of any method takes a tag away from a
    record of the stored document. *)
Theorem log_merges_files identifier uid st D rs r :
  stored st = Some D → data_wf D →
  pydict.get identifier D = Some rs → pydict.get uid rs = Some r →
  (∀ status path_dict now,
     pydict.wf path_dict →
     let out := log identifier uid status (Some path_dict) now st in
     out.1 = Ok tt ∧
     ∃ D' rs' r',
       stored out.2 = Some D' ∧
       pydict.get identifier D' = Some rs' ∧ pydict.get uid rs' = Some r' ∧
       ∀ tag, pydict.get tag (files r') =
                match pydict.get tag path_dict with
                | Some p => Some p
                | None => pydict.get tag (files r)
                end) ∧
  (files r = [] →
   ∀ now1 now2 now3,
     let st1 := (log identifier uid None (Some [("a", "x")]%string) now1 st).2 in
     let st2 := (log identifier uid None (Some [("b", "y")]%string) now2 st1).2 in
     let st3 := (log identifier uid None (Some [("a", "z")]%string) now3 st2).2 in
     (∃ r2, (get_record identifier uid st2).1 = Ok r2 ∧
            files r2 = [("a", "x"); ("b", "y")]%string) ∧
     (∃ r3, (get_record identifier uid st3).1 = Ok r3 ∧
            files r3 = [("a", "z"); ("b", "y")]%string)) ∧
  (∀ c, ∃ D', stored (perform c st).2 = Some D' ∧
     ∀ identifier' uid' tag,
       has_file D identifier' uid' tag → has_file D' identifier' uid' tag).
Proof.
  intros Hst Hwf Hrs Hr. split; [|split].
  - intros status path_dict now Hpd.
    destruct (status_given status || path_dict_given (Some path_dict)) eqn:Hg.
    + destruct (log_step identifier uid status (Some path_dict) now st D rs r
                  Hst Hwf Hrs Hr Hg) as (Hout & Hst' & _ & _).
      simpl. split; [done|]. eexists _, _, _. split; [done|].
      rewrite !get_set_eq. split; [done|]. split; [done|].
      intros tag. rewrite files_log_record.
      destruct path_dict as [|kv path_dict]; simpl; [done|]. by apply get_update.
    + simpl. unfold log. rewrite Hg. simpl. split; [done|].
      exists D, rs, r. split; [done|]. split; [done|]. split; [done|].
      intros tag. destruct path_dict as [|kv path_dict]; [done|].
      by destruct (status_given status).
  - intros Hfiles now1 now2 now3.
    destruct (log_step identifier uid None (Some [("a", "x")]%string) now1 st D rs r
                Hst Hwf Hrs Hr eq_refl) as (_ & Hst1 & Hwf1 & _).
    set (out1 := log identifier uid None (Some [("a", "x")]%string) now1 st) in *.
    simpl in Hst1, Hwf1.
    set (r1 := log_record None (Some [("a", "x")]%string) now1 r) in *.
    destruct (log_step identifier uid None (Some [("b", "y")]%string) now2 out1.2 _ _ r1
                Hst1 Hwf1 (get_set_eq _ _ _) (get_set_eq _ _ _) eq_refl)
      as (_ & Hst2 & Hwf2 & _).
    set (out2 := log identifier uid None (Some [("b", "y")]%string) now2 out1.2) in *.
    simpl in Hst2, Hwf2.
    set (r2 := log_record None (Some [("b", "y")]%string) now2 r1) in *.
    destruct (log_step identifier uid None (Some [("a", "z")]%string) now3 out2.2 _ _ r2
                Hst2 Hwf2 (get_set_eq _ _ _) (get_set_eq _ _ _) eq_refl)
      as (_ & Hst3 & _ & _).
    simpl in Hst3. simpl.
    rewrite (get_record_run _ _ _ _ Hst2), (get_record_run _ _ _ _ Hst3). simpl.
    rewrite !get_set_eq. split.
    + exists r2. split; [done|]. unfold r2, r1. rewrite !files_log_record, Hfiles.
      reflexivity.
    + eexists. split; [done|]. unfold r2, r1. rewrite !files_log_record, Hfiles.
      reflexivity.
  - intros c. destruct (perform_keeps_files c st D Hst Hwf) as (D' & ? & _ & ?).
    by exists D'.
Qed.

(** C8.  [log] with neither a status nor files returns at once: the
    state is the one before the call, so nothing was read and nothing
    written, whatever the identifier, the uid and the file are. *)
Theorem log_without_arguments_is_noop identifier uid now st :
  log identifier uid None None now st = (Ok tt, st) ∧
  file (log identifier uid None None now st).2 = file st ∧
  trace (log identifier uid None None now st).2 = trace st.
Proof. done. Qed.

Lemma no_write_edited {A} st e d b :
  ∃ evs, trace (edited st (Raise e : result A) d) = trace st ++ evs ∧ WriteBytes b ∉ evs.
Proof.
  eexists. split; [reflexivity|]. rewrite !elem_of_app.
  intros [H|[H|[H|H]]].
  - by apply no_write_lock_events in H; [|left].
  - by apply no_write_load_events in H.
  - by apply elem_of_nil in H.
  - by apply no_write_lock_events in H; [|right].
Qed.

Lemma no_write_rejected st b :
  ∃ evs, trace (rejected st) = trace st ++ evs ∧ WriteBytes b ∉ evs.
Proof.
  eexists. split; [reflexivity|]. rewrite !elem_of_app.
  intros [H|[H|H]].
  - by apply no_write_lock_events in H; [|left].
  - apply elem_of_cons in H as [?|H]; [done|]. by apply list_elem_of_singleton in H.
  - by apply no_write_lock_events in H; [|right].
Qed.

Lemma no_write_loaded st d b :
  ∃ evs, trace (loaded st d) = trace st ++ evs ∧ WriteBytes b ∉ evs.
Proof. eexists. split; [reflexivity|]. apply no_write_load_events. Qed.

(** A call that raised wrote nothing. *)
Lemma perform_raise_no_write c st e b :
  (perform c st).1 = Raise e →
  file (perform c st).2 = file st ∧
  ∃ evs, trace (perform c st).2 = trace st ++ evs ∧ WriteBytes b ∉ evs.
Proof.
  destruct (stored st) as [D|] eqn:Hst.
  - destruct c as [identifier a|identifier uid status path_dict now
      |identifier uid|identifier|identifier [h|]]; unfold perform, bind.
    + rewrite (allocate_run _ _ _ _ _ _ _ Hst). cbn zeta.
      destruct (allocate_on _ _ _ _ _ _ _) as [[uid|e'] D']; cbn [fst snd]; [done|].
      intros _. split; [done|]. apply (no_write_edited st e' D' b).
    + destruct (status_given status || path_dict_given path_dict) eqn:Hgiven.
      * rewrite (log_run _ _ _ _ _ _ _ Hst Hgiven). cbn zeta.
        destruct (log_on _ _ _ _ _ _) as [[[]|e'] D']; cbn [fst snd]; [done|].
        intros _. split; [done|]. apply (no_write_edited st e' D' b).
      * unfold log. rewrite Hgiven. simpl. done.
    + rewrite (get_record_run _ _ _ _ Hst).
      destruct (pydict.get identifier D) as [rs|]; cbn [fst snd].
      * destruct (pydict.get uid rs); cbn [fst snd]; [done|].
        intros _. split; [done|]. apply no_write_loaded.
      * intros _. split; [done|]. apply no_write_loaded.
    + rewrite (get_uid_record_dict_run _ _ _ Hst).
      destruct (pydict.get identifier D) as [rs|]; cbn [fst snd]; [done|].
      intros _. split; [done|]. apply no_write_loaded.
    + rewrite (find_by_param_hash_run _ _ _ _ Hst).
      destruct (pydict.get identifier D) as [rs|]; cbn [fst snd]; [done|].
      intros _. split; [done|]. apply no_write_loaded.
    + done.
  - unfold stored in Hst. destruct (file st) as [f|] eqn:Hf; [|done].
    assert (∃ evs, trace st ++ [FileExists; ReadBytes] = trace st ++ evs
                   ∧ WriteBytes b ∉ evs) as Hev.
    { eexists. split; [reflexivity|]. intros H.
      apply elem_of_cons in H as [?|H]; [done|]. by apply list_elem_of_singleton in H. }
    destruct (_load_invalid_run st f Hf Hst) as (st' & Hl & Hf' & Htr).
    destruct c as [identifier a|identifier uid status path_dict now
      |identifier uid|identifier|identifier [h|]]; unfold perform, bind.
    + unfold allocate, _edit_uid_record_dict.
      rewrite (_edit_data_invalid _ st f Hf Hst). cbn [fst snd]. intros _.
      split; [exact Hf|]. apply no_write_rejected.
    + unfold log. destruct (status_given status || path_dict_given path_dict); simpl.
      * unfold _edit_record, _edit_uid_record_dict.
        rewrite (_edit_data_invalid _ st f Hf Hst). cbn [fst snd]. intros _.
        split; [exact Hf|]. apply no_write_rejected.
      * done.
    + unfold get_record, bind. rewrite Hl. cbn [fst snd]. intros _.
      rewrite Htr, Hf', Hf. done.
    + unfold get_uid_record_dict, bind. rewrite Hl. cbn [fst snd]. intros _.
      rewrite Htr, Hf', Hf. done.
    + unfold find_by_param_hash, get_uid_record_dict, bind. rewrite Hl.
      cbn [fst snd]. intros _. rewrite Htr, Hf', Hf. done.
    + done.
Qed.

(** What a call returns and what it leaves in the file depend on the
    file and on [maxsize], not on the dictionaries in memory. *)
Lemma perform_ignores_memory c st1 st2 :
  file st1 = file st2 → maxsize st1 = maxsize st2 →
  (perform c st1).1 = (perform c st2).1 ∧
  file (perform c st1).2 = file (perform c st2).2.
Proof.
  intros Hf Hm.
  assert (stored st1 = stored st2) as Hs by (unfold stored; by rewrite Hf).
  destruct (stored st2) as [D|] eqn:Hst2.
  - destruct c as [identifier a|identifier uid status path_dict now
      |identifier uid|identifier|identifier [h|]]; unfold perform, bind.
    + rewrite (allocate_run _ _ _ _ _ _ _ Hs), (allocate_run _ _ _ _ _ _ _ Hst2).
      cbn zeta. rewrite Hm.
      destruct (allocate_on _ _ _ _ _ _ _) as [[uid|e] D']; cbn [fst snd]; by rewrite ?Hf.
    + destruct (status_given status || path_dict_given path_dict) eqn:Hgiven.
      * rewrite (log_run _ _ _ _ _ _ _ Hs Hgiven), (log_run _ _ _ _ _ _ _ Hst2 Hgiven).
        cbn zeta.
        destruct (log_on _ _ _ _ _ _) as [[[]|e] D']; cbn [fst snd]; by rewrite ?Hf.
      * unfold log. rewrite Hgiven. simpl. done.
    + rewrite (get_record_run _ _ _ _ Hs), (get_record_run _ _ _ _ Hst2).
      destruct (pydict.get identifier D) as [rs|]; cbn [fst snd]; [|done].
      by destruct (pydict.get uid rs).
    + rewrite (get_uid_record_dict_run _ _ _ Hs), (get_uid_record_dict_run _ _ _ Hst2).
      by destruct (pydict.get identifier D) as [rs|].
    + rewrite (find_by_param_hash_run _ _ _ _ Hs), (find_by_param_hash_run _ _ _ _ Hst2).
      by destruct (pydict.get identifier D) as [rs|].
    + done.
  - unfold stored in Hs, Hst2. destruct (file st2) as [f|] eqn:Hf2; [|done].
    rewrite Hf in Hs.
    destruct (_load_invalid_run st1 f Hf Hs) as (st1' & Hl1 & Hf1' & _).
    destruct (_load_invalid_run st2 f Hf2 Hst2) as (st2' & Hl2 & Hf2' & _).
    destruct c as [identifier a|identifier uid status path_dict now
      |identifier uid|identifier|identifier [h|]]; unfold perform, bind.
    + unfold allocate, _edit_uid_record_dict.
      rewrite (_edit_data_invalid _ st1 f Hf Hs), (_edit_data_invalid _ st2 f Hf2 Hst2).
      cbn [fst snd]. split; [done|]. simpl. congruence.
    + unfold log. destruct (status_given status || path_dict_given path_dict); simpl.
      * unfold _edit_record, _edit_uid_record_dict.
        rewrite (_edit_data_invalid _ st1 f Hf Hs), (_edit_data_invalid _ st2 f Hf2 Hst2).
        cbn [fst snd]. split; [done|]. simpl. congruence.
      * split; [done|congruence].
    + unfold get_record, bind. rewrite Hl1, Hl2. cbn [fst snd]. split; [done|congruence].
    + unfold get_uid_record_dict, bind. rewrite Hl1, Hl2. cbn [fst snd].
      split; [done|congruence].
    + unfold find_by_param_hash, get_uid_record_dict, bind. rewrite Hl1, Hl2.
      cbn [fst snd]. split; [done|congruence].
    + split; [done|]. simpl. congruence.
Qed.

(** C9.  A call that raises leaves the file as it was and writes
    nothing.  A [log] call for an identifier that is not in the document
    raises the key error after [setdefault] has put an empty run-set for
    the identifier into the dictionary it loaded; that dictionary is
    [self._data] when the file existed.  It is not written, and no later
    call sees it: the next call returns and leaves in the file what it
    would have without the failed one. *)
Theorem failed_edit_not_persisted st :
  (∀ c e b,
     (perform c st).1 = Raise e →
     file (perform c st).2 = file st ∧
     ∃ evs, trace (perform c st).2 = trace st ++ evs ∧ WriteBytes b ∉ evs) ∧
  (∀ identifier uid status path_dict now D,
     stored st = Some D → identifier ∉ pydict.keys D →
     status_given status || path_dict_given path_dict = true →
     let out := log identifier uid status path_dict now st in
     out.1 = Raise (KeyError (no_run_found identifier uid)) ∧
     file out.2 = file st ∧
     stored out.2 = Some D ∧
     objects out.2 !! length (objects st) = Some (D ++ [(identifier, [])]) ∧
     (is_Some (file st) → _data out.2 = length (objects st)) ∧
     ∀ c, (perform c out.2).1 = (perform c st).1 ∧
          file (perform c out.2).2 = file (perform c st).2).
Proof.
  split; [intros c e b He; by apply (perform_raise_no_write c st e b)|].
  intros identifier uid status path_dict now D Hst Hid Hgiven.
  destruct (log_missing identifier uid status path_dict now st D Hst (or_introl Hid) Hgiven)
    as [H1 H2].
  simpl. rewrite H1, H2. split; [done|]. split; [done|]. split; [done|].
  simpl. rewrite lookup_last, setdefault_notin by done. split; [done|].
  split; [intros [f Hf]; by rewrite Hf|].
  intros c. by apply perform_ignores_memory.
Qed.

(** C10.  With a fingerprint to look for and an identifier that is not
    in the document, [find_by_param_hash] raises the key error of
    [get_uid_record_dict] instead of returning [None]; with no
    fingerprint it returns [None] and leaves the state as it was, so
    nothing was read. *)
Theorem find_by_param_hash_absent identifier h st D :
  stored st = Some D → identifier ∉ pydict.keys D →
  (find_by_param_hash identifier (Some h) st).1
    = Raise (KeyError (no_runs_found identifier)) ∧
  (get_uid_record_dict identifier st).1 = Raise (KeyError (no_runs_found identifier)) ∧
  find_by_param_hash identifier None st = (Ok None, st).
Proof.
  intros Hst Hid%get_None.
  rewrite (find_by_param_hash_run _ _ _ _ Hst), (get_uid_record_dict_run _ _ _ Hst), Hid.
  done.
Qed.
End properties.

(** ** Two processes and the lock *)

Section process_facts.
Context `{DATA_STRUCTURE_MODEL : TypeAdapter}.
Import pydict_facts.

Hypothesis validate_dump :
  ∀ d : DATA_STRUCTURE, data_wf d → validate_json (dump_json d) = Some d.

Lemma proc_moved_same p f h pr s : proc p (moved p f h pr s) = pr.
Proof. by destruct p. Qed.

Lemma proc_moved_other p f h pr s : proc (negb p) (moved p f h pr s) = proc (negb p) s.
Proof. by destruct p. Qed.

Lemma proc_moved p q f h pr s :
  proc q (moved p f h pr s) = if Bool.eqb q p then pr else proc q s.
Proof. by destruct p, q. Qed.

Lemma stored_see f m : stored (see f m) = match f with None => Some [] | Some b => validate_json b end.
Proof. reflexivity. Qed.

(** The body of [allocate] on the dictionary it was handed. *)
Lemma allocate_body_run identifier status relpath param_hash now data m D :
  objects m !! data = Some D →
  let r := allocate_on identifier status relpath param_hash now (maxsize m) D in
  ∃ m', with_uid_record_dict identifier
          (allocate_body status relpath param_hash now) data m = (r.1, m') ∧
        objects m' !! data = Some r.2 ∧
        LEDGER_LOCK m' = LEDGER_LOCK m ∧ maxsize m' = maxsize m.
Proof.
  intros Hobj. destruct m as [f ms objs cache lk tr]. simpl in *.
  unfold with_uid_record_dict, allocate_body, allocate_on, bind, mutate, deref,
    uid_records_keys, uid_records_setitem, get_maxsize, lift, ret; simpl.
  rewrite list_lookup_alter_eq, Hobj. simpl.
  destruct (counter_naming_strategy _ _) as [uid|e]; simpl.
  - eexists. split; [reflexivity|]. simpl.
    rewrite !list_lookup_alter_eq, Hobj. done.
  - eexists. split; [reflexivity|]. simpl.
    rewrite !list_lookup_alter_eq, Hobj. done.
Qed.

Lemma _save_run data m D :
  objects m !! data = Some D →
  ∃ m', _save data m = (Ok tt, m') ∧ file m' = Some (dump_json D) ∧
        LEDGER_LOCK m' = LEDGER_LOCK m.
Proof.
  intros Hobj. destruct m as [f ms objs cache lk tr]. simpl in *.
  unfold _save, bind, deref. simpl. rewrite Hobj. simpl.
  eexists. split; [reflexivity|]. done.
Qed.

Lemma uids_app l1 l2 : uids (l1 ++ l2) = uids l1 ++ uids l2.
Proof. unfold uids. apply omap_app. Qed.

Lemma given_at_stage pr m g :
  given (at_stage pr m g) = uids (outcomes pr) ++ match g with Leaving (Ok uid) => [uid] | _ => [] end.
Proof.
  unfold given, at_stage. simpl. rewrite uids_app. f_equal.
  by destruct g as [| | | | |[]].
Qed.

Lemma given_not_leaving pr :
  (∀ out, stage_of pr ≠ Leaving out) → given pr = uids (outcomes pr).
Proof.
  intros H. unfold given. destruct (stage_of pr); try by rewrite app_nil_r.
  by destruct (H out).
Qed.

Lemma given_moved p f h pr s extra :
  given pr = given (proc p s) ++ extra →
  given (proc false (moved p f h pr s)) ++ given (proc true (moved p f h pr s))
    ≡ₚ (given (proc false s) ++ given (proc true s)) ++ extra.
Proof. intros H. destruct p; simpl; rewrite H; solve_Permutation. Qed.

Lemma perm_same (ks k0 g g' : list string) :
  ks ≡ₚ k0 ++ g → g' ≡ₚ g ++ [] → ks ≡ₚ k0 ++ g'.
Proof. intros -> ->. by rewrite app_nil_r. Qed.

Lemma perm_extend (ks k0 g g' extra : list string) :
  ks ≡ₚ k0 ++ g → g' ≡ₚ g ++ extra → ks ++ extra ≡ₚ k0 ++ g'.
Proof. intros -> ->. by rewrite app_assoc. Qed.

Lemma not_inside_other s p q :
  (∀ p, holder s = Some p ↔ inside (proc p s) = true) →
  inside (proc p s) = true → q ≠ p → stage_of (proc q s) = Idle.
Proof.
  intros Hhold Hp%Hhold Hne.
  destruct (inside (proc q s)) eqn:Hq.
  - apply Hhold in Hq. congruence.
  - unfold inside in Hq. by destruct (stage_of (proc q s)).
Qed.

(** A move inside the cycle that changes neither the file nor the lock
    nor what the process has been given. *)
Lemma invariant_at_stage identifier D0 p s m' g :
  invariant identifier D0 s → inside (proc p s) = true →
  (∀ out, stage_of (proc p s) ≠ Leaving out) →
  g ≠ Idle → (∀ uid, g ≠ Leaving (Ok uid)) → LEDGER_LOCK m' = true →
  (∀ D, system_stored s = Some D → data_wf D →
        stage_ok identifier D (at_stage (proc p s) m' g)) →
  invariant identifier D0
    (moved p (shared_file s) (holder s) (at_stage (proc p s) m' g) s).
Proof.
  intros (Hlock & Hhold & D & Hst & Hwf & Hstage & Hperm) Hin Hsg Hg Hg' Hlk' Hok.
  split; [|split].
  - intros q. rewrite proc_moved. by destruct (Bool.eqb_spec q p) as [->|].
  - intros q. simpl holder. rewrite proc_moved.
    destruct (Bool.eqb_spec q p) as [->|Hne]; [|apply Hhold].
    rewrite Hhold, Hin. unfold inside. simpl. by destruct g.
  - exists D. split; [done|]. split; [done|]. split.
    + intros q. rewrite proc_moved. destruct (Bool.eqb q p); [by apply Hok|apply Hstage].
    + apply (perm_same _ _ _ _ Hperm), given_moved.
      rewrite app_nil_r, given_at_stage, given_not_leaving; [|done].
      destruct g as [| | | | |[uid|e]]; rewrite ?app_nil_r; try done.
      by destruct (Hg' uid).
Qed.

(** Every move keeps the invariant. *)
Lemma move_invariant identifier D0 p s s' :
  invariant identifier D0 s → move identifier p s = Some s' →
  invariant identifier D0 s'.
Proof.
  intros Hinv Hmove. pose proof Hinv as (Hlock & Hhold & D & Hst & Hwf & Hstage & Hperm).
  unfold move in Hmove. pose proof (Hlock p) as Hlp. pose proof (Hstage p) as Hsp.
  unfold stage_ok in Hsp.
  assert (∀ q, q ≠ p → inside (proc p s) = true → stage_of (proc q s) = Idle) as Hother.
  { intros q Hne Hin. by apply (not_inside_other s p q). }
  destruct (stage_of (proc p s)) as [|a|a|a data|data uid|out] eqn:Hsg.
  - (* entering [with lock:] *)
    destruct (todo (proc p s)) as [|a rest] eqn:Htodo; [done|].
    rewrite Hlp in Hmove. destruct (holder s) as [h|] eqn:Hh; [done|].
    injection Hmove as <-. split; [|split].
    + intros q. rewrite proc_moved. by destruct (Bool.eqb q p).
    + intros q. simpl holder. rewrite proc_moved.
      destruct (Bool.eqb_spec q p) as [->|Hne]; [done|].
      split; [congruence|]. intros Hin%Hhold. congruence.
    + exists D. split; [done|]. split; [done|]. split.
      * intros q. rewrite proc_moved. destruct (Bool.eqb q p); [done|apply Hstage].
      * apply (perm_same _ _ _ _ Hperm), given_moved.
        rewrite app_nil_r, !given_not_leaving; [done| |]; simpl; congruence.
  - (* the test that the file exists *)
    assert (inside (proc p s) = true) as Hin by (unfold inside; by rewrite Hsg).
    assert (∀ out, stage_of (proc p s) ≠ Leaving out) as Hnl by congruence.
    unfold file_exists, bind in Hmove. simpl in Hmove.
    destruct (shared_file s) as [b|] eqn:Hfile; injection Hmove as <-;
      rewrite <- Hfile; apply invariant_at_stage; try done.
    intros D' HD' _. unfold stage_ok. simpl.
    unfold system_stored in HD'. rewrite Hfile in HD'. injection HD' as <-.
    apply lookup_last.
  - (* the read *)
    assert (inside (proc p s) = true) as Hin by (unfold inside; by rewrite Hsg).
    assert (∀ out, stage_of (proc p s) ≠ Leaving out) as Hnl by congruence.
    unfold _load_existing, read_bytes, bind in Hmove. simpl in Hmove.
    destruct (shared_file s) as [b|] eqn:Hfile.
    + unfold system_stored in Hst. rewrite Hfile in Hst. rewrite Hst in Hmove.
      simpl in Hmove. injection Hmove as <-.
      rewrite <- Hfile; apply invariant_at_stage; try done.
      intros D' HD' _. unfold stage_ok. simpl.
      unfold system_stored in HD'. rewrite Hfile in HD'.
      assert (D' = D) as -> by congruence. apply lookup_last.
    + injection Hmove as <-. rewrite <- Hfile; by apply invariant_at_stage.
  - (* the body of [allocate] *)
    assert (inside (proc p s) = true) as Hin by (unfold inside; by rewrite Hsg).
    assert (∀ out, stage_of (proc p s) ≠ Leaving out) as Hnl by congruence.
    destruct (allocate_body_run identifier (arg_status a) (arg_relpath a)
                (arg_param_hash a) (arg_now a) data (memory (proc p s)) D Hsp)
      as (m' & Hrun & Hobj' & Hlk' & _).
    rewrite Hrun in Hmove.
    pose proof (data_wf_allocate_on identifier (arg_status a) (arg_relpath a)
                  (arg_param_hash a) (arg_now a) (maxsize (memory (proc p s))) D Hwf)
      as Hwf1.
    unfold allocate_on in Hmove, Hobj', Hwf1. rewrite run_set_of_setdefault in *.
    assert (LEDGER_LOCK m' = true) as Hlm by congruence.
    destruct (counter_naming_strategy _ _) as [uid|e] eqn:E; cbn [fst snd] in *;
      injection Hmove as <-; apply invariant_at_stage; try done.
    intros D' HD' _. assert (D' = D) as -> by congruence.
    unfold stage_ok. simpl. eexists. split; [done|]. split; [done|].
    rewrite run_set_of_set. apply keys_set_notin.
    by apply counter_naming_strategy_Ok in E as (i & _ & _ & Hnin & _).
  - (* the write *)
    assert (inside (proc p s) = true) as Hin by (unfold inside; by rewrite Hsg).
    destruct Hsp as (D1 & Hobj & Hwf1 & Hkeys).
    destruct (_save_run data (see (shared_file s) (memory (proc p s))) D1 Hobj)
      as (m' & Hrun & Hfile & Hlk').
    rewrite Hrun in Hmove. injection Hmove as <-. split; [|split].
    + intros q. rewrite proc_moved. destruct (Bool.eqb_spec q p) as [->|]; [|done].
      simpl. rewrite Hlk'. apply Hlp.
    + intros q. simpl holder. rewrite proc_moved.
      destruct (Bool.eqb_spec q p) as [->|Hne]; [|apply Hhold].
      rewrite Hhold, Hin. done.
    + exists D1. split; [|split; [done|split]].
      * unfold system_stored. simpl. rewrite Hfile. by apply validate_dump.
      * intros q. rewrite proc_moved. destruct (Bool.eqb_spec q p) as [->|Hne]; [done|].
        unfold stage_ok. by rewrite (Hother q Hne Hin).
      * rewrite Hkeys. apply (perm_extend _ _ _ _ _ Hperm), given_moved.
        rewrite given_at_stage, given_not_leaving; [done|]. congruence.
  - (* leaving [with lock:] *)
    assert (inside (proc p s) = true) as Hin by (unfold inside; by rewrite Hsg).
    rewrite Hlp in Hmove. injection Hmove as <-. split; [|split].
    + intros q. rewrite proc_moved. destruct (Bool.eqb_spec q p) as [->|]; [|done].
      simpl. apply Hlp.
    + intros q. simpl holder. rewrite proc_moved.
      destruct (Bool.eqb_spec q p) as [->|Hne]; [done|].
      split; [done|]. intros Hq. unfold inside in Hq. by rewrite (Hother q Hne Hin) in Hq.
    + exists D. split; [done|]. split; [done|]. split.
      * intros q. rewrite proc_moved. destruct (Bool.eqb q p); [done|apply Hstage].
      * apply (perm_same _ _ _ _ Hperm), given_moved.
        unfold given. simpl. by rewrite Hsg, !app_nil_r.
Qed.

Lemma run_invariant identifier D0 schedule : ∀ s,
  invariant identifier D0 s → invariant identifier D0 (run identifier schedule s).
Proof.
  induction schedule as [|p schedule IH]; intros s Hinv; simpl; [done|].
  apply IH. destruct (move identifier p s) as [s'|] eqn:Hmove; simpl; [|done].
  by apply (move_invariant identifier D0 p s s').
Qed.

Lemma start_invariant identifier f m_false m_true calls_false calls_true D :
  LEDGER_LOCK m_false = true → LEDGER_LOCK m_true = true →
  system_stored (start f m_false m_true calls_false calls_true) = Some D →
  data_wf D →
  invariant identifier D (start f m_false m_true calls_false calls_true).
Proof.
  intros Hf Ht Hst Hwf. split; [by intros []|]. split; [by intros []|].
  exists D. split; [done|]. split; [done|]. split; [by intros []|].
  by rewrite app_nil_r.
Qed.

Lemma move_calls_count identifier p s s' q :
  move identifier p s = Some s' → calls_count (proc q s') = calls_count (proc q s).
Proof.
  unfold move. intros Hmove.
  assert (∀ f h pr, calls_count pr = calls_count (proc p s) →
            calls_count (proc q (moved p f h pr s)) = calls_count (proc q s)) as Hq.
  { intros f h pr Hpr. rewrite proc_moved. by destruct (Bool.eqb_spec q p) as [->|]. }
  unfold calls_count, inside in *.
  destruct (stage_of (proc p s)) as [|a|a|a data|data uid|out] eqn:Hsg.
  - destruct (todo (proc p s)) as [|a rest]; [done|].
    destruct (LEDGER_LOCK _); [destruct (holder s); [done|]|];
      injection Hmove as <-; apply Hq; simpl; lia.
  - destruct (file_exists _) as [[[]|e] m'].
    + injection Hmove as <-; by apply Hq.
    + destruct (new_dict _ _) as [[data|e] m'']; injection Hmove as <-; by apply Hq.
    + injection Hmove as <-; by apply Hq.
  - destruct (_load_existing _) as [[data|e] m']; injection Hmove as <-; by apply Hq.
  - destruct (with_uid_record_dict _ _ _ _) as [[uid|e] m']; injection Hmove as <-;
      by apply Hq.
  - destruct (_save _ _) as [[[]|e] m']; injection Hmove as <-; by apply Hq.
  - injection Hmove as <-. apply Hq. simpl. rewrite length_app. simpl. lia.
Qed.

Lemma run_calls_count identifier schedule q : ∀ s,
  calls_count (proc q (run identifier schedule s)) = calls_count (proc q s).
Proof.
  induction schedule as [|p schedule IH]; intros s; simpl; [done|].
  rewrite IH. destruct (move identifier p s) as [s'|] eqn:Hmove; simpl; [|done].
  by apply (move_calls_count identifier p).
Qed.

Lemma run_app identifier l1 l2 s :
  run identifier (l1 ++ l2) s = run identifier l2 (run identifier l1 s).
Proof. revert s. induction l1 as [|p l1 IH]; intros s; simpl; [done|]. apply IH. Qed.

(** A process inside the cycle can always move, and a process that
    wants to enter can when nobody is inside: no deadlock. *)
Lemma can_move identifier D0 s :
  invariant identifier D0 s →
  finished s ∨
  ∃ p s', move identifier p s = Some s' ∧
          remaining (proc false s') + remaining (proc true s')
            < remaining (proc false s) + remaining (proc true s).
Proof.
  intros (Hlock & Hhold & _).
  assert (∀ p f h pr, remaining pr < remaining (proc p s) →
            remaining (proc false (moved p f h pr s)) + remaining (proc true (moved p f h pr s))
              < remaining (proc false s) + remaining (proc true s)) as Hless.
  { intros [] f h pr Hpr; simpl in *; lia. }
  assert (∀ p, inside (proc p s) = true →
            ∃ s', move identifier p s = Some s' ∧
                  remaining (proc false s') + remaining (proc true s')
                    < remaining (proc false s) + remaining (proc true s)) as Hin.
  { intros p Hp. unfold move, inside in *. pose proof (Hlock p) as Hlp.
    destruct (stage_of (proc p s)) as [|a|a|a data|data uid|out] eqn:Hsg; [done|..].
    - destruct (file_exists _) as [[[]|e] m']; [| |];
        try destruct (new_dict _ _) as [[data|e] m'']; eexists; (split; [done|]);
        apply Hless; unfold remaining; simpl; rewrite Hsg; lia.
    - destruct (_load_existing _) as [[data|e] m']; eexists; (split; [done|]);
        apply Hless; unfold remaining; simpl; rewrite Hsg; lia.
    - destruct (with_uid_record_dict _ _ _ _) as [[uid|e] m']; eexists; (split; [done|]);
        apply Hless; unfold remaining; simpl; rewrite Hsg; lia.
    - destruct (_save _ _) as [[[]|e] m']; eexists; (split; [done|]);
        apply Hless; unfold remaining; simpl; rewrite Hsg; lia.
    - eexists. split; [done|]. apply Hless. unfold remaining. simpl. rewrite Hsg. lia. }
  destruct (inside (proc false s)) eqn:E1; [right; exists false; by apply Hin|].
  destruct (inside (proc true s)) eqn:E2; [right; exists true; by apply Hin|].
  assert (holder s = None) as Hh.
  { destruct (holder s) as [q|] eqn:Hh; [|done].
    pose proof (proj1 (Hhold q) eq_refl). destruct q; congruence. }
  assert (∀ p, stage_of (proc p s) = Idle) as Hidle.
  { intros []; [revert E2|revert E1]; unfold inside; clear; by destruct (stage_of _). }
  assert (∀ p a rest, todo (proc p s) = a :: rest →
            ∃ s', move identifier p s = Some s' ∧
                  remaining (proc false s') + remaining (proc true s')
                    < remaining (proc false s) + remaining (proc true s)) as Hgo.
  { intros p a rest Htodo. unfold move. rewrite Hidle, Htodo, Hlock, Hh.
    eexists. split; [done|]. apply Hless. unfold remaining. simpl.
    rewrite Hidle, Htodo. simpl. lia. }
  destruct (todo (proc false s)) as [|a rest] eqn:T1; [|right; exists false; by eapply Hgo].
  destruct (todo (proc true s)) as [|a rest] eqn:T2; [|right; exists true; by eapply Hgo].
  left. intros []; by rewrite Hidle.
Qed.

Lemma schedule_completes identifier D0 n : ∀ s,
  invariant identifier D0 s →
  remaining (proc false s) + remaining (proc true s) ≤ n →
  ∃ schedule, finished (run identifier schedule s).
Proof.
  induction n as [|n IH]; intros s Hinv Hn.
  - destruct (can_move identifier D0 s Hinv) as [Hfin|(p & s' & _ & Hlt)]; [|lia].
    by exists [].
  - destruct (can_move identifier D0 s Hinv) as [Hfin|(p & s' & Hmove & Hlt)].
    + by exists [].
    + destruct (IH s') as [schedule Hfin].
      * by apply (move_invariant identifier D0 p s s').
      * lia.
      * exists (p :: schedule). simpl. by rewrite Hmove.
Qed.

Lemma run_cons identifier p schedule s s' :
  move identifier p s = Some s' →
  run identifier (p :: schedule) s = run identifier schedule s'.
Proof. intros H. simpl. by rewrite H. Qed.

Lemma moved_moved p f h pr f' h' pr' s :
  moved p f h pr (moved p f' h' pr' s) = moved p f h pr s.
Proof. by destruct p. Qed.

(** The body of [allocate] right after the load. *)
Lemma allocate_body_loaded identifier status relpath param_hash now st D :
  let r := allocate_on identifier status relpath param_hash now (maxsize st) D in
  with_uid_record_dict identifier (allocate_body status relpath param_hash now)
    (length (objects st)) (loaded st D)
  = (r.1, loaded st r.2).
Proof.
  destruct st as [f ms objs cache lk tr].
  unfold with_uid_record_dict, allocate_body, allocate_on, bind, loaded; crush_run.
  destruct (counter_naming_strategy _ _) as [uid|e]; by crush_run.
Qed.

(** The save and the way out after the body has returned. *)
Lemma save_and_leave st0 D' (uid : string) :
  let st := see (file st0)
              (if LEDGER_LOCK st0 then (emit Acquire st0).2 else st0) in
  ∃ m', _save (length (objects st)) (see (file st0) (loaded st D')) = (Ok tt, m') ∧
        file m' = Some (dump_json D') ∧ LEDGER_LOCK m' = LEDGER_LOCK st0 ∧
        (if LEDGER_LOCK m' then (emit Release m').2 else m')
          = edited st0 (Ok uid) D'.
Proof.
  destruct st0 as [f ms objs cache [] tr]; destruct f;
    unfold _save, bind, deref, edited, loaded, load_events, lock_events, see;
    crush_run;
    (eexists; split; [reflexivity|]; split; [reflexivity|]; split; [reflexivity|]);
    by crush_run.
Qed.

Lemma leave_after_raise st0 D' (e : exn) :
  let st := see (file st0)
              (if LEDGER_LOCK st0 then (emit Acquire st0).2 else st0) in
  (if LEDGER_LOCK (loaded st D') then (emit Release (loaded st D')).2 else loaded st D')
    = edited st0 (Raise e : result string) D'.
Proof.
  destruct st0 as [f ms objs cache [] tr]; destruct f;
    unfold edited, loaded, load_events, lock_events, see; by crush_run.
Qed.

Lemma file_exists_run st :
  file_exists st
  = (Ok (match file st with Some _ => true | None => false end), (emit FileExists st).2).
Proof. reflexivity. Qed.

Lemma new_dict_after_test st :
  file st = None →
  new_dict [] (emit FileExists st).2 = (Ok (length (objects st)), loaded st []).
Proof.
  intros Hf. destruct st as [f ms objs cache lk tr]. simpl in Hf. subst f.
  reflexivity.
Qed.

Lemma _load_existing_after_test st b D :
  file st = Some b → validate_json b = Some D →
  _load_existing (emit FileExists st).2 = (Ok (length (objects st)), loaded st D).
Proof.
  intros Hf Hv. destruct st as [f ms objs cache lk tr]. simpl in Hf. subst f.
  unfold _load_existing, read_bytes, loaded, load_events, bind. simpl. rewrite Hv.
  by crush_run.
Qed.

(** From inside the lock to the loaded dictionary: one move without a
    file, two with one. *)
Lemma load_moves identifier p s1 a st D schedule :
  stage_of (proc p s1) = Entered a →
  see (shared_file s1) (memory (proc p s1)) = st → stored st = Some D →
  run identifier (replicate (match file st with Some _ => 2 | None => 1 end) p ++ schedule) s1
  = run identifier schedule
      (moved p (shared_file s1) (holder s1)
         (at_stage (proc p s1) (loaded st D) (Loaded a (length (objects st)))) s1).
Proof.
  intros Hg Hsee Hst.
  assert (file st = shared_file s1) as Hfile by (by rewrite <- Hsee).
  destruct (stored_cases st D Hst) as [[Hf ->]|(b & Hf & Hv)]; rewrite Hf; cbn [replicate app].
  - apply run_cons. unfold move. cbv zeta. rewrite Hg. cbv iota.
    rewrite Hsee, file_exists_run, Hf. cbv iota. by rewrite (new_dict_after_test st Hf).
  - pose (s' := moved p (shared_file s1) (holder s1)
                  (at_stage (proc p s1) (emit FileExists st).2 (Exists a)) s1).
    assert (move identifier p s1 = Some s') as H1.
    { unfold move. cbv zeta. rewrite Hg. cbv iota. by rewrite Hsee, file_exists_run, Hf. }
    rewrite (run_cons _ _ _ _ _ H1). apply run_cons.
    assert (proc p s' = at_stage (proc p s1) (emit FileExists st).2 (Exists a)) as Hp
      by apply proc_moved_same.
    unfold move. cbv zeta. rewrite Hp. cbn [stage_of at_stage memory].
    assert (see (shared_file s') (emit FileExists st).2 = (emit FileExists st).2) as ->.
    { change (shared_file s') with (shared_file s1). rewrite <- Hfile.
      by destruct st. }
    rewrite (_load_existing_after_test st b D Hf Hv).
    change (shared_file s') with (shared_file s1). change (holder s') with (holder s1).
    unfold s'. by rewrite moved_moved.
Qed.

(** The moves of one process, made without the other moving in
    between, amount to the method [allocate]. *)
Lemma solo_allocate identifier p s a rest D :
  stage_of (proc p s) = Idle → todo (proc p s) = a :: rest → holder s = None →
  system_stored s = Some D →
  let out := allocate identifier (arg_status a) (arg_relpath a) (arg_param_hash a)
               (arg_now a) (see (shared_file s) (memory (proc p s))) in
  let moves := 1 + (match shared_file s with Some _ => 2 | None => 1 end)
                 + (match out.1 with Ok _ => 3 | Raise _ => 2 end) in
  run identifier (replicate moves p) s
    = moved p (file out.2) None
        {| memory := out.2; stage_of := Idle; todo := rest;
           outcomes := outcomes (proc p s) ++ [out.1] |} s.
Proof.
  intros Hsg Htodo Hh Hst.
  set (st0 := see (shared_file s) (memory (proc p s))).
  assert (stored st0 = Some D) as Hst0 by done.
  rewrite (allocate_run _ _ _ _ _ _ D Hst0). cbn zeta. cbn [fst snd].
  set (r := allocate_on identifier (arg_status a) (arg_relpath a) (arg_param_hash a)
              (arg_now a) (maxsize st0) D).
  set (st := see (file st0) (if LEDGER_LOCK st0 then (emit Acquire st0).2 else st0)).
  (* entering *)
  pose (s1 := moved p (shared_file s) (if LEDGER_LOCK st0 then Some p else None)
                {| memory := if LEDGER_LOCK st0 then (emit Acquire (memory (proc p s))).2
                             else memory (proc p s);
                   stage_of := Entered a; todo := rest;
                   outcomes := outcomes (proc p s) |} s).
  assert (move identifier p s = Some s1) as H1.
  { unfold move, s1. rewrite Hsg, Htodo, Hh. simpl. by destruct (LEDGER_LOCK _). }
  assert (∀ f h pr, moved p f h pr s1 = moved p f h pr s) as Hs1
    by (intros; apply moved_moved).
  assert (shared_file s1 = shared_file s) as Hf1 by done.
  assert (proc p s1 = {| memory := if LEDGER_LOCK st0
                                   then (emit Acquire (memory (proc p s))).2
                                   else memory (proc p s);
                         stage_of := Entered a; todo := rest;
                         outcomes := outcomes (proc p s) |}) as Hp1
    by apply proc_moved_same.
  (* the load *)
  assert (see (shared_file s1) (memory (proc p s1)) = st) as Hsee1.
  { rewrite Hf1, Hp1. unfold st, st0. simpl. by destruct (LEDGER_LOCK _). }
  assert (stored st = Some D) as Hst1 by (unfold st; by destruct (LEDGER_LOCK st0)).
  assert (file st = shared_file s) as Hfst by done.
  pose (s2 := moved p (shared_file s) (holder s1)
                (at_stage (proc p s1) (loaded st D) (Loaded a (length (objects st)))) s).
  assert (stage_of (proc p s1) = Entered a) as Hg1 by (by rewrite Hp1).
  pose proof (λ schedule, load_moves identifier p s1 a st D schedule Hg1 Hsee1 Hst1) as H2.
  rewrite Hfst, Hf1, Hs1 in H2. fold s2 in H2.
  assert (∀ f h pr, moved p f h pr s2 = moved p f h pr s) as Hs2
    by (intros; apply moved_moved).
  assert (proc p s2 = at_stage (proc p s1) (loaded st D) (Loaded a (length (objects st))))
    as Hp2 by apply proc_moved_same.
  assert (maxsize st = maxsize st0) as Hms by (unfold st; by destruct (LEDGER_LOCK st0)).
  pose proof (allocate_body_loaded identifier (arg_status a) (arg_relpath a)
                (arg_param_hash a) (arg_now a) st D) as Hbody.
  cbn zeta in Hbody. rewrite Hms in Hbody. fold r in Hbody.
  (* the body *)
  pose (s3 := moved p (shared_file s) (holder s1)
                (at_stage (proc p s2) (loaded st r.2)
                   match r.1 with
                   | Ok uid => Edited (length (objects st)) uid
                   | Raise e => Leaving (Raise e)
                   end) s).
  assert (move identifier p s2 = Some s3) as H3.
  { assert (stage_of (proc p s2) = Loaded a (length (objects st))) as Hg
      by (by rewrite Hp2).
    assert (memory (proc p s2) = loaded st D) as Hm by (by rewrite Hp2).
    unfold move. cbv zeta. rewrite Hg. cbv iota. rewrite Hm, Hbody.
    unfold s3. destruct r.1; by rewrite Hs2. }
  assert (∀ f h pr, moved p f h pr s3 = moved p f h pr s) as Hs3
    by (intros; apply moved_moved).
  assert (proc p s3 = at_stage (proc p s2) (loaded st r.2)
                        match r.1 with
                        | Ok uid => Edited (length (objects st)) uid
                        | Raise e => Leaving (Raise e)
                        end) as Hp3 by apply proc_moved_same.
  assert (file st0 = shared_file s) as Hf0 by done.
  assert (LEDGER_LOCK (loaded st r.2) = LEDGER_LOCK st0) as Hlk.
  { unfold st. by destruct (LEDGER_LOCK st0) eqn:E. }
  rewrite <- Nat.add_assoc. cbn [Nat.add replicate].
  rewrite (run_cons _ _ _ _ _ H1), replicate_add, H2.
  destruct r.1 as [uid|e] eqn:Er; cbn [replicate]; rewrite (run_cons _ _ _ _ _ H3).
  - (* the write, and the way out *)
    destruct (save_and_leave st0 r.2 uid) as (m' & Hsave & Hfile & Hlk' & Hout).
    fold st in Hsave.
    assert (stage_of (proc p s3) = Edited (length (objects st)) uid) as Hg
      by (by rewrite Hp3).
    assert (memory (proc p s3) = loaded st r.2) as Hm by (by rewrite Hp3).
    pose (s4 := moved p (Some (dump_json r.2)) (holder s1)
                  (at_stage (proc p s3) m' (Leaving (Ok uid))) s).
    assert (move identifier p s3 = Some s4) as H4.
    { unfold move. cbv zeta. rewrite Hg. cbv iota.
      rewrite Hm. change (shared_file s3) with (file st0). rewrite Hsave, Hfile.
      by rewrite Hs3. }
    rewrite (run_cons _ _ _ _ _ H4).
    assert (proc p s4 = at_stage (proc p s3) m' (Leaving (Ok uid))) as Hp4
      by apply proc_moved_same.
    assert (∀ f h pr, moved p f h pr s4 = moved p f h pr s) as Hs4
      by (intros; apply moved_moved).
    cbn [run]. unfold move. cbv zeta. rewrite Hp4. cbn [stage_of at_stage memory todo outcomes].
    rewrite Hout, Hs4, Hp3, Hp2, Hp1, Hlk'. cbn [at_stage todo outcomes default].
    change (holder s4) with (if LEDGER_LOCK st0 then Some p else @None bool).
    simpl. by destruct (LEDGER_LOCK _).
  - (* the body raised: only the way out is left *)
    assert (proc p s3 = at_stage (proc p s2) (loaded st r.2) (Leaving (Raise e))) as Hp3'
      by apply proc_moved_same.
    pose proof (leave_after_raise st0 r.2 e) as Hleave. cbn zeta in Hleave.
    fold st in Hleave.
    cbn [run]. unfold move. cbv zeta. rewrite Hp3'.
    cbn [stage_of at_stage memory todo outcomes].
    rewrite Hleave, Hs3, Hp2, Hp1, Hlk.
    cbn [at_stage todo outcomes default].
    change (holder s3) with (if LEDGER_LOCK st0 then Some p else @None bool).
    simpl. by destruct (LEDGER_LOCK _).
Qed.

(** C3.  Two processes with the lock installed make [allocate] calls
    for one identifier, in any interleaving of their steps.  At every
    moment at most one of them is inside a load-mutate-persist cycle,
    and it is the one that holds the lock.  When both have made all
    their calls, the run-set of the identifier in the file holds the
    uids it had at the start and the uids the calls returned, each once:
    no uid was given twice and no record was lost.  Every interleaving
    can be continued until both are done. *)
Theorem allocate_isolated_under_lock identifier schedule f m_false m_true
    calls_false calls_true D :
  LEDGER_LOCK m_false = true → LEDGER_LOCK m_true = true →
  system_stored (start f m_false m_true calls_false calls_true) = Some D →
  data_wf D →
  let s := run identifier schedule (start f m_false m_true calls_false calls_true) in
  inside (proc false s) && inside (proc true s) = false ∧
  (∀ p, inside (proc p s) = true ↔ holder s = Some p) ∧
  (finished s →
   ∃ D', system_stored s = Some D' ∧ data_wf D' ∧
     pydict.keys (run_set_of identifier D')
       ≡ₚ pydict.keys (run_set_of identifier D)
            ++ uids (outcomes (proc false s)) ++ uids (outcomes (proc true s)) ∧
     NoDup (uids (outcomes (proc false s)) ++ uids (outcomes (proc true s))) ∧
     length (outcomes (proc false s)) = length calls_false ∧
     length (outcomes (proc true s)) = length calls_true) ∧
  ∃ more, finished (run identifier more s).
Proof.
  intros Hf Ht Hst Hwf s.
  pose proof (run_invariant identifier D schedule _
                (start_invariant identifier f m_false m_true calls_false calls_true D
                   Hf Ht Hst Hwf)) as (Hlock & Hhold & D' & Hst' & Hwf' & _ & Hperm).
  fold s in Hlock, Hhold, Hst', Hperm.
  assert (∃ more, finished (run identifier more s)) as Hmore.
  { apply (schedule_completes identifier D
             (remaining (proc false s) + remaining (proc true s)) s); [|done].
    apply run_invariant.
    by apply start_invariant. }
  split; [|split; [|split; [|exact Hmore]]].
  - destruct (inside (proc false s)) eqn:E1, (inside (proc true s)) eqn:E2; try done.
    apply Hhold in E1. apply Hhold in E2. congruence.
  - intros p. by rewrite Hhold.
  - intros Hfin. exists D'. split; [done|]. split; [done|].
    assert (∀ p, given (proc p s) = uids (outcomes (proc p s))) as Hgiven.
    { intros p. apply given_not_leaving. intros out. destruct (Hfin p) as [-> _]. done. }
    rewrite !Hgiven in Hperm. split; [done|]. split.
    + pose proof (run_set_wf_run_set_of identifier D' Hwf') as [Hnd _].
      unfold pydict.wf in Hnd. rewrite Hperm in Hnd. by apply NoDup_app in Hnd as (_ & _ & ?).
    + assert (∀ p, length (outcomes (proc p s)) = calls_count (proc p s)) as Hlen.
      { intros p. unfold calls_count, inside. destruct (Hfin p) as [-> ->]. simpl. lia. }
      rewrite !Hlen. unfold s. rewrite !run_calls_count. unfold calls_count. simpl.
      split; lia.
Qed.
End process_facts.

(** * More of the ledger and of its callers *)

(** ** Dictionaries that only grow *)

Section grows_facts.
Import pydict_facts.
Context {V : Type} (R : V → V → Prop).

Lemma dict_grows_refl d : (∀ v, R v v) → dict_grows R d d.
Proof.
  intros HR. exists d, []. split; [by rewrite app_nil_r|].
  induction d as [|[k v] d IH]; constructor; auto.
Qed.

Lemma dict_grows_trans d1 d2 d3 :
  (∀ a b c, R a b → R b c → R a c) →
  dict_grows R d1 d2 → dict_grows R d2 d3 → dict_grows R d1 d3.
Proof.
  intros HR (k1 & n1 & -> & H1) (k2 & n2 & -> & H2).
  apply Forall2_app_inv_l in H2 as (k2a & k2b & Ha & Hb & ->).
  exists k2a, (k2b ++ n2). split; [by rewrite app_assoc|].
  revert k2a Ha. induction H1 as [|[ka va] [kb vb] d1 k1 [Hk Hv] H1 IH];
    intros k2a Ha.
  - apply Forall2_nil_inv_l in Ha as ->. constructor.
  - apply Forall2_cons_inv_l in Ha as ([kc vc] & k2a' & [Hk' Hv'] & Ha & ->).
    constructor; [|by apply IH]. simpl in *. split; [congruence | eauto].
Qed.

Lemma dict_grows_keys d d' :
  dict_grows R d d' → pydict.keys d `prefix_of` pydict.keys d'.
Proof.
  intros (kept & new & -> & H). exists (pydict.keys new).
  unfold pydict.keys. rewrite fmap_app. f_equal.
  induction H as [|[ka va] [kb vb] d kept [Hk _] H IH]; [done|].
  rewrite !fmap_cons. simpl in *. by f_equal.
Qed.

Lemma dict_grows_get d d' k v :
  dict_grows R d d' → pydict.get k d = Some v →
  ∃ v', pydict.get k d' = Some v' ∧ R v v'.
Proof.
  intros (kept & new & -> & H). unfold pydict.get.
  induction H as [|[ka va] [kb vb] d kept [Hk Hv] H IH]; [done|].
  simpl in *. subst kb. destruct (String.eqb k ka); [|exact IH].
  intros [= <-]. eauto.
Qed.

(** An assignment to a key, with a value related to the one that was
    there if any. *)
Lemma dict_grows_set d k v' :
  (∀ v, R v v) →
  (∀ v, pydict.get k d = Some v → R v v') →
  dict_grows R d (pydict.set k v' d).
Proof.
  intros HR Hv. destruct (pydict.get k d) as [v0|] eqn:E.
  - exists (pydict.set k v' d), []. split; [by rewrite app_nil_r|].
    specialize (Hv v0). revert E Hv. unfold pydict.get, pydict.set.
    induction d as [|[ka va] d IH]; [done|]. simpl.
    destruct (String.eqb k ka) eqn:Ek.
    + intros [= <-] Hv. constructor; [by auto|].
      clear -HR. induction d as [|[kb vb] d IH]; constructor; auto.
    + intros E Hv. constructor; [by auto|]. by apply IH.
  - apply get_None in E. rewrite (set_notin _ _ _ E).
    exists d, [(k, v')]. split; [done|].
    clear -HR. induction d as [|[kb vb] d IH]; constructor; auto.
Qed.

Lemma dict_grows_setdefault d k v :
  (∀ v, R v v) → dict_grows R d (pydict.setdefault k v d).
Proof.
  intros HR. unfold pydict.setdefault, pydict.contains.
  destruct (pydict.get k d) eqn:E; [by apply dict_grows_refl|].
  apply dict_grows_set; [done|]. intros v0 Hv0. congruence.
Qed.
End grows_facts.

(** The file accesses of a call once the state after it is known: the
    trace, the file, and whether anything was written. *)
Ltac accesses :=
  unfold ret; cbn [fst snd];
  split;
  [ unfold edited, loaded, rejected, load_events, lock_events; simpl;
    repeat match goal with
           | |- context [match file ?s with _ => _ end] => destruct (file s)
           end;
    simpl; rewrite ?app_nil_r, <- ?app_assoc; reflexivity
  | split;
    [ first [ left; split; [reflexivity | first [reflexivity | simpl; assumption]]
            | right; eexists; split; reflexivity ]
    | split;
      [ let Hw := fresh in
        intros Hw; first [ by destruct Hw | split; [reflexivity | eexists; reflexivity] ]
      | let He := fresh in
        let v := fresh in
        let Hv := fresh in
        intros [He [v Hv]];
        first [ discriminate He | discriminate Hv | discriminate ] ] ] ].

(** ** Calls on the document of the file *)

Section coverage.
Context `{DATA_STRUCTURE_MODEL : TypeAdapter}.
Import pydict_facts.

Hypothesis validate_dump :
  ∀ d : DATA_STRUCTURE, data_wf d → validate_json (dump_json d) = Some d.

(** Every state has a document in its file or a file that does not
    validate. *)
Lemma stored_or_invalid st :
  (∃ D, stored st = Some D) ∨ (∃ b, file st = Some b ∧ validate_json b = None).
Proof.
  unfold stored. destruct (file st) as [b|]; [|by left; eexists].
  destruct (validate_json b) eqn:E; [by left; eexists | right; eauto].
Qed.

Lemma perform_on_run c st D :
  stored st = Some D → data_wf D →
  let r := perform_on c (maxsize st) D in
  (perform c st).1 = r.1 ∧ stored (perform c st).2 = Some r.2 ∧ data_wf r.2 ∧
  maxsize (perform c st).2 = maxsize st ∧
  LEDGER_LOCK (perform c st).2 = LEDGER_LOCK st.
Proof.
  intros Hst Hwf. destruct c as [identifier a|identifier uid status path_dict now
    |identifier uid|identifier|identifier [h|]]; unfold perform, perform_on, bind.
  - rewrite (allocate_run _ _ _ _ _ _ _ Hst). cbn zeta.
    pose proof (data_wf_allocate_on identifier (arg_status a) (arg_relpath a)
                  (arg_param_hash a) (arg_now a) (maxsize st) D Hwf) as Hwf'.
    destruct (allocate_on _ _ _ _ _ _ _) as [[uid|e] D']; cbn [fst snd] in *.
    + split; [done|]. split; [by apply (stored_edited_Ok validate_dump)|]. done.
    + done.
  - destruct (status_given status || path_dict_given path_dict) eqn:Hgiven.
    + rewrite (log_run _ _ _ _ _ _ _ Hst Hgiven). cbn zeta.
      pose proof (data_wf_log_on identifier uid status path_dict now D Hwf) as Hwf'.
      destruct (log_on _ _ _ _ _ _) as [[[]|e] D']; cbn [fst snd negb] in *.
      * split; [done|]. split; [by apply (stored_edited_Ok validate_dump)|]. done.
      * done.
    + unfold log. rewrite Hgiven. simpl. done.
  - rewrite (get_record_run _ _ _ _ Hst). unfold record_at.
    destruct (pydict.get identifier D) as [rs|]; cbn [fst snd mbind option_bind]; [|done].
    by destruct (pydict.get uid rs).
  - rewrite (get_uid_record_dict_run _ _ _ Hst).
    by destruct (pydict.get identifier D) as [rs|].
  - rewrite (find_by_param_hash_run _ _ _ _ Hst).
    by destruct (pydict.get identifier D) as [rs|].
  - done.
Qed.

(** *** The ledger only grows *)

Lemma record_kept_refl r : record_kept r r.
Proof. by split; [|split]. Qed.

Lemma record_kept_trans r1 r2 r3 :
  record_kept r1 r2 → record_kept r2 r3 → record_kept r1 r3.
Proof.
  intros (? & ? & ?) (? & ? & ?). split; [congruence|]. split; [congruence|].
  by etrans.
Qed.

Lemma run_set_grows_refl rs : dict_grows record_kept rs rs.
Proof. apply dict_grows_refl, record_kept_refl. Qed.

Lemma run_set_grows_trans rs1 rs2 rs3 :
  dict_grows record_kept rs1 rs2 → dict_grows record_kept rs2 rs3 →
  dict_grows record_kept rs1 rs3.
Proof. apply dict_grows_trans, record_kept_trans. Qed.

Lemma data_grows_refl d : data_grows d d.
Proof. apply dict_grows_refl, run_set_grows_refl. Qed.

Lemma data_grows_trans d1 d2 d3 : data_grows d1 d2 → data_grows d2 d3 → data_grows d1 d3.
Proof. apply dict_grows_trans, run_set_grows_trans. Qed.

Lemma keys_update_prefix {V} (d other : list (string * V)) :
  pydict.keys d `prefix_of` pydict.keys (pydict.update d other).
Proof.
  unfold pydict.update. revert d.
  induction other as [|[k v] other IH]; intros d; simpl; [done|].
  etrans; [|apply IH].
  destruct (decide (k ∈ pydict.keys d)) as [Hin|Hnin].
  - by rewrite keys_set_in.
  - rewrite keys_set_notin by done. by apply prefix_app_r.
Qed.

Lemma record_kept_log_record status path_dict now r :
  record_kept r (log_record status path_dict now r).
Proof.
  unfold record_kept, log_record.
  destruct (path_dict_given path_dict), status; simpl;
    repeat split; try done; apply keys_update_prefix.
Qed.

Lemma data_grows_set_run_set identifier rs' d :
  dict_grows record_kept (run_set_of identifier d) rs' →
  data_grows d (pydict.set identifier rs' d).
Proof.
  intros H. apply dict_grows_set; [apply run_set_grows_refl|].
  intros rs Hrs. unfold run_set_of in H. by rewrite Hrs in H.
Qed.

Lemma data_grows_allocate_on identifier status relpath param_hash now ms d :
  data_grows d (allocate_on identifier status relpath param_hash now ms d).2.
Proof.
  unfold allocate_on.
  assert (data_grows d (pydict.setdefault identifier [] d)) as H1
    by apply dict_grows_setdefault, run_set_grows_refl.
  destruct (counter_naming_strategy _ _) as [uid|e] eqn:E; cbn [snd]; [|done].
  eapply data_grows_trans; [exact H1|]. apply data_grows_set_run_set.
  apply dict_grows_set; [apply record_kept_refl|].
  intros r Hr. apply counter_naming_strategy_Ok in E as (i & _ & _ & Hnin & _).
  exfalso. apply Hnin. apply get_is_Some. by eexists.
Qed.

Lemma data_grows_log_on identifier uid status path_dict now d :
  data_grows d (log_on identifier uid status path_dict now d).2.
Proof.
  unfold log_on.
  assert (data_grows d (pydict.setdefault identifier [] d)) as H1
    by apply dict_grows_setdefault, run_set_grows_refl.
  destruct (pydict.get uid _) as [r|] eqn:E; cbn [snd]; [|done].
  eapply data_grows_trans; [exact H1|]. apply data_grows_set_run_set.
  apply dict_grows_set; [apply record_kept_refl|].
  intros r0 Hr0. rewrite E in Hr0. injection Hr0 as <-.
  apply record_kept_log_record.
Qed.

Lemma data_grows_perform_on c ms d : data_grows d (perform_on c ms d).2.
Proof.
  destruct c as [identifier a|identifier uid status path_dict now
    |identifier uid|identifier|identifier [h|]]; unfold perform_on;
    try apply data_grows_refl.
  - pose proof (data_grows_allocate_on identifier (arg_status a) (arg_relpath a)
                  (arg_param_hash a) (arg_now a) ms d) as H.
    destruct (allocate_on _ _ _ _ _ _ _) as [[uid|e] D']; [done|apply data_grows_refl].
  - destruct (negb _); [apply data_grows_refl|].
    pose proof (data_grows_log_on identifier uid status path_dict now d) as H.
    destruct (log_on _ _ _ _ _ _) as [[[]|e] D']; [done|apply data_grows_refl].
Qed.

Lemma perform_all_grows calls : ∀ st D,
  stored st = Some D → data_wf D →
  ∃ D', stored (perform_all calls st) = Some D' ∧ data_wf D' ∧ data_grows D D' ∧
        maxsize (perform_all calls st) = maxsize st.
Proof.
  induction calls as [|c calls IH]; intros st D Hst Hwf; simpl.
  - exists D. split; [done|]. split; [done|]. split; [apply data_grows_refl|done].
  - destruct (perform_on_run c st D Hst Hwf) as (_ & Hst' & Hwf' & Hms & _).
    destruct (IH _ _ Hst' Hwf') as (D' & Hst'' & Hwf'' & Hg & Hms').
    exists D'. split; [done|]. split; [done|]. split; [|congruence].
    eapply data_grows_trans; [apply data_grows_perform_on|exact Hg].
Qed.

Lemma record_at_run_set_of d identifier uid :
  record_at d identifier uid = pydict.get uid (run_set_of identifier d).
Proof.
  unfold record_at, run_set_of. by destruct (pydict.get identifier d).
Qed.

Lemma find_grows h rs rs' uid r :
  dict_grows record_kept rs rs' →
  List.find (hash_matches h) rs = Some (uid, r) →
  ∃ r', List.find (hash_matches h) rs' = Some (uid, r') ∧ record_kept r r'.
Proof.
  intros (kept & new & -> & H).
  induction H as [|[ka va] [kb vb] rs kept [Hk Hv] H IH]; [done|].
  simpl in *. subst kb.
  assert (hash_matches h (ka, vb) = hash_matches h (ka, va)) as ->.
  { unfold hash_matches. simpl. destruct Hv as (Hh & _ & _).
    destruct va, vb. simpl in *. by subst. }
  destruct (hash_matches h (ka, va)); [|exact IH].
  intros [= <- <-]. eauto.
Qed.

(** X1.  Whatever calls are made one after the other, with whatever
    outcome: the file stays a document; no identifier and no uid is
    taken away or moved, new ones go last; a record that is there keeps
    its fingerprint and its path, and the tags of its files stay in
    their places. *)
Theorem ledger_only_grows calls st D :
  stored st = Some D → data_wf D →
  ∃ D', stored (perform_all calls st) = Some D' ∧ data_wf D' ∧
    pydict.keys D `prefix_of` pydict.keys D' ∧
    (∀ identifier,
       pydict.keys (run_set_of identifier D)
         `prefix_of` pydict.keys (run_set_of identifier D')) ∧
    (∀ identifier uid r,
       record_at D identifier uid = Some r →
       ∃ r', record_at D' identifier uid = Some r' ∧
             param_hash r' = param_hash r ∧ relpath r' = relpath r ∧
             pydict.keys (files r) `prefix_of` pydict.keys (files r')).
Proof.
  intros Hst Hwf.
  destruct (perform_all_grows calls st D Hst Hwf) as (D' & Hst' & Hwf' & Hg & _).
  exists D'. split; [done|]. split; [done|].
  split; [by eapply dict_grows_keys|]. split.
  - intros identifier. unfold run_set_of.
    destruct (pydict.get identifier D) as [rs|] eqn:E; [|apply prefix_nil].
    destruct (dict_grows_get _ _ _ _ _ Hg E) as (rs' & -> & Hrs).
    by eapply dict_grows_keys.
  - intros identifier uid r. unfold record_at.
    destruct (pydict.get identifier D) as [rs|] eqn:E; [|done]. simpl. intros Hr.
    destruct (dict_grows_get _ _ _ _ _ Hg E) as (rs' & -> & Hrs). simpl.
    destruct (dict_grows_get _ _ _ _ _ Hrs Hr) as (r' & -> & Hh & Hp & Hf).
    by exists r'.
Qed.

(** X2.  A run that [find_by_param_hash] has found for a fingerprint is
    the one it finds for that fingerprint ever after, whatever calls are
    made in between: the same uid, with the same path. *)
Theorem find_by_param_hash_stable calls identifier h st D uid r :
  stored st = Some D → data_wf D →
  (find_by_param_hash identifier (Some h) st).1 = Ok (Some (uid, r)) →
  ∃ r', (find_by_param_hash identifier (Some h) (perform_all calls st)).1
          = Ok (Some (uid, r')) ∧
        param_hash r' = Some h ∧ relpath r' = relpath r.
Proof.
  intros Hst Hwf.
  destruct (perform_all_grows calls st D Hst Hwf) as (D' & Hst' & Hwf' & Hg & _).
  rewrite (find_by_param_hash_run _ _ _ _ Hst), (find_by_param_hash_run _ _ _ _ Hst').
  cbn [fst].
  destruct (pydict.get identifier D) as [rs|] eqn:E; [|done].
  destruct (dict_grows_get _ _ _ _ _ Hg E) as (rs' & -> & Hrs).
  intros [= Hfind].
  destruct (find_grows h rs rs' uid r Hrs Hfind) as (r' & Hfind' & Hh & Hp & _).
  exists r'. rewrite Hfind'. split; [done|]. split; [|done].
  apply find_some in Hfind as [_ Hm]. apply hash_matches_true in Hm. simpl in Hm.
  congruence.
Qed.

(** X3.  A call changes at most the record it names: [allocate] the one
    of the uid it returns, [log] the one it is given.  Every other record
    of the file is as it was; a call that raised and a query leave the
    whole document as it was. *)
Theorem call_changes_one_record c st D :
  stored st = Some D → data_wf D →
  ∃ D', stored (perform c st).2 = Some D' ∧
    match c, (perform c st).1 with
    | Allocate identifier _, Ok (RUid uid) =>
        ∀ identifier' uid', (identifier', uid') ≠ (identifier, uid) →
          record_at D' identifier' uid' = record_at D identifier' uid'
    | Log identifier uid _ _ _, Ok _ =>
        ∀ identifier' uid', (identifier', uid') ≠ (identifier, uid) →
          record_at D' identifier' uid' = record_at D identifier' uid'
    | _, _ => D' = D
    end.
Proof.
  intros Hst Hwf.
  assert (∀ identifier uid r identifier' uid',
            (identifier', uid') ≠ (identifier, uid) →
            record_at (pydict.set identifier
                         (pydict.set uid r
                            (run_set_of identifier (pydict.setdefault identifier [] D)))
                         (pydict.setdefault identifier [] D)) identifier' uid'
            = record_at D identifier' uid') as Hframe.
  { intros identifier uid r identifier' uid' Hne.
    rewrite !record_at_run_set_of.
    destruct (decide (identifier = identifier')) as [<-|Hi].
    - rewrite run_set_of_set, run_set_of_setdefault.
      apply get_set_ne. congruence.
    - by rewrite run_set_of_set_ne, run_set_of_setdefault_ne. }
  destruct c as [identifier a|identifier uid status path_dict now
    |identifier uid|identifier|identifier [h|]];
    (match goal with
     | |- context [perform ?c st] =>
         destruct (perform_on_run c st D Hst Hwf) as (Hr & Hst' & _)
     end;
     eexists; split; [exact Hst'|]; rewrite ?Hr; clear Hr Hst'); unfold perform_on.
  - unfold allocate_on. destruct (counter_naming_strategy _ _) as [uid|e]; cbn [fst snd].
    + apply Hframe.
    + done.
  - destruct (negb _); cbn [fst snd]; [done|].
    unfold log_on. destruct (pydict.get uid _) as [r|]; cbn [fst snd]; [|done].
    apply Hframe.
  - cbn [fst snd]. by destruct (record_at D identifier uid).
  - cbn [fst snd]. by destruct (pydict.get identifier D).
  - cbn [fst snd]. by destruct (pydict.get identifier D).
  - done.
Qed.

(** *** Uids are counted per identifier *)

Lemma allocate_on_result identifier s p h now ms d :
  (allocate_on identifier s p h now ms d).1
  = counter_naming_strategy (pydict.keys (run_set_of identifier d)) ms.
Proof.
  unfold allocate_on. rewrite run_set_of_setdefault.
  by destruct (counter_naming_strategy _ _).
Qed.

Lemma keys_run_set_perform_on c identifier ms D :
  (∀ a, c ≠ Allocate identifier a) →
  pydict.keys (run_set_of identifier (perform_on c ms D).2)
  = pydict.keys (run_set_of identifier D).
Proof.
  intros Hc. destruct c as [identifier2 a|identifier2 uid status path_dict now
    |identifier2 uid|identifier2|identifier2 [h|]]; unfold perform_on; try done.
  - assert (identifier2 ≠ identifier) as Hne by (intros ->; by apply (Hc a)).
    unfold allocate_on. destruct (counter_naming_strategy _ _) as [uid|e]; cbn [snd]; [|done].
    by rewrite run_set_of_set_ne, run_set_of_setdefault_ne.
  - destruct (negb _); cbn [snd]; [done|].
    unfold log_on. destruct (pydict.get uid _) as [r|] eqn:E; cbn [snd]; [|done].
    destruct (decide (identifier2 = identifier)) as [->|Hne].
    + rewrite run_set_of_set, keys_set_in, run_set_of_setdefault; [done|].
      apply get_is_Some. by eexists.
    + by rewrite run_set_of_set_ne, run_set_of_setdefault_ne.
Qed.

(** X4.  The uid that [allocate] gives for an identifier depends on the
    uids of that identifier alone: no call other than an [allocate] for
    the same identifier changes it.  Allocations for other identifiers,
    status changes, attached files and queries use up no uid. *)
Theorem uid_counter_per_identifier c identifier s p h now st D :
  stored st = Some D → data_wf D →
  (∀ a, c ≠ Allocate identifier a) →
  (allocate identifier s p h now (perform c st).2).1
  = (allocate identifier s p h now st).1.
Proof.
  intros Hst Hwf Hc.
  destruct (perform_on_run c st D Hst Hwf) as (_ & Hst' & _ & Hms & _).
  rewrite (allocate_run _ _ _ _ _ _ _ Hst), (allocate_run _ _ _ _ _ _ _ Hst').
  cbn zeta. cbn [fst]. rewrite !allocate_on_result, Hms.
  by rewrite keys_run_set_perform_on.
Qed.

(** *** What was written is what is read *)

Lemma find_snoc {A} (f : A → bool) (l : list A) (x : A) :
  f x = true →
  ∃ hit, List.find f (l ++ [x]) = Some hit ∧ f hit = true ∧
         ((∀ y, y ∈ l → f y = false) → hit = x).
Proof.
  intros Hx. induction l as [|y l IH]; simpl.
  - rewrite Hx. by exists x.
  - destruct (f y) eqn:Hy.
    + exists y. split; [done|]. split; [done|]. intros H.
      assert (f y = false) by (apply H; by left). congruence.
    + destruct IH as (hit & Hfind & Hhit & Hfirst). exists hit.
      split; [done|]. split; [done|]. intros H. apply Hfirst.
      intros z Hz. apply H. by right.
Qed.

(** X5.  The uid that [allocate] returned names, in the file, the record
    the call made: the status, fingerprint and path it was given, the
    time of the call and no files.  The record is the last of its
    run-set, and a search for its fingerprint finds a run: this one when
    no earlier run of the identifier has the fingerprint. *)
Theorem allocate_then_get_record identifier s p h now st D uid :
  stored st = Some D → data_wf D →
  (allocate identifier s p h now st).1 = Ok uid →
  let st' := (allocate identifier s p h now st).2 in
  let record := {| status := s; param_hash := h; relpath := p;
                   status_time := Some now; files := [] |} in
  (get_record identifier uid st').1 = Ok record ∧
  (get_uid_record_dict identifier st').1
    = Ok (run_set_of identifier D ++ [(uid, record)]) ∧
  (∀ h', h = Some h' →
     ∃ hit, (find_by_param_hash identifier (Some h') st').1 = Ok (Some hit) ∧
       param_hash hit.2 = Some h' ∧
       ((∀ item, item ∈ run_set_of identifier D → param_hash item.2 ≠ Some h') →
        hit = (uid, record))).
Proof.
  intros Hst Hwf Hok st' record.
  assert (∃ D', stored st' = Some D' ∧
            pydict.get identifier D' = Some (run_set_of identifier D ++ [(uid, record)]))
    as (D' & Hst' & Hrs).
  { unfold st'. revert Hok. rewrite (allocate_run _ _ _ _ _ _ _ Hst). cbn zeta.
    pose proof (data_wf_allocate_on identifier s p h now (maxsize st) D Hwf) as Hwf'.
    revert Hwf'. unfold allocate_on. rewrite run_set_of_setdefault.
    destruct (counter_naming_strategy _ _) as [uid'|e] eqn:E; cbn [fst snd]; [|done].
    intros Hwf' [= ->]. eexists. split; [by apply (stored_edited_Ok validate_dump)|].
    rewrite get_set_eq. f_equal. apply set_notin.
    by apply counter_naming_strategy_Ok in E as (i & _ & _ & Hnin & _). }
  assert (uid ∉ pydict.keys (run_set_of identifier D)) as Hfresh.
  { revert Hok. rewrite (allocate_run _ _ _ _ _ _ _ Hst). cbn zeta. cbn [fst].
    rewrite allocate_on_result. intros E.
    by apply counter_naming_strategy_Ok in E as (i & _ & _ & Hnin & _). }
  split; [|split].
  - rewrite (get_record_run _ _ _ _ Hst'), Hrs. cbn [fst].
    rewrite <- set_notin by done. by rewrite get_set_eq.
  - by rewrite (get_uid_record_dict_run _ _ _ Hst'), Hrs.
  - intros h' ->. rewrite (find_by_param_hash_run _ _ _ _ Hst'), Hrs. cbn [fst].
    destruct (find_snoc (hash_matches h') (run_set_of identifier D) (uid, record))
      as (hit & Hfind & Hhit & Hfirst).
    { apply hash_matches_true. done. }
    exists hit. rewrite Hfind. split; [done|]. split; [by apply hash_matches_true|].
    intros Hnone. apply Hfirst. intros y Hy.
    destruct (hash_matches h' y) eqn:Hm; [|done].
    apply hash_matches_true in Hm. by apply Hnone in Hm.
Qed.

(** X6.  [log] with a status on a record that is there returns, and the
    record read back has the new status and the time of the call; its
    fingerprint and path are as before, and so are its files when no
    files were given. *)
Theorem log_then_get_record identifier uid s path_dict now st D r :
  stored st = Some D → data_wf D →
  record_at D identifier uid = Some r →
  let out := log identifier uid (Some s) path_dict now st in
  out.1 = Ok tt ∧
  ∃ r', (get_record identifier uid out.2).1 = Ok r' ∧
        status r' = s ∧ status_time r' = Some now ∧
        param_hash r' = param_hash r ∧ relpath r' = relpath r ∧
        (path_dict_given path_dict = false → files r' = files r).
Proof.
  intros Hst Hwf Hr out. unfold record_at in Hr.
  destruct (pydict.get identifier D) as [rs|] eqn:Hrs; [|done]. simpl in Hr.
  destruct (log_step validate_dump identifier uid (Some s) path_dict now st D rs r
              Hst Hwf Hrs Hr eq_refl) as (Hout & Hst' & _).
  fold out in Hout, Hst'. split; [done|].
  rewrite (get_record_run _ _ _ _ Hst'), !get_set_eq. cbn [fst].
  eexists. split; [reflexivity|]. unfold log_record.
  destruct (path_dict_given path_dict); simpl; repeat split; done.
Qed.

(** *** The lock and the file *)

Lemma _load_invalid_state st b :
  file st = Some b → validate_json b = None →
  _load st = (Raise ValidationError,
              {| file := file st; maxsize := maxsize st; objects := objects st;
                 _data := _data st; LEDGER_LOCK := LEDGER_LOCK st;
                 trace := trace st ++ [FileExists; ReadBytes] |}).
Proof.
  intros Hf Hv. destruct st as [f ms objs cache lk tr]; simpl in *; subst f.
  unfold _load, _load_existing, bind. simpl. rewrite Hv. by crush_run.
Qed.

Lemma load_events_cases st :
  load_events st = [FileExists] ∨ load_events st = [FileExists; ReadBytes].
Proof. unfold load_events. destruct (file st); auto. Qed.

Lemma no_lock_load_events st e :
  lock_event e = true → e ∉ load_events st.
Proof.
  intros He Hin. destruct (load_events_cases st) as [H|H]; rewrite H in Hin;
    repeat (apply elem_of_cons in Hin as [->|Hin]; [done|]); by apply elem_of_nil in Hin.
Qed.

Lemma no_lock_events_edit {A} st e (r : result A) d :
  lock_event e = true →
  e ∉ load_events st
        ++ (match r with Ok _ => [WriteBytes (dump_json d)] | Raise _ => [] end).
Proof.
  intros He Hin. apply elem_of_app in Hin as [Hin|Hin].
  - by apply (no_lock_load_events st e).
  - destruct r; [apply list_elem_of_singleton in Hin; by subst | by apply elem_of_nil in Hin].
Qed.

Lemma no_lock_events_rejected e :
  lock_event e = true → e ∉ [FileExists; ReadBytes].
Proof.
  intros He Hin.
  repeat (apply elem_of_cons in Hin as [->|Hin]; [done|]); by apply elem_of_nil in Hin.
Qed.

(** X7.  A lock installed by [set_global_lock] is taken by every call
    that edits before it touches the file and released after its last
    use of the file, also when the call raises; a query does not take
    it.  Between the two the call does what it does without a lock: it
    returns the same and leaves the same file. *)
Theorem lock_brackets_every_edit c st :
  let locked := (set_global_lock true st).2 in
  let serial := (set_global_lock false st).2 in
  (perform c locked).1 = (perform c serial).1 ∧
  file (perform c locked).2 = file (perform c serial).2 ∧
  ∃ mid, trace (perform c serial).2 = trace st ++ mid ∧
         trace (perform c locked).2
           = trace st ++ (if edits c then Acquire :: mid ++ [Release] else mid) ∧
         (Acquire ∉ mid) ∧ (Release ∉ mid).
Proof.
  intros locked serial.
  destruct (perform_ignores_memory c locked serial eq_refl eq_refl) as [Hr Hf].
  split; [exact Hr|]. split; [exact Hf|]. clear Hr Hf.
  destruct (stored_or_invalid st) as [[D HD]|(b & Hb & Hv)].
  - assert (stored locked = Some D) as Hl by exact HD.
    assert (stored serial = Some D) as Hs by exact HD.
    destruct c as [identifier a|identifier uid status path_dict now
      |identifier uid|identifier|identifier [h|]]; unfold perform, bind.
    + rewrite (allocate_run _ _ _ _ _ _ _ Hl), (allocate_run _ _ _ _ _ _ _ Hs).
      cbn zeta. change (maxsize locked) with (maxsize st).
      change (maxsize serial) with (maxsize st).
      destruct (allocate_on _ _ _ _ _ _ _) as [r D'].
      exists (load_events st ++
                (match r with Ok _ => [WriteBytes (dump_json D')] | Raise _ => [] end)).
      split; [by destruct r|]. split; [destruct r; cbn; by rewrite <- ?app_assoc|].
      split; by apply no_lock_events_edit.
    + cbn [edits]. destruct (status_given status || path_dict_given path_dict) eqn:Hgiven.
      * rewrite (log_run _ _ _ _ _ _ _ Hl Hgiven), (log_run _ _ _ _ _ _ _ Hs Hgiven).
        cbn zeta. destruct (log_on _ _ _ _ _ _) as [r D'].
        exists (load_events st ++
                  (match r with Ok _ => [WriteBytes (dump_json D')] | Raise _ => [] end)).
        split; [by destruct r|]. split; [destruct r; cbn; by rewrite <- ?app_assoc|].
        split; by apply no_lock_events_edit.
      * unfold log. rewrite Hgiven. exists []. cbn. rewrite app_nil_r.
        repeat split; try done; apply not_elem_of_nil.
    + rewrite (get_record_run _ _ _ _ Hl), (get_record_run _ _ _ _ Hs).
      exists (load_events st). cbn [edits].
      split; [by destruct (pydict.get identifier D) as [rs|]; [destruct (pydict.get uid rs)|]|].
      split; [by destruct (pydict.get identifier D) as [rs|]; [destruct (pydict.get uid rs)|]|].
      split; by apply no_lock_load_events.
    + rewrite (get_uid_record_dict_run _ _ _ Hl), (get_uid_record_dict_run _ _ _ Hs).
      exists (load_events st). cbn [edits].
      split; [by destruct (pydict.get identifier D)|].
      split; [by destruct (pydict.get identifier D)|].
      split; by apply no_lock_load_events.
    + rewrite (find_by_param_hash_run _ _ _ _ Hl), (find_by_param_hash_run _ _ _ _ Hs).
      exists (load_events st). cbn [edits].
      split; [by destruct (pydict.get identifier D)|].
      split; [by destruct (pydict.get identifier D)|].
      split; by apply no_lock_load_events.
    + exists []. cbn. rewrite app_nil_r. repeat split; try done; apply not_elem_of_nil.
  - assert (file locked = Some b) as Hl by exact Hb.
    assert (file serial = Some b) as Hs by exact Hb.
    destruct c as [identifier a|identifier uid status path_dict now
      |identifier uid|identifier|identifier [h|]]; unfold perform, bind.
    + unfold allocate, _edit_uid_record_dict.
      rewrite (_edit_data_invalid _ locked b Hl Hv), (_edit_data_invalid _ serial b Hs Hv).
      exists [FileExists; ReadBytes]. cbn.
      repeat split; try done; by apply no_lock_events_rejected.
    + cbn [edits]. unfold log.
      destruct (status_given status || path_dict_given path_dict); cbn [negb].
      * unfold _edit_record, _edit_uid_record_dict.
        rewrite (_edit_data_invalid _ locked b Hl Hv), (_edit_data_invalid _ serial b Hs Hv).
        exists [FileExists; ReadBytes]. cbn.
        repeat split; try done; by apply no_lock_events_rejected.
      * exists []. cbn. rewrite app_nil_r. repeat split; try done; apply not_elem_of_nil.
    + unfold get_record, bind.
      rewrite (_load_invalid_state locked b Hl Hv), (_load_invalid_state serial b Hs Hv).
      exists [FileExists; ReadBytes]. cbn.
      repeat split; try done; by apply no_lock_events_rejected.
    + unfold get_uid_record_dict, bind.
      rewrite (_load_invalid_state locked b Hl Hv), (_load_invalid_state serial b Hs Hv).
      exists [FileExists; ReadBytes]. cbn.
      repeat split; try done; by apply no_lock_events_rejected.
    + unfold find_by_param_hash, get_uid_record_dict, bind.
      rewrite (_load_invalid_state locked b Hl Hv), (_load_invalid_state serial b Hs Hv).
      exists [FileExists; ReadBytes]. cbn.
      repeat split; try done; by apply no_lock_events_rejected.
    + exists []. cbn. rewrite app_nil_r. repeat split; try done; apply not_elem_of_nil.
Qed.

Lemma only_reads_load_events st e :
  e ∈ load_events st → e = FileExists ∨ e = ReadBytes.
Proof.
  intros Hin. destruct (load_events_cases st) as [H|H]; rewrite H in Hin;
    repeat (apply elem_of_cons in Hin as [->|Hin]; [by auto|]); by apply elem_of_nil in Hin.
Qed.

(** The state of a query when it is over: nothing but reads of the file
    was added to the trace, and file and lock are as they were. *)
Lemma query_only_reads {A} (query : M A) st :
  (∀ D, stored st = Some D → (query st).2 = loaded st D) →
  (∀ b, file st = Some b → validate_json b = None →
        (_load st).1 = Raise ValidationError → (query st).2 = (_load st).2) →
  file (query st).2 = file st ∧ LEDGER_LOCK (query st).2 = LEDGER_LOCK st ∧
  ∃ evs, trace (query st).2 = trace st ++ evs ∧
         ∀ e, e ∈ evs → e = FileExists ∨ e = ReadBytes.
Proof.
  intros Hvalid Hinvalid. destruct (stored_or_invalid st) as [[D HD]|(b & Hb & Hv)].
  - rewrite (Hvalid D HD). split; [done|]. split; [done|].
    exists (load_events st). split; [done|]. apply only_reads_load_events.
  - rewrite (Hinvalid b Hb Hv); rewrite (_load_invalid_state st b Hb Hv); [|done].
    split; [done|]. split; [done|]. eexists. split; [reflexivity|].
    intros e Hin.
    repeat (apply elem_of_cons in Hin as [->|Hin]; [by auto|]); by apply elem_of_nil in Hin.
Qed.

(** X8.  The three queries read and do nothing else, in whatever state
    the ledger and the file are: they test and read the file, they
    never write it or make it, and they do not take the lock even when
    one is installed. *)
Theorem queries_only_read st :
  let only_read (st' : state) :=
    file st' = file st ∧ LEDGER_LOCK st' = LEDGER_LOCK st ∧
    ∃ evs, trace st' = trace st ++ evs ∧
           ∀ e, e ∈ evs → e = FileExists ∨ e = ReadBytes in
  (∀ identifier uid, only_read (get_record identifier uid st).2) ∧
  (∀ identifier, only_read (get_uid_record_dict identifier st).2) ∧
  (∀ identifier param_hash, only_read (find_by_param_hash identifier param_hash st).2).
Proof.
  intros only_read. split; [|split].
  - intros identifier uid. apply query_only_reads.
    + intros D HD. by rewrite (get_record_run _ _ _ _ HD).
    + intros b Hb Hv _. unfold get_record, bind.
      by rewrite (_load_invalid_state st b Hb Hv).
  - intros identifier. apply query_only_reads.
    + intros D HD. by rewrite (get_uid_record_dict_run _ _ _ HD).
    + intros b Hb Hv _. unfold get_uid_record_dict, bind.
      by rewrite (_load_invalid_state st b Hb Hv).
  - intros identifier [h|].
    + apply query_only_reads.
      * intros D HD. by rewrite (find_by_param_hash_run _ _ _ _ HD).
      * intros b Hb Hv _. unfold find_by_param_hash, get_uid_record_dict, bind.
        by rewrite (_load_invalid_state st b Hb Hv).
    + split; [done|]. split; [done|]. exists []. split; [by rewrite app_nil_r|].
      intros e He. by apply elem_of_nil in He.
Qed.

(** X9.  On a file that is there and is not a document, every call that
    goes to the file raises the validation error of the load: [allocate],
    [log] with something to log, and the queries.  The file is left as
    it is, and so are the dictionaries in memory and [self._data]. *)
Theorem corrupt_file_stops_calls st b :
  file st = Some b → validate_json b = None →
  let stopped {A} (out : result A * state) :=
    out.1 = Raise ValidationError ∧ file out.2 = file st ∧
    objects out.2 = objects st ∧ _data out.2 = _data st in
  (∀ identifier s p h now, stopped (allocate identifier s p h now st)) ∧
  (∀ identifier uid status path_dict now,
     status_given status || path_dict_given path_dict = true →
     stopped (log identifier uid status path_dict now st)) ∧
  (∀ identifier uid, stopped (get_record identifier uid st)) ∧
  (∀ identifier, stopped (get_uid_record_dict identifier st)) ∧
  (∀ identifier h, stopped (find_by_param_hash identifier (Some h) st)).
Proof.
  intros Hb Hv stopped. unfold stopped. repeat split.
  all: intros.
  all: unfold allocate, log, _edit_record, _edit_uid_record_dict, get_record,
         find_by_param_hash, get_uid_record_dict, bind.
  all: rewrite ?H; cbn [negb].
  all: rewrite ?(_edit_data_invalid _ st b Hb Hv), ?(_load_invalid_state st b Hb Hv).
  all: done.
Qed.

(** X10.  What a call does to the file, with no lock in the way: if it
    goes to the file at all it tests that the file exists and reads it
    if it does, once; it writes at most once, after that, and the file is
    then what it wrote; and it writes exactly when it is an [allocate] or
    a [log] with something to log that returns. *)
Theorem call_file_accesses c st :
  let out := perform c (set_global_lock false st).2 in
  ∃ written,
    trace out.2
      = trace st
          ++ (if loads c
              then FileExists :: match file st with Some _ => [ReadBytes] | None => [] end
              else [])
          ++ written ∧
    ((written = [] ∧ file out.2 = file st) ∨
     (∃ b, written = [WriteBytes b] ∧ file out.2 = Some b)) ∧
    (written ≠ [] ↔ edits c = true ∧ ∃ v, out.1 = Ok v).
Proof.
  intros out. unfold out. clear out. set (serial := (set_global_lock false st).2).
  destruct (stored_or_invalid st) as [[D HD]|(b & Hb & Hv)].
  - assert (stored serial = Some D) as Hs by exact HD.
    destruct c as [identifier a|identifier uid status path_dict now
      |identifier uid|identifier|identifier [h|]]; unfold perform, bind;
      cbn [loads edits].
    + rewrite (allocate_run _ _ _ _ _ _ _ Hs). cbn zeta.
      destruct (allocate_on _ _ _ _ _ _ _) as [[uid|e] D']; cbn [fst snd].
      * exists [WriteBytes (dump_json D')]. accesses.
      * exists []. accesses.
    + destruct (status_given status || path_dict_given path_dict) eqn:Hgiven.
      * rewrite (log_run _ _ _ _ _ _ _ Hs Hgiven). cbn zeta.
        destruct (log_on _ _ _ _ _ _) as [[[]|e] D']; cbn [fst snd].
        -- exists [WriteBytes (dump_json D')]. accesses.
        -- exists []. accesses.
      * unfold log. rewrite Hgiven. exists []. accesses.
    + rewrite (get_record_run _ _ _ _ Hs). exists [].
      destruct (pydict.get identifier D) as [rs|]; [destruct (pydict.get uid rs)|];
        accesses.
    + rewrite (get_uid_record_dict_run _ _ _ Hs). exists [].
      destruct (pydict.get identifier D); accesses.
    + rewrite (find_by_param_hash_run _ _ _ _ Hs). exists [].
      destruct (pydict.get identifier D); accesses.
    + exists []. accesses.
  - assert (file serial = Some b) as Hs by exact Hb.
    destruct c as [identifier a|identifier uid status path_dict now
      |identifier uid|identifier|identifier [h|]]; unfold perform, bind;
      cbn [loads edits].
    + unfold allocate, _edit_uid_record_dict.
      rewrite (_edit_data_invalid _ serial b Hs Hv). exists []. rewrite Hb. accesses.
    + unfold log.
      destruct (status_given status || path_dict_given path_dict); cbn [negb].
      * unfold _edit_record, _edit_uid_record_dict.
        rewrite (_edit_data_invalid _ serial b Hs Hv). exists []. rewrite Hb. accesses.
      * exists []. accesses.
    + unfold get_record, bind. rewrite (_load_invalid_state serial b Hs Hv).
      exists []. rewrite Hb. accesses.
    + unfold get_uid_record_dict, bind. rewrite (_load_invalid_state serial b Hs Hv).
      exists []. rewrite Hb. accesses.
    + unfold find_by_param_hash, get_uid_record_dict, bind.
      rewrite (_load_invalid_state serial b Hs Hv).
      exists []. rewrite Hb. accesses.
    + exists []. accesses.
Qed.

(** X11.  After a call that went to the file and returned, with the
    file there, [self._data] is the document of the file: the one just
    read by a query, the one just written by [allocate] or [log]. *)
Theorem cache_holds_document c st D v :
  stored st = Some D → data_wf D → loads c = true →
  (perform c st).1 = Ok v → is_Some (file (perform c st).2) →
  objects (perform c st).2 !! _data (perform c st).2 = stored (perform c st).2.
Proof.
  intros Hst Hwf Hloads.
  assert (is_Some (file (loaded st D)) →
          objects (loaded st D) !! _data (loaded st D) = stored (loaded st D)) as Hquery.
  { intros [b Hb]. rewrite stored_loaded, Hst. simpl in *. rewrite Hb.
    apply lookup_last. }
  destruct c as [identifier a|identifier uid status path_dict now
    |identifier uid|identifier|identifier [h|]]; unfold perform, bind; try done.
  - rewrite (allocate_run _ _ _ _ _ _ _ Hst). cbn zeta.
    pose proof (data_wf_allocate_on identifier (arg_status a) (arg_relpath a)
                  (arg_param_hash a) (arg_now a) (maxsize st) D Hwf) as Hwf'.
    destruct (allocate_on _ _ _ _ _ _ _) as [[uid|e] D']; cbn [fst snd] in *; [|done].
    intros _ _. unfold ret. cbn [snd].
    rewrite (stored_edited_Ok validate_dump) by done. apply lookup_last.
  - cbn [loads] in Hloads. rewrite (log_run _ _ _ _ _ _ _ Hst Hloads). cbn zeta.
    pose proof (data_wf_log_on identifier uid status path_dict now D Hwf) as Hwf'.
    destruct (log_on _ _ _ _ _ _) as [[[]|e] D']; cbn [fst snd] in *; [|done].
    intros _ _. unfold ret. cbn [snd].
    rewrite (stored_edited_Ok validate_dump) by done. apply lookup_last.
  - rewrite (get_record_run _ _ _ _ Hst).
    destruct (pydict.get identifier D) as [rs|]; [|done].
    destruct (pydict.get uid rs); [|done]. intros _. exact Hquery.
  - rewrite (get_uid_record_dict_run _ _ _ Hst).
    destruct (pydict.get identifier D); [|done]. intros _. exact Hquery.
  - rewrite (find_by_param_hash_run _ _ _ _ Hst).
    destruct (pydict.get identifier D); [|done]. intros _. exact Hquery.
Qed.

(** X12.  [log] returns at once, leaving everything as it is, exactly
    when there is nothing to log: no status, and no files or an empty
    dictionary of files.  It then does not look for the record, so it
    returns also for a record that is not there. *)
Theorem log_returns_at_once_iff identifier uid status path_dict now st :
  log identifier uid status path_dict now st = (Ok tt, st) ↔
  status = None ∧ (path_dict = None ∨ path_dict = Some []).
Proof.
  split.
  - intros H. destruct (status_given status || path_dict_given path_dict) eqn:Hgiven.
    + exfalso.
      assert (length (trace (log identifier uid status path_dict now st).2)
              = length (trace st)) as Hlen by (by rewrite H).
      revert Hlen. clear H.
      destruct (stored_or_invalid st) as [[D HD]|(b & Hb & Hv)].
      * rewrite (log_run _ _ _ _ _ _ _ HD Hgiven). cbn zeta.
        destruct (log_on _ _ _ _ _ _) as [r D']. cbn [fst snd]. unfold edited.
        cbn [trace]. rewrite !length_app.
        destruct (load_events_cases st) as [-> | ->]; simpl; lia.
      * unfold log. rewrite Hgiven. cbn [negb]. unfold _edit_record, _edit_uid_record_dict.
        rewrite (_edit_data_invalid _ st b Hb Hv). unfold rejected. cbn [snd trace].
        rewrite !length_app. simpl. lia.
    + destruct status; [done|]. split; [done|].
      destruct path_dict as [[|]|]; [by right | done | by left].
  - intros [-> [-> | ->]]; reflexivity.
Qed.
End coverage.

(** ** Sessions *)

Section session_facts.
Context `{DATA_STRUCTURE_MODEL : TypeAdapter}.
Context {path : Type} (Path : string → path).
Import pydict_facts.

Hypothesis validate_dump :
  ∀ d : DATA_STRUCTURE, data_wf d → validate_json (dump_json d) = Some d.

Lemma record_at_None d identifier uid :
  record_at d identifier uid = None →
  identifier ∉ pydict.keys d ∨ uid ∉ pydict.keys (run_set_of identifier d).
Proof.
  rewrite record_at_run_set_of. intros H. right. by apply get_None.
Qed.

Lemma get_record_at identifier uid st D :
  stored st = Some D →
  get_record identifier uid st =
    (match record_at D identifier uid with
     | Some r => Ok r
     | None => Raise (KeyError (no_run_found identifier uid))
     end, loaded st D).
Proof.
  intros Hst. rewrite (get_record_run _ _ _ _ Hst). unfold record_at.
  by destruct (pydict.get identifier D).
Qed.

Lemma session_status_run self st D :
  stored st = Some D →
  (Session.status self st).1 =
    match record_at D (Session.identifier self) (Session.uid self) with
    | Some r => Ok (status r)
    | None => Raise (KeyError (no_run_found (Session.identifier self) (Session.uid self)))
    end.
Proof.
  intros Hst. unfold Session.status, bind. rewrite (get_record_at _ _ _ _ Hst).
  by destruct (record_at D _ _).
Qed.

Lemma session_is_done_run self st :
  (Session.is_done self st).1 =
    match (Session.status self st).1 with
    | Ok s => Ok (match s with DONE => true | _ => false end)
    | Raise e => Raise e
    end.
Proof.
  unfold Session.is_done, bind. by destruct (Session.status self st) as [[s|e] st'].
Qed.

(** A status logged for the record of a session. *)
Lemma session_log_status self s now st D r :
  stored st = Some D → data_wf D →
  record_at D (Session.identifier self) (Session.uid self) = Some r →
  let out := log (Session.identifier self) (Session.uid self) (Some s) None now st in
  out.1 = Ok tt ∧
  ∃ D' r', stored out.2 = Some D' ∧ data_wf D' ∧
    record_at D' (Session.identifier self) (Session.uid self) = Some r' ∧
    status r' = s ∧ status_time r' = Some now ∧ files r' = files r.
Proof.
  intros Hst Hwf Hr out. unfold record_at in Hr.
  destruct (pydict.get (Session.identifier self) D) as [rs|] eqn:Hrs; [|done].
  simpl in Hr.
  destruct (log_step validate_dump _ _ (Some s) None now st D rs r
              Hst Hwf Hrs Hr eq_refl) as (Hout & Hst' & Hwf' & _).
  split; [done|]. eexists _, _. split; [exact Hst'|]. split; [exact Hwf'|].
  unfold record_at. rewrite !get_set_eq. simpl. rewrite get_set_eq. done.
Qed.

(** X13.  A session whose record is in the file: after [start] its
    status is RUNNING, after [done] it is DONE and [is_done] says so,
    after [error] it is ERROR and [is_done] says no.  Each of the three
    returns, and the last one made decides. *)
Theorem session_lifecycle self now st D r :
  stored st = Some D → data_wf D →
  record_at D (Session.identifier self) (Session.uid self) = Some r →
  let started := Session.start self now st in
  started.1 = Ok tt ∧
  (Session.status self started.2).1 = Ok RUNNING ∧
  (Session.is_done self started.2).1 = Ok false ∧
  ∀ now',
    (let finished := Session.done self now' started.2 in
     finished.1 = Ok tt ∧
     (Session.status self finished.2).1 = Ok DONE ∧
     (Session.is_done self finished.2).1 = Ok true) ∧
    (let failed := Session.error self now' started.2 in
     failed.1 = Ok tt ∧
     (Session.status self failed.2).1 = Ok ERROR ∧
     (Session.is_done self failed.2).1 = Ok false).
Proof.
  intros Hst Hwf Hr started.
  destruct (session_log_status self RUNNING now st D r Hst Hwf Hr)
    as (H1 & D1 & r1 & Hst1 & Hwf1 & Hr1 & Hs1 & _).
  fold (Session.start self now st) in H1, Hst1. fold started in H1, Hst1.
  split; [done|].
  assert ((Session.status self started.2).1 = Ok RUNNING) as Hrun.
  { rewrite (session_status_run _ _ _ Hst1), Hr1. by rewrite Hs1. }
  split; [done|]. split; [by rewrite session_is_done_run, Hrun|].
  intros now'. split.
  - destruct (session_log_status self DONE now' started.2 D1 r1 Hst1 Hwf1 Hr1)
      as (H2 & D2 & r2 & Hst2 & _ & Hr2 & Hs2 & _).
    fold (Session.done self now' started.2) in H2, Hst2.
    cbn zeta. split; [done|].
    assert ((Session.status self (Session.done self now' started.2).2).1 = Ok DONE) as Hd.
    { rewrite (session_status_run _ _ _ Hst2), Hr2. by rewrite Hs2. }
    split; [done|]. by rewrite session_is_done_run, Hd.
  - destruct (session_log_status self ERROR now' started.2 D1 r1 Hst1 Hwf1 Hr1)
      as (H2 & D2 & r2 & Hst2 & _ & Hr2 & Hs2 & _).
    fold (Session.error self now' started.2) in H2, Hst2.
    cbn zeta. split; [done|].
    assert ((Session.status self (Session.error self now' started.2).2).1 = Ok ERROR) as Hd.
    { rewrite (session_status_run _ _ _ Hst2), Hr2. by rewrite Hs2. }
    split; [done|]. by rewrite session_is_done_run, Hd.
Qed.

(** X14.  A session whose record is not in the file: reading its
    status or its files, and [start], [error], [done] and attaching
    files all raise the key error that names the identifier and the uid,
    and the file is left as it was.  Attaching an empty dictionary of
    files is the exception: it returns and does nothing. *)
Theorem session_without_record self st D :
  stored st = Some D →
  record_at D (Session.identifier self) (Session.uid self) = None →
  let not_found {A} (out : result A * state) :=
    out.1 = Raise (KeyError (no_run_found (Session.identifier self) (Session.uid self)))
    ∧ file out.2 = file st in
  not_found (Session.status self st) ∧
  not_found (Session.is_done self st) ∧
  not_found (Session.files Path self st) ∧
  (∀ now, not_found (Session.start self now st) ∧
          not_found (Session.error self now st) ∧
          not_found (Session.done self now st)) ∧
  (∀ now tag p path_dict,
     not_found (Session.attach_files self ((tag, p) :: path_dict) now st)) ∧
  (∀ now, Session.attach_files self [] now st = (Ok tt, st)).
Proof.
  intros Hst Hr not_found. unfold not_found.
  assert (∀ status path_dict now,
            status_given status || path_dict_given path_dict = true →
            let out := log (Session.identifier self) (Session.uid self) status
                         path_dict now st in
            out.1 = Raise (KeyError (no_run_found (Session.identifier self)
                                       (Session.uid self)))
            ∧ file out.2 = file st) as Hlog.
  { intros status path_dict now Hgiven.
    destruct (log_missing _ _ status path_dict now st D Hst (record_at_None _ _ _ Hr) Hgiven)
      as [H1 H2].
    cbn zeta. split; [exact H1|]. by rewrite H2. }
  split; [|split; [|split; [|split; [|split]]]].
  - unfold Session.status, bind. rewrite (get_record_at _ _ _ _ Hst), Hr. done.
  - unfold Session.is_done, Session.status, bind.
    rewrite (get_record_at _ _ _ _ Hst), Hr. done.
  - unfold Session.files, bind. rewrite (get_record_at _ _ _ _ Hst), Hr. done.
  - intros now. split; [|split]; by apply Hlog.
  - intros now tag p path_dict. by apply Hlog.
  - reflexivity.
Qed.

Lemma update_appends {V} (d acc : list (string * V)) :
  NoDup (pydict.keys acc ++ pydict.keys d) → pydict.update acc d = acc ++ d.
Proof.
  unfold pydict.update, pydict.keys. revert acc.
  induction d as [|[k v] d IH]; intros acc Hnd; simpl; [by rewrite app_nil_r|].
  assert (k ∉ acc.*1) as Hk.
  { apply NoDup_app in Hnd as (_ & Hdisj & _). intros Hk. apply (Hdisj k Hk). left. }
  rewrite (IH (pydict.set k v acc)).
  - rewrite set_notin by done. by rewrite <- app_assoc.
  - rewrite set_notin by done. rewrite fmap_app, <- app_assoc. simpl.
    by rewrite fmap_cons in Hnd.
Qed.

(** The comprehension over the items of a dictionary keeps every key in
    its place. *)
Lemma comprehension_items {V W} (f : V → W) (d : list (string * V)) :
  pydict.wf d →
  pydict.update [] ((fun kv => (kv.1, f kv.2)) <$> d) = (fun kv => (kv.1, f kv.2)) <$> d.
Proof.
  intros Hwf. apply (update_appends _ []). simpl.
  unfold pydict.keys. rewrite <- list_fmap_compose. exact Hwf.
Qed.

(** X15.  Files attached through a session are the files of the session
    afterwards: [files] gives the tags the record had and the new ones
    behind them, each with its path made a [Path], a tag given again
    with the new path in its old place.  The status is not touched. *)
Theorem session_attach_files self tag p path_dict now st D r :
  stored st = Some D → data_wf D →
  record_at D (Session.identifier self) (Session.uid self) = Some r →
  let given := (tag, p) :: path_dict in
  let out := Session.attach_files self given now st in
  out.1 = Ok tt ∧
  (Session.files Path self out.2).1
    = Ok ((fun kv => (kv.1, Path kv.2)) <$> pydict.update (files r) given) ∧
  (Session.status self out.2).1 = Ok (status r).
Proof.
  intros Hst Hwf Hr given out. unfold record_at in Hr.
  destruct (pydict.get (Session.identifier self) D) as [rs|] eqn:Hrs; [|done].
  simpl in Hr.
  destruct (log_step validate_dump _ _ None (Some given) now st D rs r
              Hst Hwf Hrs Hr eq_refl) as (Hout & Hst' & Hwf' & _).
  fold (Session.attach_files self given now st) in Hout, Hst'. fold out in Hout, Hst'.
  split; [done|].
  set (r' := log_record None (Some given) now r) in *.
  assert (record_at (pydict.set (Session.identifier self)
                       (pydict.set (Session.uid self) r' rs) D)
            (Session.identifier self) (Session.uid self) = Some r') as Hr'.
  { unfold record_at. rewrite get_set_eq. simpl. by rewrite get_set_eq. }
  split.
  - unfold Session.files, bind. rewrite (get_record_at _ _ _ _ Hst'), Hr'.
    unfold ret. cbn [fst]. f_equal.
    rewrite comprehension_items; [done|].
    assert (record_wf r') as Hrwf; [|exact Hrwf].
    apply record_wf_log_record.
    by eapply (record_wf_get (Session.identifier self) (Session.uid self) rs r D).
  - by rewrite (session_status_run _ _ _ Hst'), Hr'.
Qed.

Lemma allocate_present identifier s p h now st D uid :
  stored st = Some D → data_wf D →
  (allocate identifier s p h now st).1 = Ok uid →
  ∃ D', stored (allocate identifier s p h now st).2 = Some D' ∧ data_wf D' ∧
        record_at D' identifier uid = Some (timestamp_status now (new_RunRecord s h p)).
Proof.
  intros Hst Hwf. rewrite (allocate_run _ _ _ _ _ _ _ Hst). cbn zeta.
  pose proof (data_wf_allocate_on identifier s p h now (maxsize st) D Hwf) as Hwf'.
  revert Hwf'. unfold allocate_on.
  destruct (counter_naming_strategy _ _) as [uid'|e]; cbn [fst snd]; [|done].
  intros Hwf' [= ->]. eexists. split; [by apply (stored_edited_Ok validate_dump)|].
  split; [done|]. unfold record_at. rewrite get_set_eq. simpl. apply get_set_eq.
Qed.

(** X16.  A session made for the uid that [allocate] has just returned
    finds its record: its status is the one given to [allocate], it has
    no files, and [start] and then [done] return and leave it done. *)
Theorem allocated_session_runs self s p h now st D :
  stored st = Some D → data_wf D →
  (allocate (Session.identifier self) s p h now st).1 = Ok (Session.uid self) →
  let st1 := (allocate (Session.identifier self) s p h now st).2 in
  (Session.status self st1).1 = Ok s ∧
  (Session.files Path self st1).1 = Ok [] ∧
  ∀ now1 now2,
    let st2 := (Session.start self now1 st1).2 in
    let st3 := (Session.done self now2 st2).2 in
    (Session.start self now1 st1).1 = Ok tt ∧
    (Session.status self st2).1 = Ok RUNNING ∧
    (Session.done self now2 st2).1 = Ok tt ∧
    (Session.is_done self st3).1 = Ok true.
Proof.
  intros Hst Hwf Hok st1.
  destruct (allocate_present _ s p h now st D _ Hst Hwf Hok) as (D1 & Hst1 & Hwf1 & Hr1).
  fold st1 in Hst1. split; [|split].
  - by rewrite (session_status_run _ _ _ Hst1), Hr1.
  - unfold Session.files, bind. by rewrite (get_record_at _ _ _ _ Hst1), Hr1.
  - intros now1 now2 st2 st3.
    destruct (session_log_status self RUNNING now1 st1 D1 _ Hst1 Hwf1 Hr1)
      as (H2 & D2 & r2 & Hst2 & Hwf2 & Hr2 & Hs2 & _).
    fold (Session.start self now1 st1) in H2, Hst2. fold st2 in Hst2.
    split; [done|].
    split; [rewrite (session_status_run _ _ _ Hst2), Hr2; by rewrite Hs2|].
    destruct (session_log_status self DONE now2 st2 D2 r2 Hst2 Hwf2 Hr2)
      as (H3 & D3 & r3 & Hst3 & _ & Hr3 & Hs3 & _).
    fold (Session.done self now2 st2) in H3, Hst3. fold st3 in Hst3.
    split; [done|].
    rewrite session_is_done_run, (session_status_run _ _ _ Hst3), Hr3. by rewrite Hs3.
Qed.
End session_facts.

(** ** Two processes without the lock *)

Section race_facts.
Context `{DATA_STRUCTURE_MODEL : TypeAdapter}.
Import pydict_facts.

Hypothesis validate_dump :
  ∀ d : DATA_STRUCTURE, data_wf d → validate_json (dump_json d) = Some d.

(** X17.  Without the lock two processes can lose a run.  Whatever the
    document in the file, as long as the identifier has a uid to spare:
    when one process has loaded and the other makes its whole call
    before the first goes on, both calls return the same uid, and the
    file ends with one new record, the one of the process that saved
    last; the record of the other is gone. *)
Theorem lost_update_without_lock identifier f m_false m_true a b D :
  LEDGER_LOCK m_false = false → LEDGER_LOCK m_true = false →
  maxsize m_false = maxsize m_true →
  system_stored (start f m_false m_true [a] [b]) = Some D → data_wf D →
  length (pydict.keys (run_set_of identifier D)) < Z.to_nat (maxsize m_false) →
  ∃ schedule uid,
    let s := run identifier schedule (start f m_false m_true [a] [b]) in
    finished s ∧
    outcomes (proc false s) = [Ok uid] ∧ outcomes (proc true s) = [Ok uid] ∧
    ∃ D', system_stored s = Some D' ∧
      pydict.keys (run_set_of identifier D')
        = pydict.keys (run_set_of identifier D) ++ [uid] ∧
      record_at D' identifier uid
        = Some (timestamp_status (arg_now a)
                  (new_RunRecord (arg_status a) (arg_param_hash a) (arg_relpath a))).
Proof.
  intros Hlf Hlt Hms Hst Hwf Hroom.
  set (s0 := start f m_false m_true [a] [b]).
  destruct (counter_naming_strategy_room _ _ Hroom) as [uid Huid].
  set (st := see f m_false).
  assert (stored st = Some D) as Hstst by exact Hst.
  (* process false enters and loads *)
  pose (s1 := moved false f None
                {| memory := m_false; stage_of := Entered a; todo := [];
                   outcomes := [] |} s0).
  assert (move identifier false s0 = Some s1) as H1.
  { unfold move. cbn. by rewrite Hlf. }
  pose (n := length (objects st)).
  pose (s2 := moved false f None
                {| memory := loaded st D; stage_of := Loaded a n; todo := [];
                   outcomes := [] |} s0).
  assert (∀ schedule,
            run identifier (replicate (match f with Some _ => 2 | None => 1 end) false
                              ++ schedule) s1
            = run identifier schedule s2) as H2.
  { intros schedule.
    exact (load_moves identifier false s1 a st D schedule eq_refl eq_refl Hstst). }
  (* process true makes its whole call *)
  pose proof (solo_allocate identifier true s2 b [] D eq_refl eq_refl eq_refl Hst) as H3.
  cbn zeta in H3.
  change (see (shared_file s2) (memory (proc true s2))) with (see f m_true) in H3.
  change (shared_file s2) with f in H3.
  change (outcomes (proc true s2)) with (@nil (result string)) in H3.
  assert ((allocate identifier (arg_status b) (arg_relpath b) (arg_param_hash b)
             (arg_now b) (see f m_true)).1 = Ok uid) as Hout.
  { assert (stored (see f m_true) = Some D) as Hstt by exact Hst.
    rewrite (allocate_run _ _ _ _ _ _ D Hstt). cbn zeta. cbn [fst].
    rewrite allocate_on_result. change (maxsize (see f m_true)) with (maxsize m_true).
    by rewrite <- Hms. }
  revert H3.
  generalize (allocate identifier (arg_status b) (arg_relpath b) (arg_param_hash b)
                (arg_now b) (see f m_true)) Hout.
  intros [out1 out2]. cbn [fst snd]. intros -> H3.
  set (s3 := moved true (file out2) None
               {| memory := out2; stage_of := Idle; todo := [];
                  outcomes := [] ++ [Ok uid] |} s2) in H3.
  (* process false goes on with the document it loaded before *)
  pose (r := allocate_on identifier (arg_status a) (arg_relpath a) (arg_param_hash a)
               (arg_now a) (maxsize st) D).
  assert (r.1 = Ok uid) as Hr1.
  { unfold r. rewrite allocate_on_result. exact Huid. }
  pose proof (allocate_body_loaded identifier (arg_status a) (arg_relpath a)
                (arg_param_hash a) (arg_now a) st D) as Hbody.
  cbn zeta in Hbody. fold r n in Hbody. rewrite Hr1 in Hbody.
  pose (s4 := moved false (file out2) None
                {| memory := loaded st r.2; stage_of := Edited n uid; todo := [];
                   outcomes := [] |} s3).
  assert (move identifier false s3 = Some s4) as H4.
  { unfold move. cbv zeta.
    change (proc false s3) with {| memory := loaded st D; stage_of := Loaded a n;
                                   todo := []; outcomes := [] |}.
    cbn [stage_of memory]. rewrite Hbody. reflexivity. }
  destruct (_save_run n (see (file out2) (loaded st r.2)) r.2)
    as (m' & Hsave & Hfile & Hlk').
  { apply lookup_last. }
  pose (s5 := moved false (Some (dump_json r.2)) None
                {| memory := m'; stage_of := Leaving (Ok uid); todo := [];
                   outcomes := [] |} s4).
  assert (move identifier false s4 = Some s5) as H5.
  { unfold move. cbv zeta.
    change (proc false s4) with {| memory := loaded st r.2; stage_of := Edited n uid;
                                   todo := []; outcomes := [] |}.
    cbn [stage_of memory]. change (shared_file s4) with (file out2).
    rewrite Hsave, Hfile. reflexivity. }
  pose (s6 := moved false (Some (dump_json r.2)) None
                {| memory := m'; stage_of := Idle; todo := [];
                   outcomes := [] ++ [Ok uid] |} s5).
  assert (move identifier false s5 = Some s6) as H6.
  { unfold move. cbv zeta.
    change (proc false s5) with {| memory := m'; stage_of := Leaving (Ok uid);
                                   todo := []; outcomes := [] |}.
    cbn [stage_of memory todo outcomes]. rewrite Hlk'.
    change (LEDGER_LOCK (see (file out2) (loaded st r.2))) with (LEDGER_LOCK m_false).
    rewrite Hlf. reflexivity. }
  exists ([false] ++ replicate (match f with Some _ => 2 | None => 1 end) false
            ++ replicate (1 + match f with Some _ => 2 | None => 1 end + 3) true
            ++ [false; false; false]), uid.
  assert (run identifier
            ([false] ++ replicate (match f with Some _ => 2 | None => 1 end) false
               ++ replicate (1 + match f with Some _ => 2 | None => 1 end + 3) true
               ++ [false; false; false]) s0 = s6) as ->.
  { cbn [app]. rewrite (run_cons _ _ _ _ _ H1), H2, run_app, H3.
    rewrite (run_cons _ _ _ _ _ H4), (run_cons _ _ _ _ _ H5), (run_cons _ _ _ _ _ H6).
    reflexivity. }
  assert (data_wf r.2) as Hwf' by apply data_wf_allocate_on, Hwf.
  assert (r.2 = pydict.set identifier
                  (pydict.set uid
                     (timestamp_status (arg_now a)
                        (new_RunRecord (arg_status a) (arg_param_hash a) (arg_relpath a)))
                     (run_set_of identifier D))
                  (pydict.setdefault identifier [] D)) as Hr2.
  { unfold r, allocate_on. rewrite run_set_of_setdefault.
    change (maxsize st) with (maxsize m_false). by rewrite Huid. }
  split; [by intros []|]. split; [done|]. split; [done|].
  exists r.2. split; [by apply validate_dump|].
  rewrite record_at_run_set_of, Hr2, run_set_of_set. split.
  - apply keys_set_notin.
    by apply counter_naming_strategy_Ok in Huid as (i & _ & _ & Hnin & _).
  - apply get_set_eq.
Qed.
End race_facts.

(** ** How calls compose *)

Section composition.
Context `{DATA_STRUCTURE_MODEL : TypeAdapter}.
Import pydict_facts.

Hypothesis validate_dump :
  ∀ d : DATA_STRUCTURE, data_wf d → validate_json (dump_json d) = Some d.



Lemma set_same {V} k (v : V) d : pydict.get k d = Some v → pydict.set k v d = d.
Proof.
  unfold pydict.get, pydict.set. induction d as [|[k' v'] d IH]; [done|]. simpl.
  destruct (String.eqb k k'); [by intros [= ->]|]. intros H. by rewrite IH.
Qed.

Lemma update_same {V} (d other : list (string * V)) :
  (∀ k v, (k, v) ∈ other → pydict.get k d = Some v) → pydict.update d other = d.
Proof.
  unfold pydict.update. induction other as [|[k v] other IH]; intros H; simpl; [done|].
  rewrite set_same by (apply H; left). apply IH. intros k' v' Hin. apply H. by right.
Qed.

Lemma update_update {V} (d other : list (string * V)) :
  pydict.wf other → pydict.update (pydict.update d other) other = pydict.update d other.
Proof.
  intros Hwf. apply update_same. intros k v Hin.
  rewrite get_update by done. by rewrite (elem_get k v other Hwf Hin).
Qed.

Lemma set_comm {V} k k' (v v' : V) d :
  k ≠ k' → k ∈ pydict.keys d → k' ∈ pydict.keys d →
  pydict.set k v (pydict.set k' v' d) = pydict.set k' v' (pydict.set k v d).
Proof.
  intros Hne. unfold pydict.keys, pydict.set.
  induction d as [|[k0 v0] d IH]; intros Hk Hk'; [by apply elem_of_nil in Hk|].
  simpl in *. destruct (String.eqb k' k0) eqn:E'; destruct (String.eqb k k0) eqn:E;
    simpl; rewrite ?E, ?E'; try done.
  - apply String.eqb_eq in E, E'. congruence.
  - f_equal. apply String.eqb_neq in E, E'.
    apply elem_of_cons in Hk as [?|Hk]; [done|].
    apply elem_of_cons in Hk' as [?|Hk']; [done|]. by apply IH.
Qed.

Lemma log_record_twice s path_dict now r :
  (∀ given, path_dict = Some given → pydict.wf given) →
  log_record s path_dict now (log_record s path_dict now r)
  = log_record s path_dict now r.
Proof.
  intros Hwf. unfold log_record.
  destruct path_dict as [[|kv given]|]; cbn [path_dict_given default].
  - by destruct s.
  - unfold update_files. cbn [files status param_hash relpath status_time].
    destruct s; cbn [files status param_hash relpath status_time timestamp_status set_status];
      by rewrite update_update by (by apply Hwf).
  - by destruct s.
Qed.

Lemma log_on_present identifier uid s path_dict now D rs r :
  pydict.get identifier D = Some rs → pydict.get uid rs = Some r →
  log_on identifier uid s path_dict now D
  = (Ok tt, pydict.set identifier
              (pydict.set uid (log_record s path_dict now r) rs) D).
Proof.
  intros Hrs Hr. unfold log_on.
  rewrite setdefault_in by (apply get_is_Some; by eexists).
  unfold run_set_of. rewrite Hrs. simpl. by rewrite Hr.
Qed.

(** A [log] call with something to log, for a record that is there. *)
Lemma log_present identifier uid s path_dict now st D rs r :
  stored st = Some D → data_wf D →
  pydict.get identifier D = Some rs → pydict.get uid rs = Some r →
  status_given s || path_dict_given path_dict = true →
  let D' := pydict.set identifier
              (pydict.set uid (log_record s path_dict now r) rs) D in
  log identifier uid s path_dict now st = (Ok tt, edited st (Ok tt) D') ∧
  stored (edited st (Ok tt) D') = Some D' ∧ data_wf D'.
Proof.
  intros Hst Hwf Hrs Hr Hgiven D'.
  rewrite (log_run _ _ _ _ _ _ _ Hst Hgiven), (log_on_present _ _ _ _ _ _ _ _ Hrs Hr).
  split; [done|].
  assert (data_wf D') as Hwf'.
  { pose proof (data_wf_log_on identifier uid s path_dict now D Hwf) as H.
    by rewrite (log_on_present _ _ _ _ _ _ _ _ Hrs Hr) in H. }
  split; [by apply (stored_edited_Ok validate_dump)|done].
Qed.

(** X19.  A [log] call made again with the same arguments at the same
    time changes nothing more: it returns, and the file is what the
    first call left. *)
Theorem log_twice_is_log_once identifier uid s path_dict now st D r :
  stored st = Some D → data_wf D →
  record_at D identifier uid = Some r →
  (∀ given, path_dict = Some given → pydict.wf given) →
  let once := log identifier uid s path_dict now st in
  let twice := log identifier uid s path_dict now once.2 in
  once.1 = Ok tt ∧ twice.1 = Ok tt ∧ file twice.2 = file once.2.
Proof.
  intros Hst Hwf Hr Hgwf once twice.
  destruct (status_given s || path_dict_given path_dict) eqn:Hgiven.
  - unfold record_at in Hr.
    destruct (pydict.get identifier D) as [rs|] eqn:Hrs; [|done]. simpl in Hr.
    destruct (log_present identifier uid s path_dict now st D rs r
                Hst Hwf Hrs Hr Hgiven) as (H1 & Hst1 & Hwf1).
    set (r1 := log_record s path_dict now r) in *.
    set (D1 := pydict.set identifier (pydict.set uid r1 rs) D) in *.
    assert (once = (Ok tt, edited st (Ok tt) D1)) as Honce by exact H1.
    destruct (log_present identifier uid s path_dict now (edited st (Ok tt) D1) D1
                (pydict.set uid r1 rs) r1 Hst1 Hwf1) as (H2 & _); [| |done|].
    { unfold D1. apply get_set_eq. }
    { apply get_set_eq. }
    assert (twice = log identifier uid s path_dict now (edited st (Ok tt) D1)) as Htwice
      by (unfold twice; by rewrite Honce).
    rewrite Htwice, H2, Honce. cbn [fst snd].
    split; [done|]. split; [done|].
    unfold r1 at 1. rewrite log_record_twice by done. fold r1.
    unfold D1. by rewrite !set_set.
  - subst once twice. unfold log. rewrite Hgiven. done.
Qed.

(** X20.  The three queries agree: [get_record] returns a record
    exactly when it is in the run-set that [get_uid_record_dict] returns,
    under its uid; and the run that [find_by_param_hash] finds can be
    fetched by [get_record] under the uid found, with the fingerprint
    asked for. *)
Theorem queries_agree identifier st D :
  stored st = Some D → data_wf D →
  (∀ uid r,
     (get_record identifier uid st).1 = Ok r ↔
     ∃ rs, (get_uid_record_dict identifier st).1 = Ok rs ∧ pydict.get uid rs = Some r) ∧
  (∀ h uid r,
     (find_by_param_hash identifier (Some h) st).1 = Ok (Some (uid, r)) →
     (get_record identifier uid st).1 = Ok r ∧ param_hash r = Some h).
Proof.
  intros Hst Hwf. split.
  - intros uid r.
    rewrite (get_record_run _ _ _ _ Hst), (get_uid_record_dict_run _ _ _ Hst). cbn [fst].
    destruct (pydict.get identifier D) as [rs|]; split.
    + destruct (pydict.get uid rs) as [r'|] eqn:E; [|done]. intros [= ->]. by exists rs.
    + intros (rs' & [= <-] & ->). done.
    + done.
    + by intros (rs' & ? & _).
  - intros h uid r.
    rewrite (get_record_run _ _ _ _ Hst), (find_by_param_hash_run _ _ _ _ Hst). cbn [fst].
    destruct (pydict.get identifier D) as [rs|] eqn:Hrs; [|done]. intros [= Hfind].
    apply find_some in Hfind as [Hin Hm]. apply hash_matches_true in Hm.
    split; [|exact Hm].
    destruct Hwf as [_ HF].
    pose proof (get_Forall run_set_wf _ _ _ Hrs HF) as [Hrswf _].
    rewrite (elem_get uid r rs Hrswf); [done|]. by apply list_elem_of_In.
Qed.

(** Two records that are there, each replaced: in either order. *)
Lemma replace_two_records i1 u1 i2 u2 (a b : RunRecord) D rs1 rs2 r1 r2 :
  pydict.get i1 D = Some rs1 → pydict.get u1 rs1 = Some r1 →
  pydict.get i2 D = Some rs2 → pydict.get u2 rs2 = Some r2 →
  (i1, u1) ≠ (i2, u2) →
  let D1 := pydict.set i1 (pydict.set u1 a rs1) D in
  let D2 := pydict.set i2 (pydict.set u2 b rs2) D in
  ∃ rs2' rs1',
    pydict.get i2 D1 = Some rs2' ∧ pydict.get u2 rs2' = Some r2 ∧
    pydict.get i1 D2 = Some rs1' ∧ pydict.get u1 rs1' = Some r1 ∧
    pydict.set i2 (pydict.set u2 b rs2') D1 = pydict.set i1 (pydict.set u1 a rs1') D2.
Proof.
  intros Hrs1 Hr1 Hrs2 Hr2 Hne D1 D2. unfold D1, D2.
  destruct (decide (i1 = i2)) as [<-|Hi].
  - assert (rs2 = rs1) as -> by congruence.
    assert (u1 ≠ u2) as Hu by congruence.
    exists (pydict.set u1 a rs1), (pydict.set u2 b rs1).
    rewrite !get_set_eq, !set_set.
    rewrite (get_set_ne u1 u2) by done. rewrite (get_set_ne u2 u1) by done.
    repeat split; try done. f_equal.
    symmetry. apply set_comm; [done| |]; apply get_is_Some; by eexists.
  - exists rs2, rs1.
    rewrite (get_set_ne i1 i2) by done. rewrite (get_set_ne i2 i1) by done.
    repeat split; try done.
    apply set_comm; [done| |]; apply get_is_Some; by eexists.
Qed.

(** Two [log] calls for two different records that are there, each with
    the clock reading it gets: in either order. *)
Lemma logs_commute_same_readings i1 u1 s1 pd1 now1 i2 u2 s2 pd2 now2 st D r1 r2 :
  stored st = Some D → data_wf D →
  record_at D i1 u1 = Some r1 → record_at D i2 u2 = Some r2 →
  (i1, u1) ≠ (i2, u2) →
  let first := log i1 u1 s1 pd1 now1 in
  let second := log i2 u2 s2 pd2 now2 in
  (second (first st).2).1 = Ok tt ∧ (first (second st).2).1 = Ok tt ∧
  file (second (first st).2).2 = file (first (second st).2).2.
Proof.
  intros Hst Hwf Hr1 Hr2 Hne first second. unfold record_at in Hr1, Hr2.
  destruct (pydict.get i1 D) as [rs1|] eqn:Hrs1; [|done].
  destruct (pydict.get i2 D) as [rs2|] eqn:Hrs2; [|done]. simpl in Hr1, Hr2.
  destruct (status_given s1 || path_dict_given pd1) eqn:Hg1;
    destruct (status_given s2 || path_dict_given pd2) eqn:Hg2.
  - destruct (replace_two_records i1 u1 i2 u2 (log_record s1 pd1 now1 r1)
                (log_record s2 pd2 now2 r2) D rs1 rs2 r1 r2 Hrs1 Hr1 Hrs2 Hr2 Hne)
      as (rs2' & rs1' & Hrs2' & Hr2' & Hrs1' & Hr1' & Heq).
    destruct (log_present i1 u1 s1 pd1 now1 st D rs1 r1 Hst Hwf Hrs1 Hr1 Hg1)
      as (H1 & Hst1 & Hwf1).
    destruct (log_present i2 u2 s2 pd2 now2 st D rs2 r2 Hst Hwf Hrs2 Hr2 Hg2)
      as (H2 & Hst2 & Hwf2).
    destruct (log_present i2 u2 s2 pd2 now2 _ _ rs2' r2 Hst1 Hwf1 Hrs2' Hr2' Hg2)
      as (H12 & _).
    destruct (log_present i1 u1 s1 pd1 now1 _ _ rs1' r1 Hst2 Hwf2 Hrs1' Hr1' Hg1)
      as (H21 & _).
    unfold first, second. rewrite H1, H2. cbn [snd]. rewrite H12, H21. cbn [fst snd].
    split; [done|]. split; [done|]. cbn [edited file]. by rewrite Heq.
  - destruct (log_present i1 u1 s1 pd1 now1 st D rs1 r1 Hst Hwf Hrs1 Hr1 Hg1)
      as (H1 & _).
    assert (∀ st', second st' = (Ok tt, st')) as Hnoop
      by (intros st'; unfold second, log; by rewrite Hg2).
    rewrite !Hnoop. cbn [fst snd]. unfold first. by rewrite H1.
  - destruct (log_present i2 u2 s2 pd2 now2 st D rs2 r2 Hst Hwf Hrs2 Hr2 Hg2)
      as (H2 & _).
    assert (∀ st', first st' = (Ok tt, st')) as Hnoop
      by (intros st'; unfold first, log; by rewrite Hg1).
    rewrite !Hnoop. cbn [fst snd]. unfold second. by rewrite H2.
  - assert (∀ st', first st' = (Ok tt, st')) as Hnoop1
      by (intros st'; unfold first, log; by rewrite Hg1).
    assert (∀ st', second st' = (Ok tt, st')) as Hnoop2
      by (intros st'; unfold second, log; by rewrite Hg2).
    by rewrite !Hnoop1, !Hnoop2.
Qed.

(** A [log] call for a record that is there, with or without something
    to log. *)
Lemma log_there identifier uid s path_dict now st D rs r :
  stored st = Some D → data_wf D →
  pydict.get identifier D = Some rs → pydict.get uid rs = Some r →
  let D' := pydict.set identifier
              (pydict.set uid (log_record s path_dict now r) rs) D in
  (log identifier uid s path_dict now st).1 = Ok tt ∧
  stored (log identifier uid s path_dict now st).2 = Some D' ∧ data_wf D'.
Proof.
  intros Hst Hwf Hrs Hr D'.
  destruct (status_given s || path_dict_given path_dict) eqn:Hgiven.
  - destruct (log_present identifier uid s path_dict now st D rs r
                Hst Hwf Hrs Hr Hgiven) as (H1 & Hst1 & Hwf1).
    by rewrite H1.
  - assert (D' = D) as ->.
    { unfold D', log_record. apply orb_false_elim in Hgiven as [Hs Hp].
      rewrite Hp. destruct s; [done|].
      by rewrite (set_same _ _ _ Hr), (set_same _ _ _ Hrs). }
    unfold log. by rewrite Hgiven.
Qed.

(** The reading of the clock matters to [log] only with a status. *)
Lemma log_reading identifier uid s path_dict now now' :
  (status_given s = true → now = now') →
  log identifier uid s path_dict now = log identifier uid s path_dict now'.
Proof. destruct s; [intros <-|]; done. Qed.

Lemma same_but_stamp_log_record s path_dict now now' r :
  same_but_stamp (log_record s path_dict now r) (log_record s path_dict now' r).
Proof.
  unfold same_but_stamp, log_record.
  by destruct s, (path_dict_given path_dict).
Qed.

Lemma status_time_log_record s path_dict now r :
  status_time (log_record s path_dict now r)
  = if status_given s then Some now else status_time r.
Proof. unfold log_record. by destruct s, (path_dict_given path_dict). Qed.

(** The record at a place of a document where one record was replaced. *)
Lemma record_at_replaced identifier uid (x : RunRecord) D rs identifier' uid' :
  pydict.get identifier D = Some rs →
  record_at (pydict.set identifier (pydict.set uid x rs) D) identifier' uid'
  = if decide ((identifier', uid') = (identifier, uid)) then Some x
    else record_at D identifier' uid'.
Proof.
  intros Hrs. unfold record_at. rewrite get_set.
  destruct (String.eqb_spec identifier' identifier) as [->|Hi]; simpl.
  - rewrite get_set, Hrs. simpl.
    destruct (String.eqb_spec uid' uid) as [->|Hu].
    + by rewrite decide_True.
    + rewrite decide_False; [done|congruence].
  - rewrite decide_False; [done|congruence].
Qed.

Lemma keys_replaced identifier uid (x r : RunRecord) D rs :
  pydict.get identifier D = Some rs → pydict.get uid rs = Some r →
  let D' := pydict.set identifier (pydict.set uid x rs) D in
  pydict.keys D' = pydict.keys D ∧
  ∀ identifier', pydict.keys (run_set_of identifier' D')
                 = pydict.keys (run_set_of identifier' D).
Proof.
  intros Hrs Hr D'. split.
  - apply keys_set_in, get_is_Some. by eexists.
  - intros identifier'. unfold D', run_set_of. rewrite get_set.
    destruct (String.eqb_spec identifier' identifier) as [->|Hi]; [|done].
    rewrite Hrs. simpl. apply keys_set_in, get_is_Some. by eexists.
Qed.

(** X21.  Two [log] calls for two different records that are there,
    made one after the other in either order, each reading the clock
    when it runs: both return.  The documents of the two orders have
    the same keys in the same places, and every record has the same
    status, fingerprint, path and files in both; each of the two
    records is what its own call makes of it at its own reading of the
    clock, and the others are untouched.  So the two orders can differ
    only in the times of the statuses of the two records, and leave the
    same file when each call that sets a status reads the same time in
    both orders, as when neither sets one. *)
Theorem logs_of_two_runs_commute i1 u1 s1 pd1 i2 u2 s2 pd2 ta tb tb' ta' st D r1 r2 :
  stored st = Some D → data_wf D →
  record_at D i1 u1 = Some r1 → record_at D i2 u2 = Some r2 →
  (i1, u1) ≠ (i2, u2) →
  let ab := log i2 u2 s2 pd2 tb (log i1 u1 s1 pd1 ta st).2 in
  let ba := log i1 u1 s1 pd1 ta' (log i2 u2 s2 pd2 tb' st).2 in
  ab.1 = Ok tt ∧ ba.1 = Ok tt ∧
  ((status_given s1 = true → ta = ta') → (status_given s2 = true → tb = tb') →
   file ab.2 = file ba.2) ∧
  ∃ Dab Dba,
    stored ab.2 = Some Dab ∧ stored ba.2 = Some Dba ∧
    pydict.keys Dab = pydict.keys Dba ∧
    (∀ identifier,
       pydict.keys (run_set_of identifier Dab) = pydict.keys (run_set_of identifier Dba)) ∧
    (∀ identifier uid,
       option_Forall2 same_but_stamp
         (record_at Dab identifier uid) (record_at Dba identifier uid)) ∧
    (∀ identifier uid,
       (identifier, uid) ≠ (i1, u1) → (identifier, uid) ≠ (i2, u2) →
       record_at Dab identifier uid = record_at D identifier uid ∧
       record_at Dba identifier uid = record_at D identifier uid) ∧
    record_at Dab i1 u1 = Some (log_record s1 pd1 ta r1) ∧
    record_at Dba i1 u1 = Some (log_record s1 pd1 ta' r1) ∧
    record_at Dab i2 u2 = Some (log_record s2 pd2 tb r2) ∧
    record_at Dba i2 u2 = Some (log_record s2 pd2 tb' r2).
Proof.
  intros Hst Hwf Hr1 Hr2 Hne ab ba.
  pose proof Hr1 as Hat1. pose proof Hr2 as Hat2.
  unfold record_at in Hr1, Hr2.
  destruct (pydict.get i1 D) as [rs1|] eqn:Hrs1; [|done].
  destruct (pydict.get i2 D) as [rs2|] eqn:Hrs2; [|done]. simpl in Hr1, Hr2.
  set (a := log_record s1 pd1 ta r1). set (a' := log_record s1 pd1 ta' r1).
  set (b := log_record s2 pd2 tb r2). set (b' := log_record s2 pd2 tb' r2).
  destruct (replace_two_records i1 u1 i2 u2 a b D rs1 rs2 r1 r2 Hrs1 Hr1 Hrs2 Hr2 Hne)
    as (rs2' & _ & Hrs2' & Hr2' & _ & _ & _).
  destruct (replace_two_records i1 u1 i2 u2 a' b' D rs1 rs2 r1 r2 Hrs1 Hr1 Hrs2 Hr2 Hne)
    as (_ & rs1' & _ & _ & Hrs1' & Hr1' & _).
  destruct (log_there i1 u1 s1 pd1 ta st D rs1 r1 Hst Hwf Hrs1 Hr1)
    as (Ha & Hsta & Hwfa).
  destruct (log_there i2 u2 s2 pd2 tb' st D rs2 r2 Hst Hwf Hrs2 Hr2)
    as (Hb & Hstb & Hwfb).
  destruct (log_there i2 u2 s2 pd2 tb _ _ rs2' r2 Hsta Hwfa Hrs2' Hr2')
    as (Hab & Hstab & _).
  destruct (log_there i1 u1 s1 pd1 ta' _ _ rs1' r1 Hstb Hwfb Hrs1' Hr1')
    as (Hba & Hstba & _).
  split; [exact Hab|]. split; [exact Hba|]. split.
  { intros H1 H2. unfold ab, ba.
    rewrite <- (log_reading i1 u1 s1 pd1 ta ta' H1).
    rewrite <- (log_reading i2 u2 s2 pd2 tb tb' H2).
    by apply (logs_commute_same_readings i1 u1 s1 pd1 ta i2 u2 s2 pd2 tb st D r1 r2). }
  eexists _, _. split; [exact Hstab|]. split; [exact Hstba|].
  fold a a' b b'.
  destruct (keys_replaced i1 u1 a r1 D rs1 Hrs1 Hr1) as [Hk1 Hks1].
  destruct (keys_replaced i2 u2 b' r2 D rs2 Hrs2 Hr2) as [Hk2 Hks2].
  destruct (keys_replaced i2 u2 b r2 _ rs2' Hrs2' Hr2') as [Hk12 Hks12].
  destruct (keys_replaced i1 u1 a' r1 _ rs1' Hrs1' Hr1') as [Hk21 Hks21].
  cbn zeta in *.
  assert (∀ identifier uid,
    record_at (pydict.set i2 (pydict.set u2 b rs2')
                 (pydict.set i1 (pydict.set u1 a rs1) D)) identifier uid
    = if decide ((identifier, uid) = (i1, u1)) then Some a
      else if decide ((identifier, uid) = (i2, u2)) then Some b
      else record_at D identifier uid) as Rab.
  { intros identifier uid.
    rewrite (record_at_replaced _ _ _ _ _ _ _ Hrs2'), (record_at_replaced _ _ _ _ _ _ _ Hrs1).
    repeat case_decide; congruence. }
  assert (∀ identifier uid,
    record_at (pydict.set i1 (pydict.set u1 a' rs1')
                 (pydict.set i2 (pydict.set u2 b' rs2) D)) identifier uid
    = if decide ((identifier, uid) = (i1, u1)) then Some a'
      else if decide ((identifier, uid) = (i2, u2)) then Some b'
      else record_at D identifier uid) as Rba.
  { intros identifier uid.
    by rewrite (record_at_replaced _ _ _ _ _ _ _ Hrs1'), (record_at_replaced _ _ _ _ _ _ _ Hrs2). }
  split; [by rewrite Hk12, Hk1, Hk21, Hk2|].
  split; [intros identifier; by rewrite Hks12, Hks1, Hks21, Hks2|].
  split.
  { intros identifier uid. rewrite Rab, Rba. repeat case_decide.
    - constructor. apply same_but_stamp_log_record.
    - constructor. apply same_but_stamp_log_record.
    - destruct (record_at D identifier uid); constructor. done. }
  split.
  { intros identifier uid H1 H2. rewrite Rab, Rba.
    by repeat case_decide. }
  rewrite !Rab, !Rba. by repeat case_decide.
Qed.
End composition.

(** ** Two processes with the lock, and one process *)

Section serial_facts.
Context `{DATA_STRUCTURE_MODEL : TypeAdapter}.
Import pydict_facts.

Hypothesis validate_dump :
  ∀ d : DATA_STRUCTURE, data_wf d → validate_json (dump_json d) = Some d.

Lemma replay_snoc identifier ms h c D :
  replay identifier ms (h ++ [c]) D =
    (let R := replay identifier ms h D in
     let r := allocate_doc identifier ms c.2 R.2 in
     (R.1 ++ [(c.1, r.1)], r.2)).
Proof. unfold replay. by rewrite foldl_app. Qed.

Lemma of_process_snoc_same {A} p (l : list (bool * A)) x :
  of_process p (l ++ [(p, x)]) = of_process p l ++ [x].
Proof.
  unfold of_process. rewrite filter_app, fmap_app. f_equal.
  rewrite filter_cons_True by done. done.
Qed.

Lemma of_process_snoc_other {A} p q (l : list (bool * A)) x :
  q ≠ p → of_process p (l ++ [(q, x)]) = of_process p l.
Proof.
  intros Hne. unfold of_process. rewrite filter_app, fmap_app.
  rewrite filter_cons_False by done. simpl. by rewrite app_nil_r.
Qed.

Lemma negb_ne p : negb p ≠ p.
Proof. by destruct p. Qed.

Lemma other_process p q : q ≠ p → q = negb p.
Proof. by destruct p, q. Qed.

(** The invariant after a move of [p] while the other process is
    between two calls. *)
Lemma serial_moved identifier D0 ms calls p s h f' hd pr' h' :
  stage_of (proc (negb p) s) = Idle →
  serial_invariant identifier D0 ms calls s h →
  data_wf (replay identifier ms h' D0).2 →
  maxsize (memory pr') = ms →
  (∀ a, stage_of pr' = Exists a → is_Some f') →
  of_process p (replay identifier ms h' D0).1 = outcomes pr' ++ pending pr' →
  of_process (negb p) (replay identifier ms h' D0).1
    = of_process (negb p) (replay identifier ms h D0).1 →
  of_process p h' ++ calls_left pr' = of_process p h ++ calls_left (proc p s) →
  of_process (negb p) h' = of_process (negb p) h →
  match stage_of pr' with
  | Edited data _ => objects (memory pr') !! data = Some (replay identifier ms h' D0).2
  | Loaded _ data =>
      objects (memory pr') !! data = Some (replay identifier ms h' D0).2 ∧
      match f' with None => Some [] | Some b => validate_json b end
        = Some (replay identifier ms h' D0).2
  | _ => match f' with None => Some [] | Some b => validate_json b end
           = Some (replay identifier ms h' D0).2
  end →
  serial_invariant identifier D0 ms calls (moved p f' hd pr' s) h'.
Proof.
  intros Hq (_ & Hms & _ & Houts & Hcalls & _) Hwf' Hms' Hex' Houts' Houtsq Hcalls' Hcallsq
    Hdoc'.
  unfold serial_invariant. cbv zeta. split; [done|].
  split; [|split; [|split; [|split]]].
  - intros p0. rewrite proc_moved. destruct (Bool.eqb p0 p); [done|apply Hms].
  - intros p0 a. rewrite proc_moved. destruct (Bool.eqb_spec p0 p) as [->|Hne].
    + apply Hex'.
    + apply other_process in Hne as ->. by rewrite Hq.
  - intros p0. rewrite proc_moved. destruct (Bool.eqb_spec p0 p) as [->|Hne]; [done|].
    apply other_process in Hne as ->. rewrite Houtsq. apply Houts.
  - intros p0. rewrite proc_moved. destruct (Bool.eqb_spec p0 p) as [->|Hne].
    + rewrite Hcalls'. apply Hcalls.
    + apply other_process in Hne as ->. rewrite Hcallsq. apply Hcalls.
  - intros p0. rewrite !proc_moved. destruct (Bool.eqb_spec p0 p) as [->|Hne].
    + intros _. exact Hdoc'.
    + apply other_process in Hne as ->. rewrite Bool.negb_involutive.
      rewrite Bool.eqb_reflx. intros Hin. rewrite Hq.
      unfold inside in Hin. by destruct (stage_of pr').
Qed.

Lemma _save_state data m D :
  objects m !! data = Some D →
  ∃ m', _save data m = (Ok tt, m') ∧ file m' = Some (dump_json D) ∧
        maxsize m' = maxsize m.
Proof.
  intros Hobj. destruct m as [f ms objs cache lk tr]. simpl in *.
  unfold _save, bind, deref. simpl. rewrite Hobj. simpl.
  eexists. split; [reflexivity|]. done.
Qed.

(** Every move keeps the invariant; the body of a call adds the call to
    the calls that are over. *)
Lemma move_serial identifier D0 ms calls p s s' h :
  invariant identifier D0 s → serial_invariant identifier D0 ms calls s h →
  move identifier p s = Some s' →
  ∃ h', serial_invariant identifier D0 ms calls s' h'.
Proof.
  intros Hinv Hser Hmove.
  pose proof Hinv as (Hlock & Hhold & _).
  pose proof Hser as (Hwf & Hms & Hex & Houts & Hcalls & Hdoc).
  unfold move in Hmove. pose proof (Hlock p) as Hlp.
  assert (inside (proc p s) = true → stage_of (proc (negb p) s) = Idle) as Hother.
  { intros Hin. apply (not_inside_other s p (negb p)); [done|done|apply negb_ne]. }
  assert (stage_of (proc (negb p) s) = Idle → inside (proc (negb p) s) = false) as Hout.
  { intros Hq. unfold inside. by rewrite Hq. }
  pose proof (Hdoc p) as Hd. pose proof (Houts p) as Ho. pose proof (Hcalls p) as Hc.
  unfold pending in Ho. unfold calls_left in Hc.
  destruct (stage_of (proc p s)) as [|a|a|a data|data uid|out] eqn:Hsg.
  - (* entering [with lock:] *)
    destruct (todo (proc p s)) as [|a rest] eqn:Htodo; [done|].
    rewrite Hlp in Hmove. destruct (holder s) as [hd|] eqn:Hh; [done|].
    injection Hmove as <-.
    assert (stage_of (proc (negb p) s) = Idle) as Hq.
    { destruct (inside (proc (negb p) s)) eqn:Hin.
      - apply Hhold in Hin. congruence.
      - unfold inside in Hin. by destruct (stage_of (proc (negb p) s)). }
    exists h. apply (serial_moved identifier D0 ms calls p s h); try done.
    all: try (simpl; by apply Hms).
    all: try (unfold calls_left; simpl; by rewrite Hsg, Htodo).
    simpl. by apply Hd, Hout.
  - (* the test that the file exists *)
    assert (inside (proc p s) = true) as Hin by (unfold inside; by rewrite Hsg).
    pose proof (Hother Hin) as Hq. specialize (Hd (Hout Hq)).
    unfold file_exists, bind in Hmove. simpl in Hmove.
    destruct (shared_file s) as [b|] eqn:Hfile; injection Hmove as <-;
      exists h; rewrite <- Hfile; apply (serial_moved identifier D0 ms calls p s h);
      try done.
    all: try (simpl; by apply Hms).
    all: try (unfold calls_left; simpl; by rewrite Hsg).
    all: try (intros _ _; rewrite Hfile; by eexists).
    simpl. unfold system_stored in Hd. rewrite Hfile in *.
    split; [|done]. injection Hd as <-. apply lookup_last.
  - (* the read *)
    assert (inside (proc p s) = true) as Hin by (unfold inside; by rewrite Hsg).
    pose proof (Hother Hin) as Hq. specialize (Hd (Hout Hq)).
    destruct (Hex p a Hsg) as [b Hfile].
    unfold _load_existing, read_bytes, bind in Hmove. simpl in Hmove.
    unfold system_stored in Hd. rewrite Hfile in Hmove, Hd. rewrite Hd in Hmove.
    simpl in Hmove. injection Hmove as <-.
    exists h. rewrite <- Hfile. apply (serial_moved identifier D0 ms calls p s h); try done.
    all: try (simpl; by apply Hms).
    all: try (unfold calls_left; simpl; by rewrite Hsg).
    simpl. rewrite Hfile. split; [apply lookup_last|done].
  - (* the body of [allocate] *)
    assert (inside (proc p s) = true) as Hin by (unfold inside; by rewrite Hsg).
    pose proof (Hother Hin) as Hq. destruct (Hd (Hout Hq)) as [Hobj Hst].
    destruct (allocate_body_run identifier (arg_status a) (arg_relpath a)
                (arg_param_hash a) (arg_now a) data (memory (proc p s)) _ Hobj)
      as (m' & Hrun & Hobj' & _ & Hms').
    rewrite Hrun in Hmove.
    pose proof (data_wf_allocate_on identifier (arg_status a) (arg_relpath a)
                  (arg_param_hash a) (arg_now a) (maxsize (memory (proc p s))) _ Hwf)
      as Hwf1.
    pose proof (replay_snoc identifier ms h (p, a) D0) as Hsnoc.
    cbv zeta in Hsnoc. unfold allocate_doc in Hsnoc. cbn [fst snd] in Hsnoc.
    rewrite (Hms p) in *.
    exists (h ++ [(p, a)]).
    destruct (allocate_on _ _ _ _ _ _ _) as [[uid|e] D1]; cbn [fst snd] in *;
      injection Hmove as <-; apply (serial_moved identifier D0 ms calls p s h);
      rewrite ?Hsnoc; cbn [fst snd]; try done.
    all: try (simpl; congruence).
    all: try (apply of_process_snoc_other; by destruct p).
    all: try (rewrite of_process_snoc_same; simpl; rewrite Ho; by rewrite app_nil_r).
    all: try (rewrite of_process_snoc_same, <- app_assoc; unfold calls_left; simpl;
              by rewrite Hsg).
  - (* the write *)
    assert (inside (proc p s) = true) as Hin by (unfold inside; by rewrite Hsg).
    pose proof (Hother Hin) as Hq. specialize (Hd (Hout Hq)).
    destruct (_save_state data (see (shared_file s) (memory (proc p s))) _ Hd)
      as (m' & Hrun & Hfile & Hms').
    rewrite Hrun in Hmove. injection Hmove as <-.
    exists h. apply (serial_moved identifier D0 ms calls p s h); try done.
    all: try (simpl; rewrite Hms'; by apply Hms).
    all: try (unfold calls_left; simpl; by rewrite Hsg).
    simpl. rewrite Hfile. by apply validate_dump.
  - (* leaving [with lock:] *)
    assert (inside (proc p s) = true) as Hin by (unfold inside; by rewrite Hsg).
    pose proof (Hother Hin) as Hq. specialize (Hd (Hout Hq)).
    rewrite Hlp in Hmove. injection Hmove as <-.
    exists h. apply (serial_moved identifier D0 ms calls p s h); try done.
    all: try (simpl; by apply Hms).
    all: try (unfold calls_left; simpl; by rewrite Hsg).
    simpl. unfold pending. simpl. by rewrite app_nil_r.
Qed.

Lemma run_serial identifier D0 ms calls schedule : ∀ s h,
  invariant identifier D0 s → serial_invariant identifier D0 ms calls s h →
  ∃ h', serial_invariant identifier D0 ms calls (run identifier schedule s) h'.
Proof.
  induction schedule as [|p schedule IH]; intros s h Hinv Hser; simpl; [by exists h|].
  destruct (move identifier p s) as [s'|] eqn:Hmove; simpl; [|by apply (IH s h)].
  destruct (move_serial identifier D0 ms calls p s s' h Hinv Hser Hmove) as [h' Hser'].
  apply (IH s' h'); [|done].
  by apply (move_invariant validate_dump identifier D0 p s s').
Qed.

Lemma start_serial identifier f m_false m_true calls_false calls_true D :
  maxsize m_false = maxsize m_true →
  system_stored (start f m_false m_true calls_false calls_true) = Some D →
  data_wf D →
  serial_invariant identifier D (maxsize m_false)
    (fun p : bool => if p then calls_true else calls_false)
    (start f m_false m_true calls_false calls_true) [].
Proof.
  intros Hms Hst Hwf. split; [done|]. split; [by intros []|].
  split; [by intros []|]. split; [by intros []|]. split; [by intros []|].
  by intros [].
Qed.

Lemma replay_acc identifier ms h : ∀ acc D,
  foldl (fun acc c =>
           let r := allocate_doc identifier ms c.2 acc.2 in
           (acc.1 ++ [(c.1, r.1)], r.2)) (acc, D) h
  = (acc ++ (replay identifier ms h D).1, (replay identifier ms h D).2).
Proof.
  unfold replay. induction h as [|c h IH]; intros acc D; simpl.
  - by rewrite app_nil_r.
  - rewrite IH. rewrite (IH [_]). simpl. by rewrite <- app_assoc.
Qed.

Lemma replay_cons identifier ms c h D :
  replay identifier ms (c :: h) D =
    (let r := allocate_doc identifier ms c.2 D in
     let R := replay identifier ms h r.2 in
     ((c.1, r.1) :: R.1, R.2)).
Proof. unfold replay at 1. simpl. by rewrite replay_acc. Qed.

Lemma replay_tags identifier ms h : ∀ D, (replay identifier ms h D).1.*1 = h.*1.
Proof.
  induction h as [|c h IH]; intros D; [done|].
  rewrite replay_cons. cbv zeta. cbn [fst]. rewrite !fmap_cons. by rewrite IH.
Qed.

(** One call of the method is one step of the replay. *)
Lemma allocate_doc_run identifier a st D :
  stored st = Some D → data_wf D →
  let out := allocate identifier (arg_status a) (arg_relpath a) (arg_param_hash a)
               (arg_now a) st in
  let r := allocate_doc identifier (maxsize st) a D in
  out.1 = r.1 ∧ stored out.2 = Some r.2 ∧ data_wf r.2 ∧ maxsize out.2 = maxsize st ∧
  (perform (Allocate identifier a) st).2 = out.2.
Proof.
  intros Hst Hwf. cbv zeta. unfold perform, bind, allocate_doc.
  rewrite (allocate_run _ _ _ _ _ _ _ Hst). cbn zeta.
  pose proof (data_wf_allocate_on identifier (arg_status a) (arg_relpath a)
                (arg_param_hash a) (arg_now a) (maxsize st) D Hwf) as Hwf'.
  destruct (allocate_on _ _ _ _ _ _ _) as [[uid|e] D']; cbn [fst snd] in *.
  - split; [done|]. split; [by apply (stored_edited_Ok validate_dump)|]. done.
  - done.
Qed.

(** The calls made by one process through the method are the replay. *)
Lemma allocations_replay identifier h : ∀ st D,
  stored st = Some D → data_wf D →
  (allocations identifier h.*2 st).*2 = (replay identifier (maxsize st) h D).1.*2 ∧
  stored (perform_all (Allocate identifier <$> h.*2) st)
    = Some (replay identifier (maxsize st) h D).2.
Proof.
  induction h as [|[p a] h IH]; intros st D Hst Hwf; [done|].
  rewrite replay_cons. cbv zeta. rewrite !fmap_cons. cbn [fst snd allocations perform_all].
  destruct (allocate_doc_run identifier a st D Hst Hwf) as (H1 & Hst' & Hwf' & Hms & Hp).
  destruct (IH _ _ Hst' Hwf') as [IH1 IH2]. rewrite Hms in IH1, IH2.
  rewrite !fmap_cons. cbn [snd]. rewrite Hp, H1, IH1, IH2. done.
Qed.

(** X22.  Two processes with the lock are one process: however the
    steps of their [allocate] calls interleave, when both are done there
    is an order of all the calls, with the calls of each process in the
    order it made them, such that one ledger object making the calls in
    this order, one whole call after the other on the file as it was at
    the start, gets for every call what the process that made it got,
    and leaves the same document in the file. *)
Theorem allocate_serializable identifier schedule f m_false m_true calls_false
    calls_true D :
  LEDGER_LOCK m_false = true → LEDGER_LOCK m_true = true →
  maxsize m_false = maxsize m_true →
  system_stored (start f m_false m_true calls_false calls_true) = Some D →
  data_wf D →
  let s := run identifier schedule (start f m_false m_true calls_false calls_true) in
  finished s →
  ∃ h : list (bool * allocate_args),
    of_process false h = calls_false ∧ of_process true h = calls_true ∧
    let st := see f m_false in
    let outs := (allocations identifier h.*2 st).*2 in
    (∀ p, outcomes (proc p s) = of_process p (zip h.*1 outs)) ∧
    system_stored s = stored (perform_all (Allocate identifier <$> h.*2) st).
Proof.
  intros Hlf Hlt Hms Hst Hwf s Hfin.
  destruct (run_serial identifier D (maxsize m_false)
              (fun p : bool => if p then calls_true else calls_false) schedule _ []
              (start_invariant identifier f m_false m_true calls_false calls_true D
                 Hlf Hlt Hst Hwf)
              (start_serial identifier f m_false m_true calls_false calls_true D
                 Hms Hst Hwf))
    as (h & _ & _ & _ & Houts & Hcalls & Hdoc).
  fold s in Houts, Hcalls, Hdoc.
  assert (∀ p, stage_of (proc p s) = Idle) as Hidle by (intros p; apply Hfin).
  exists h.
  assert (∀ p, of_process p h = if p then calls_true else calls_false) as Hc.
  { intros p. rewrite <- (Hcalls p). unfold calls_left. rewrite (Hidle p).
    destruct (Hfin p) as [_ ->]. by rewrite app_nil_r. }
  split; [exact (Hc false)|]. split; [exact (Hc true)|]. cbv zeta.
  destruct (allocations_replay identifier h (see f m_false) D Hst Hwf) as [H1 H2].
  change (maxsize (see f m_false)) with (maxsize m_false) in H1, H2.
  rewrite H1, H2. split.
  - intros p. rewrite <- (replay_tags identifier (maxsize m_false) h D), zip_fst_snd.
    rewrite (Houts p). unfold pending. rewrite (Hidle p). by rewrite app_nil_r.
  - specialize (Hdoc false). rewrite (Hidle false) in Hdoc. apply Hdoc.
    cbn [negb]. unfold inside. by rewrite (Hidle true).
Qed.
End serial_facts.

(** * The JSON adapter *)

Section json_facts.
Local Existing Instance json_adapter.
Local Open Scope string_scope.
Local Open Scope list_scope.
Import pydict_facts.

(** The JSON adapter reads back what it wrote. *)

Lemma update_fresh {V} (d acc : list (string * V)) :
  NoDup (pydict.keys acc ++ pydict.keys d) → pydict.update acc d = acc ++ d.
Proof.
  unfold pydict.update, pydict.keys. revert acc.
  induction d as [|[k v] d IH]; intros acc Hnd; simpl; [by rewrite app_nil_r|].
  rewrite (IH (pydict.set k v acc)).
  - rewrite set_notin; [by rewrite <- app_assoc|].
    apply NoDup_app in Hnd as (_ & Hdisj & _). intros Hk. apply (Hdisj k Hk). left.
  - rewrite set_notin.
    + rewrite fmap_app, <- app_assoc. simpl. by rewrite fmap_cons in Hnd.
    + apply NoDup_app in Hnd as (_ & Hdisj & _). intros Hk. apply (Hdisj k Hk). left.
Qed.

Lemma dict_of_members_of_dict {V} (f : json → option V) (g : V → json)
    (d : list (string * V)) :
  pydict.wf d → Forall (fun kv => f (g kv.2) = Some kv.2) d →
  dict_of_members f (members_of_dict g d) = Some d.
Proof.
  intros Hwf Hfg. unfold dict_of_members, members_of_dict.
  assert (mapM (fun kv : string * json => v ← f kv.2; Some (kv.1, v))
            ((fun kv => (kv.1, g kv.2)) <$> d) = Some d) as ->.
  { induction Hfg as [|[k v] d Hkv Hfg IH]; [done|].
    rewrite fmap_cons. simpl in *. rewrite Hkv. simpl.
    unfold pydict.wf, pydict.keys in Hwf. rewrite fmap_cons in Hwf.
    apply NoDup_cons in Hwf as [_ Hwf]. by rewrite (IH Hwf). }
  simpl. f_equal. by apply (update_fresh d []).
Qed.

Lemma status_of_value_status_value s : status_of_value (status_value s) = Some s.
Proof. by destruct s. Qed.

Lemma option_of_json_of_option o : option_of_json (json_of_option o) = Some o.
Proof. by destruct o. Qed.

Lemma record_of_json_of_record r :
  record_wf r → record_of_json (json_of_record r) = Some r.
Proof.
  intros Hwf. destruct r as [s h p t fs]. unfold record_wf in Hwf. simpl in Hwf.
  unfold record_of_json, json_of_record, field, pydict.get. simpl.
  rewrite status_of_value_status_value, !option_of_json_of_option. simpl.
  rewrite (dict_of_members_of_dict string_of_json JString fs Hwf); [done|].
  by apply Forall_forall.
Qed.

Lemma json_adapter_validate_dump :
  ∀ d : DATA_STRUCTURE, data_wf d → validate_json (dump_json d) = Some d.
Proof.
  intros d [Hwf Hrs]. simpl. unfold data_of_json, json_of_data.
  apply dict_of_members_of_dict; [done|].
  eapply Forall_impl; [exact Hrs|]. intros [identifier rs] [Hwf' Hr]. simpl in *.
  apply dict_of_members_of_dict; [done|].
  eapply Forall_impl; [exact Hr|]. intros [uid r] Hr'. simpl in *.
  by apply record_of_json_of_record.
Qed.

(** What it accepts is a document that Python can hold. *)

Lemma Forall_update {V} (P : V → Prop) (d other : list (string * V)) :
  Forall (fun kv => P kv.2) d → Forall (fun kv => P kv.2) other →
  Forall (fun kv => P kv.2) (pydict.update d other).
Proof.
  unfold pydict.update. intros Hd Ho. revert d Hd.
  induction Ho as [|[k v] other Hv Ho IH]; intros d Hd; simpl; [done|].
  apply IH. by apply Forall_set.
Qed.

Lemma dict_of_members_wf {V} (f : json → option V) (P : V → Prop) ms d :
  (∀ j v, f j = Some v → P v) →
  dict_of_members f ms = Some d → pydict.wf d ∧ Forall (fun kv => P kv.2) d.
Proof.
  intros Hf. unfold dict_of_members.
  destruct (mapM _ ms) as [kvs|] eqn:E; simpl; [|done]. intros [= <-].
  split; [apply wf_update, wf_nil|].
  apply Forall_update; [constructor|].
  apply mapM_Some_1 in E. induction E as [|[k j] [k' v] ms kvs Hkv E IH]; [constructor|].
  constructor; [|done]. simpl in *.
  destruct (f j) as [v'|] eqn:Ej; simpl in Hkv; [|done].
  injection Hkv as _ <-. by apply (Hf j).
Qed.

Lemma record_of_json_wf j r : record_of_json j = Some r → record_wf r.
Proof.
  destruct j as [| | |ms]; try done. unfold record_of_json, record_wf.
  intros (s & _ & H)%bind_Some. apply bind_Some in H as (h & _ & H).
  apply bind_Some in H as (p & _ & H). apply bind_Some in H as (t & _ & H).
  apply bind_Some in H as (fs & E & H). injection H as <-. simpl.
  unfold field in E. destruct (pydict.get _ ms) as [[| | |ms']|]; try done. simpl in E.
  by apply (dict_of_members_wf string_of_json (fun _ => True) ms' fs) in E as [? _].
Qed.

Lemma json_adapter_validate_wf b d : validate_json b = Some d → data_wf d.
Proof.
  simpl. destruct b as [| | |ms]; try done. simpl.
  apply dict_of_members_wf. intros [| | |ms'] rs; try done. simpl.
  apply dict_of_members_wf. apply record_of_json_wf.
Qed.

(** The round trip through the file, with the adapter of section 6. *)

(** C6.  A valid document written by [_save] is on disk in the layout
    of section 6, and [_load] brings it back as it was: any ledger
    object on that file, whatever it has in memory, reads the file and
    gets a new dictionary equal to the document that was saved, with the
    same identifiers, under each the same uids, and for each the same
    record, as its queries show. *)
Theorem save_load_roundtrip data st D :
  objects st !! data = Some D → data_wf D →
  ∃ st1,
    _save data st = (Ok tt, st1) ∧
    file st1 = Some (json_of_data D) ∧
    _data st1 = data ∧
    trace st1 = trace st ++ [WriteBytes (json_of_data D)] ∧
    ∀ reader, file reader = file st1 →
      ∃ data' st2,
        _load reader = (Ok data', st2) ∧
        objects reader !! data' = None ∧
        objects st2 !! data' = Some D ∧
        _data st2 = data' ∧
        trace st2 = trace reader ++ [FileExists; ReadBytes] ∧
        (∀ identifier,
           (get_uid_record_dict identifier reader).1 =
             match pydict.get identifier D with
             | Some rs => Ok rs
             | None => Raise (KeyError (no_runs_found identifier))
             end) ∧
        (∀ identifier uid,
           (get_record identifier uid reader).1 =
             match pydict.get identifier D ≫= pydict.get uid with
             | Some r => Ok r
             | None => Raise (KeyError (no_run_found identifier uid))
             end).
Proof.
  intros Hobj Hwf.
  destruct (save_then_load json_adapter_validate_dump data st D Hobj Hwf)
    as (st1 & Hsave & Hfile & Hcache1 & Htrace & Hread).
  exists st1. split; [exact Hsave|]. split; [exact Hfile|].
  split; [exact Hcache1|]. split; [exact Htrace|].
  intros reader Hreader.
  destruct (Hread reader Hreader)
    as (data' & st2 & Hload & Hnew & Hobj2 & Hcache & _ & Htr2 & Hsets & Hrecords).
  exists data', st2. by repeat split.
Qed.
End json_facts.

(** * Concrete ledgers *)

Section examples.
Local Existing Instance json_adapter.
Local Open Scope string_scope.
Local Open Scope list_scope.
Import pydict_facts.

Example json_layout :
  dump_json [("exp", [("000", record_with (Some 5%Z))])]
  = JObject [("exp", JObject [("000", JObject [("status", JString "PENDING");
                                                ("param_hash", JNumber 5);
                                                ("relpath", JString ".");
                                                ("status_time", JNumber 0);
                                                ("files", JObject [])])])].
Proof. reflexivity. Qed.

Example json_repeated_key :
  validate_json (JObject [("a", JObject []); ("b", JObject []); ("a", JObject [])])
  = Some [("a", []); ("b", [])].
Proof. reflexivity. Qed.

Example json_rejected :
  validate_json (JObject [("exp", JObject [("000", JObject [("status", JString "LOST")])])])
  = None.
Proof. reflexivity. Qed.

(** A file that is not a document stops every call that loads it. *)
Example corrupt_file :
  (allocate "exp" PENDING "." None 0 corrupt_ledger).1 = Raise ValidationError ∧
  file (allocate "exp" PENDING "." None 0 corrupt_ledger).2 = file corrupt_ledger ∧
  (get_record "exp" "000" corrupt_ledger).1 = Raise ValidationError ∧
  log "exp" "000" None None 0 corrupt_ledger = (Ok tt, corrupt_ledger).
Proof. repeat split; reflexivity. Qed.

Lemma resume_document_wf : data_wf resume_document.
Proof.
  unfold data_wf, run_set_wf, record_wf, pydict.wf, pydict.keys. simpl.
  repeat split; repeat constructor; try apply NoDup_nil_2; simpl;
    rewrite ?elem_of_cons, ?elem_of_nil; intuition discriminate.
Qed.

(** The examples of the spec. *)

Example uid_format : zero_padded (uid_width 1000) 7 = "007" ∧
                     zero_padded (uid_width 1000) 999 = "999".
Proof. split; reflexivity. Qed.

Example first_uids :
  (allocations "exp" [args0; args0] (empty_ledger 1000)).*2 = [Ok "000"; Ok "001"].
Proof. reflexivity. Qed.

Example resume_lookup :
  (find_by_param_hash "known_id" (Some 5%Z) resume_ledger).1
    = Ok (Some ("000", record_with (Some 5%Z))) ∧
  (find_by_param_hash "known_id" None resume_ledger).1 = Ok None ∧
  (find_by_param_hash "known_id" (Some 9%Z) resume_ledger).1 = Ok None.
Proof. repeat split; reflexivity. Qed.

Example missing_keys :
  (get_record "unknown_id" "000" resume_ledger).1
    = Raise (KeyError "No run found for identifier 'unknown_id' and uid '000'") ∧
  (log "known_id" "nonexistent_uid" (Some RUNNING) None 1 resume_ledger).1
    = Raise (KeyError "No run found for identifier 'known_id' and uid 'nonexistent_uid'") ∧
  file (log "known_id" "nonexistent_uid" (Some RUNNING) None 1 resume_ledger).2
    = Some (json_of_data resume_document).
Proof. repeat split; reflexivity. Qed.

(** Without the lock the race is there: both workers load before either
    saves, both are given "000", and one record is lost. *)
Example race_without_lock :
  let s := run "exp" [false; true; false; true; false; true; false; true; false; true]
             (two_workers false) in
  outcomes (process_false s) = [Ok "000"] ∧ outcomes (process_true s) = [Ok "000"] ∧
  (pydict.keys ∘ run_set_of "exp") <$> system_stored s = Some ["000"].
Proof. repeat split; reflexivity. Qed.

(** With the lock the same schedule makes the second worker wait. *)
Example no_race_with_lock :
  let s := run "exp" [false; true; false; true; false; true; false; true; false; true;
                      true; true; true; true; true]
             (two_workers true) in
  outcomes (process_false s) = [Ok "000"] ∧ outcomes (process_true s) = [Ok "001"] ∧
  (pydict.keys ∘ run_set_of "exp") <$> system_stored s = Some ["000"; "001"].
Proof. repeat split; reflexivity. Qed.

(** The theorems at these ledgers. *)

Lemma allocate_least_unused_uid_witness :
  let outs := allocations "exp" [args0; args0; args0; args0] (empty_ledger 3) in
  (stored (empty_ledger 3) = Some [] ∧ data_wf []) ∧
  NoDup (returned_uids outs) ∧
  (∀ k st_k out, outs !! k = Some (st_k, out) →
     ∃ D_k, stored st_k = Some D_k ∧
       match out with
       | Ok uid =>
           ∃ i, i < 3 ∧ uid = zero_padded 1 i ∧
                (uid ∉ pydict.keys (run_set_of "exp" D_k)) ∧
                ∀ j, j < i → zero_padded 1 j ∈ pydict.keys (run_set_of "exp" D_k)
       | Raise e =>
           e = CapacityExceeded ∧
           ∀ j, j < 3 → zero_padded 1 j ∈ pydict.keys (run_set_of "exp" D_k)
       end).
Proof.
  intros outs. split; [split; [reflexivity | exact data_wf_nil]|].
  destruct (allocate_least_unused_uid json_adapter_validate_dump "exp"
              [args0; args0; args0; args0] (empty_ledger 3) [] eq_refl data_wf_nil)
    as (Hcalls & Hnodup & _).
  split; [exact Hnodup | exact Hcalls].
Defined.

Lemma allocate_capacity_witness :
  (stored (empty_ledger 3) = Some [] ∧ data_wf []) ∧
  (allocations "exp" ([args0; args0; args0] ++ [args0]) (empty_ledger 3)).*2
    = (Ok <$> (zero_padded 1 <$> seq 0 3)) ++ [Raise CapacityExceeded].
Proof.
  split; [split; [reflexivity | exact data_wf_nil]|].
  exact (proj2 (proj2 (allocate_capacity json_adapter_validate_dump "exp"
                         (empty_ledger 3) [] eq_refl data_wf_nil))
           [args0; args0; args0] args0 eq_refl eq_refl).
Defined.

Lemma two_workers_witness :
  let s := run "exp" [false; true; false; true; false; true; false; true; false; true;
                      true; true; true; true; true;
                      false; false; false; false; false; false]
             (two_workers true) in
  (LEDGER_LOCK (worker true) = true ∧ system_stored (two_workers true) = Some []) ∧
  (∀ p, stage_of (proc p s) = Idle ∧ todo (proc p s) = []) ∧
  ∃ D', system_stored s = Some D' ∧
    pydict.keys (run_set_of "exp" D')
      ≡ₚ uids (outcomes (proc false s)) ++ uids (outcomes (proc true s)) ∧
    NoDup (uids (outcomes (proc false s)) ++ uids (outcomes (proc true s))).
Proof.
  intros s. split; [split; reflexivity|].
  assert (finished s) as Hfin by (intros []; split; reflexivity).
  split; [exact Hfin|].
  destruct (allocate_isolated_under_lock json_adapter_validate_dump "exp"
              [false; true; false; true; false; true; false; true; false; true;
               true; true; true; true; true;
               false; false; false; false; false; false]
              None (worker true) (worker true) [args0; args0] [args0] []
              eq_refl eq_refl eq_refl data_wf_nil)
    as (_ & _ & Hend & _).
  destruct (Hend Hfin) as (D' & Hst & _ & Hperm & Hnodup & _).
  exists D'. split; [exact Hst|]. split; [exact Hperm | exact Hnodup].
Defined.

Lemma missing_key_errors_witness :
  (stored resume_ledger = Some resume_document ∧
   "unknown_id" ∉ pydict.keys resume_document) ∧
  (get_record "unknown_id" "000" resume_ledger).1
    = Raise (KeyError (no_run_found "unknown_id" "000")) ∧
  (log "unknown_id" "000" (Some RUNNING) None 1 resume_ledger).1
    = Raise (KeyError (no_run_found "unknown_id" "000")) ∧
  stored (log "unknown_id" "000" (Some RUNNING) None 1 resume_ledger).2
    = Some resume_document.
Proof.
  assert ("unknown_id" ∉ pydict.keys resume_document) as Hid.
  { intros H. apply list_elem_of_singleton in H. discriminate H. }
  split; [split; [reflexivity | exact Hid]|].
  destruct (missing_key_errors "unknown_id" "000" resume_ledger resume_document
              eq_refl (or_introl Hid)) as (Hget & _ & Hlog).
  split; [exact Hget|].
  destruct (Hlog (Some RUNNING) None 1%Z eq_refl) as (H1 & _ & H3).
  split; [exact H1 | exact H3].
Defined.

Lemma find_by_param_hash_first_witness :
  (stored resume_ledger = Some resume_document ∧
   pydict.get "known_id" resume_document = Some resume_run_set) ∧
  ∃ hit, (find_by_param_hash "known_id" (Some 5%Z) resume_ledger).1 = Ok hit ∧
    match hit with
    | Some (uid, r) =>
        ∃ before after, resume_run_set = before ++ (uid, r) :: after ∧
          param_hash r = Some 5%Z ∧
          ∀ item, item ∈ before → param_hash item.2 ≠ Some 5%Z
    | None => ∀ item, item ∈ resume_run_set → param_hash item.2 ≠ Some 5%Z
    end.
Proof.
  split; [split; reflexivity|].
  exact (proj2 (find_by_param_hash_first "known_id" 5%Z resume_ledger resume_document
                  eq_refl)).
Defined.

(** Without the identifier in the document there is no record to match,
    and the call raises instead of returning [None]. *)
Lemma find_by_param_hash_no_run_set :
  (∀ item, item ∈ run_set_of "unknown_id" resume_document →
           param_hash item.2 ≠ Some 5%Z) ∧
  (find_by_param_hash "unknown_id" (Some 5%Z) resume_ledger).1 ≠ Ok None ∧
  (find_by_param_hash "unknown_id" (Some 5%Z) resume_ledger).1
    = Raise (KeyError (no_runs_found "unknown_id")).
Proof.
  split; [|split]; [|discriminate|reflexivity].
  intros item Hin. by apply elem_of_nil in Hin.
Qed.

Lemma save_load_roundtrip_witness :
  let st := (new_dict resume_document (empty_ledger 1000)).2 in
  (objects st !! 1 = Some resume_document ∧ data_wf resume_document) ∧
  ∃ st1 data' st2,
    _save 1 st = (Ok tt, st1) ∧
    file st1 = Some (json_of_data resume_document) ∧
    _load resume_ledger = (Ok data', st2) ∧
    objects st2 !! data' = Some resume_document ∧
    (get_record "known_id" "001" resume_ledger).1 = Ok (record_with None).
Proof.
  intros st. split; [split; [reflexivity | exact resume_document_wf]|].
  destruct (save_load_roundtrip 1 st resume_document eq_refl resume_document_wf)
    as (st1 & Hsave & Hfile & _ & _ & Hread).
  destruct (Hread resume_ledger (eq_sym Hfile))
    as (data' & st2 & Hload & _ & Hobj & _ & _ & _ & Hrecords).
  exists st1, data', st2.
  split; [exact Hsave|]. split; [exact Hfile|]. split; [exact Hload|].
  split; [exact Hobj|]. exact (Hrecords "known_id" "001").
Defined.

Lemma log_merges_files_witness :
  let st1 := (log "known_id" "001" None (Some [("a", "x")]) 1 resume_ledger).2 in
  let st2 := (log "known_id" "001" None (Some [("b", "y")]) 2 st1).2 in
  let st3 := (log "known_id" "001" None (Some [("a", "z")]) 3 st2).2 in
  (stored resume_ledger = Some resume_document ∧ data_wf resume_document ∧
   pydict.get "001" resume_run_set = Some (record_with None)) ∧
  (∃ r2, (get_record "known_id" "001" st2).1 = Ok r2 ∧
         files r2 = [("a", "x"); ("b", "y")]) ∧
  (∃ r3, (get_record "known_id" "001" st3).1 = Ok r3 ∧
         files r3 = [("a", "z"); ("b", "y")]).
Proof.
  intros st1 st2 st3.
  split; [split; [reflexivity | split; [exact resume_document_wf | reflexivity]]|].
  destruct (log_merges_files json_adapter_validate_dump "known_id" "001"
              resume_ledger resume_document resume_run_set (record_with None)
              eq_refl resume_document_wf eq_refl eq_refl) as (_ & Hexample & _).
  exact (Hexample eq_refl 1%Z 2%Z 3%Z).
Defined.

Lemma failed_edit_not_persisted_witness :
  let out := log "unknown_id" "000" (Some RUNNING) None 1 resume_ledger in
  (stored resume_ledger = Some resume_document ∧
   "unknown_id" ∉ pydict.keys resume_document) ∧
  out.1 = Raise (KeyError (no_run_found "unknown_id" "000")) ∧
  file out.2 = file resume_ledger ∧
  stored out.2 = Some resume_document ∧
  objects out.2 !! length (objects resume_ledger)
    = Some (resume_document ++ [("unknown_id", [])]) ∧
  (is_Some (file resume_ledger) → _data out.2 = length (objects resume_ledger)) ∧
  ∀ c, (perform c out.2).1 = (perform c resume_ledger).1 ∧
       file (perform c out.2).2 = file (perform c resume_ledger).2.
Proof.
  intros out.
  assert ("unknown_id" ∉ pydict.keys resume_document) as Hid.
  { intros H. apply list_elem_of_singleton in H. discriminate H. }
  split; [split; [reflexivity | exact Hid]|].
  exact (proj2 (failed_edit_not_persisted resume_ledger) "unknown_id" "000"
           (Some RUNNING) None 1%Z resume_document eq_refl Hid eq_refl).
Defined.

Lemma find_by_param_hash_absent_witness :
  (stored resume_ledger = Some resume_document ∧
   "unknown_id" ∉ pydict.keys resume_document) ∧
  (find_by_param_hash "unknown_id" (Some 5%Z) resume_ledger).1
    = Raise (KeyError (no_runs_found "unknown_id")) ∧
  (get_uid_record_dict "unknown_id" resume_ledger).1
    = Raise (KeyError (no_runs_found "unknown_id")) ∧
  find_by_param_hash "unknown_id" None resume_ledger = (Ok None, resume_ledger).
Proof.
  assert ("unknown_id" ∉ pydict.keys resume_document) as Hid.
  { intros H. apply list_elem_of_singleton in H. discriminate H. }
  split; [split; [reflexivity | exact Hid]|].
  exact (find_by_param_hash_absent "unknown_id" 5%Z resume_ledger resume_document
           eq_refl Hid).
Defined.
End examples.

(** * The further properties at concrete ledgers *)

Section coverage_examples.
Local Existing Instance json_adapter.
Local Open Scope string_scope.
Local Open Scope list_scope.
Import pydict_facts.

Lemma ledger_only_grows_witness :
  (stored resume_ledger = Some resume_document ∧ data_wf resume_document) ∧
  ∃ D', stored (perform_all resume_calls resume_ledger) = Some D' ∧ data_wf D' ∧
    pydict.keys resume_document `prefix_of` pydict.keys D' ∧
    pydict.keys (run_set_of "known_id" resume_document)
      `prefix_of` pydict.keys (run_set_of "known_id" D').
Proof.
  split; [split; [reflexivity | exact resume_document_wf]|].
  destruct (ledger_only_grows json_adapter_validate_dump resume_calls resume_ledger
              resume_document eq_refl resume_document_wf)
    as (D' & H1 & H2 & H3 & H4 & _).
  exists D'. split; [exact H1|]. split; [exact H2|].
  split; [exact H3 | exact (H4 "known_id")].
Defined.

Lemma find_by_param_hash_stable_witness :
  (stored resume_ledger = Some resume_document ∧ data_wf resume_document ∧
   (find_by_param_hash "known_id" (Some 5%Z) resume_ledger).1
     = Ok (Some ("000", record_with (Some 5%Z)))) ∧
  ∃ r', (find_by_param_hash "known_id" (Some 5%Z)
           (perform_all resume_calls resume_ledger)).1 = Ok (Some ("000", r')) ∧
        param_hash r' = Some 5%Z ∧ relpath r' = ".".
Proof.
  split; [split; [reflexivity | split; [exact resume_document_wf | reflexivity]]|].
  exact (find_by_param_hash_stable json_adapter_validate_dump resume_calls "known_id" 5%Z
           resume_ledger resume_document "000" (record_with (Some 5%Z))
           eq_refl resume_document_wf eq_refl).
Defined.

Lemma call_changes_one_record_witness :
  let c := Log "known_id" "001" (Some DONE) None 3 in
  (stored resume_ledger = Some resume_document ∧ data_wf resume_document) ∧
  ∃ D', stored (perform c resume_ledger).2 = Some D' ∧
    ∀ identifier' uid', (identifier', uid') ≠ ("known_id", "001") →
      record_at D' identifier' uid' = record_at resume_document identifier' uid'.
Proof.
  intros c. split; [split; [reflexivity | exact resume_document_wf]|].
  exact (call_changes_one_record json_adapter_validate_dump c resume_ledger
           resume_document eq_refl resume_document_wf).
Defined.

Lemma uid_counter_per_identifier_witness :
  let c := Log "known_id" "001" (Some DONE) None 3 in
  (stored resume_ledger = Some resume_document ∧ data_wf resume_document ∧
   ∀ a, c ≠ Allocate "known_id" a) ∧
  (allocate "known_id" PENDING "." None 0 (perform c resume_ledger).2).1
  = (allocate "known_id" PENDING "." None 0 resume_ledger).1.
Proof.
  intros c.
  assert (∀ a, c ≠ Allocate "known_id" a) as Hc by (intros a; discriminate).
  split; [split; [reflexivity | split; [exact resume_document_wf | exact Hc]]|].
  exact (uid_counter_per_identifier json_adapter_validate_dump c "known_id" PENDING "."
           None 0%Z resume_ledger resume_document eq_refl resume_document_wf Hc).
Defined.

Lemma allocate_then_get_record_witness :
  let st' := (allocate "known_id" RUNNING "sub" (Some 9%Z) 4 resume_ledger).2 in
  let record := {| status := RUNNING; param_hash := Some 9%Z; relpath := "sub";
                   status_time := Some 4%Z; files := [] |} in
  (stored resume_ledger = Some resume_document ∧ data_wf resume_document ∧
   (allocate "known_id" RUNNING "sub" (Some 9%Z) 4 resume_ledger).1 = Ok "004") ∧
  (get_record "known_id" "004" st').1 = Ok record ∧
  (get_uid_record_dict "known_id" st').1 = Ok (resume_run_set ++ [("004", record)]).
Proof.
  intros st' record.
  split; [split; [reflexivity | split; [exact resume_document_wf | reflexivity]]|].
  destruct (allocate_then_get_record json_adapter_validate_dump "known_id" RUNNING "sub"
              (Some 9%Z) 4%Z resume_ledger resume_document "004"
              eq_refl resume_document_wf eq_refl) as (H1 & H2 & _).
  split; [exact H1 | exact H2].
Defined.

Lemma log_then_get_record_witness :
  let out := log "known_id" "001" (Some DONE) None 3 resume_ledger in
  (stored resume_ledger = Some resume_document ∧ data_wf resume_document ∧
   record_at resume_document "known_id" "001" = Some (record_with None)) ∧
  out.1 = Ok tt ∧
  ∃ r', (get_record "known_id" "001" out.2).1 = Ok r' ∧
        status r' = DONE ∧ status_time r' = Some 3%Z.
Proof.
  intros out.
  split; [split; [reflexivity | split; [exact resume_document_wf | reflexivity]]|].
  destruct (log_then_get_record json_adapter_validate_dump "known_id" "001" DONE None 3%Z
              resume_ledger resume_document (record_with None)
              eq_refl resume_document_wf eq_refl) as (H1 & r' & H2 & H3 & H4 & _).
  split; [exact H1|]. exists r'. split; [exact H2|]. split; [exact H3 | exact H4].
Defined.

Lemma corrupt_file_stops_calls_witness :
  (file corrupt_ledger = Some (JString "oops") ∧ validate_json (JString "oops") = None) ∧
  (allocate "exp" PENDING "." None 0 corrupt_ledger).1 = Raise ValidationError ∧
  (get_uid_record_dict "exp" corrupt_ledger).1 = Raise ValidationError ∧
  file (log "exp" "000" (Some DONE) None 0 corrupt_ledger).2 = file corrupt_ledger.
Proof.
  split; [split; reflexivity|].
  destruct (corrupt_file_stops_calls corrupt_ledger (JString "oops") eq_refl eq_refl)
    as (H1 & H2 & _ & H4 & _).
  split; [exact (proj1 (H1 "exp" PENDING "." None 0%Z))|].
  split; [exact (proj1 (H4 "exp"))|].
  exact (proj1 (proj2 (H2 "exp" "000" (Some DONE) None 0%Z eq_refl))).
Defined.

Lemma cache_holds_document_witness :
  let c := GetRecord "known_id" "000" in
  (stored resume_ledger = Some resume_document ∧ data_wf resume_document ∧
   loads c = true ∧ (perform c resume_ledger).1 = Ok (RRecord (record_with (Some 5%Z))) ∧
   is_Some (file (perform c resume_ledger).2)) ∧
  objects (perform c resume_ledger).2 !! _data (perform c resume_ledger).2
  = Some resume_document.
Proof.
  intros c.
  assert (is_Some (file (perform c resume_ledger).2)) as Hfile
    by (eexists; reflexivity).
  split; [split; [reflexivity | split; [exact resume_document_wf |
            split; [reflexivity | split; [reflexivity | exact Hfile]]]]|].
  exact (cache_holds_document json_adapter_validate_dump c resume_ledger resume_document
           (RRecord (record_with (Some 5%Z))) eq_refl resume_document_wf eq_refl eq_refl
           Hfile).
Defined.

Lemma log_returns_at_once_iff_witness :
  log "nobody" "000" None (Some []) 0 resume_ledger = (Ok tt, resume_ledger).
Proof.
  exact (proj2 (log_returns_at_once_iff "nobody" "000" None (Some []) 0%Z resume_ledger)
           (conj eq_refl (or_intror eq_refl))).
Defined.

Lemma session_lifecycle_witness :
  let started := Session.start resume_session 1 resume_ledger in
  let finished := Session.done resume_session 2 started.2 in
  (stored resume_ledger = Some resume_document ∧ data_wf resume_document ∧
   record_at resume_document "known_id" "001" = Some (record_with None)) ∧
  (Session.status resume_session started.2).1 = Ok RUNNING ∧
  (Session.is_done resume_session started.2).1 = Ok false ∧
  (Session.is_done resume_session finished.2).1 = Ok true.
Proof.
  intros started finished.
  split; [split; [reflexivity | split; [exact resume_document_wf | reflexivity]]|].
  destruct (session_lifecycle json_adapter_validate_dump resume_session 1%Z resume_ledger
              resume_document (record_with None) eq_refl resume_document_wf eq_refl)
    as (_ & H1 & H2 & H3).
  split; [exact H1|]. split; [exact H2|].
  exact (proj2 (proj2 (proj1 (H3 2%Z)))).
Defined.

Lemma session_without_record_witness :
  (stored resume_ledger = Some resume_document ∧
   record_at resume_document "known_id" "999" = None) ∧
  (Session.status lost_session resume_ledger).1
    = Raise (KeyError (no_run_found "known_id" "999")) ∧
  (Session.start lost_session 1 resume_ledger).1
    = Raise (KeyError (no_run_found "known_id" "999")) ∧
  Session.attach_files lost_session [] 1 resume_ledger = (Ok tt, resume_ledger).
Proof.
  split; [split; reflexivity|].
  destruct (session_without_record (fun p : string => p) lost_session resume_ledger
              resume_document eq_refl eq_refl) as (H1 & _ & _ & H4 & _ & H6).
  split; [exact (proj1 H1)|]. split; [exact (proj1 (proj1 (H4 1%Z)))|].
  exact (H6 1%Z).
Defined.

Lemma session_attach_files_witness :
  let out := Session.attach_files resume_session [("out", "a.csv")] 1 resume_ledger in
  (stored resume_ledger = Some resume_document ∧ data_wf resume_document ∧
   record_at resume_document "known_id" "001" = Some (record_with None)) ∧
  out.1 = Ok tt ∧
  (Session.files (fun p : string => p) resume_session out.2).1
    = Ok [("out", "a.csv")] ∧
  (Session.status resume_session out.2).1 = Ok PENDING.
Proof.
  intros out.
  split; [split; [reflexivity | split; [exact resume_document_wf | reflexivity]]|].
  exact (session_attach_files (fun p : string => p) json_adapter_validate_dump
           resume_session "out" "a.csv" [] 1%Z resume_ledger resume_document
           (record_with None) eq_refl resume_document_wf eq_refl).
Defined.

Lemma lost_update_without_lock_witness :
  (LEDGER_LOCK resume_ledger = false ∧
   system_stored racing_workers = Some resume_document ∧ data_wf resume_document ∧
   length (pydict.keys (run_set_of "known_id" resume_document)) < Z.to_nat 1000) ∧
  ∃ schedule uid,
    let s := run "known_id" schedule racing_workers in
    finished s ∧
    outcomes (proc false s) = [Ok uid] ∧ outcomes (proc true s) = [Ok uid] ∧
    ∃ D', system_stored s = Some D' ∧
      pydict.keys (run_set_of "known_id" D')
        = pydict.keys (run_set_of "known_id" resume_document) ++ [uid].
Proof.
  assert (length (pydict.keys (run_set_of "known_id" resume_document)) < Z.to_nat 1000)
    as Hroom by (vm_compute; lia).
  split; [split; [reflexivity | split; [reflexivity |
            split; [exact resume_document_wf | exact Hroom]]]|].
  destruct (lost_update_without_lock json_adapter_validate_dump "known_id"
              (Some (json_of_data resume_document)) resume_ledger resume_ledger
              args0 args0 resume_document eq_refl eq_refl eq_refl eq_refl
              resume_document_wf Hroom)
    as (schedule & uid & H1 & H2 & H3 & D' & H4 & H5 & _).
  exists schedule, uid. split; [exact H1|]. split; [exact H2|]. split; [exact H3|].
  exists D'. split; [exact H4 | exact H5].
Defined.


Lemma log_twice_is_log_once_witness :
  let once := log "known_id" "001" (Some DONE) (Some [("out", "a.csv")]) 3
                resume_ledger in
  let twice := log "known_id" "001" (Some DONE) (Some [("out", "a.csv")]) 3 once.2 in
  (stored resume_ledger = Some resume_document ∧ data_wf resume_document ∧
   record_at resume_document "known_id" "001" = Some (record_with None) ∧
   pydict.wf [("out", "a.csv")]) ∧
  once.1 = Ok tt ∧ twice.1 = Ok tt ∧ file twice.2 = file once.2.
Proof.
  intros once twice.
  assert (pydict.wf [("out", "a.csv")]) as Hwf by apply NoDup_singleton.
  split; [split; [reflexivity | split; [exact resume_document_wf |
            split; [reflexivity | exact Hwf]]]|].
  apply (log_twice_is_log_once json_adapter_validate_dump "known_id" "001" (Some DONE)
           (Some [("out", "a.csv")]) 3%Z resume_ledger resume_document (record_with None)
           eq_refl resume_document_wf eq_refl).
  intros given [= <-]. exact Hwf.
Defined.

Lemma logs_of_two_runs_commute_witness :
  let one := log "known_id" "000" (Some DONE) None in
  let other := log "known_id" "001" (Some RUNNING) (Some [("out", "a.csv")]) in
  let ab := other 4%Z (one 3%Z resume_ledger).2 in
  let ba := one 4%Z (other 3%Z resume_ledger).2 in
  (stored resume_ledger = Some resume_document ∧ data_wf resume_document ∧
   record_at resume_document "known_id" "000" = Some (record_with (Some 5%Z)) ∧
   record_at resume_document "known_id" "001" = Some (record_with None) ∧
   ("known_id", "000") ≠ ("known_id", "001")) ∧
  ab.1 = Ok tt ∧ ba.1 = Ok tt ∧
  ∃ Dab Dba,
    stored ab.2 = Some Dab ∧ stored ba.2 = Some Dba ∧
    pydict.keys Dab = pydict.keys Dba ∧
    status_time <$> record_at Dab "known_id" "000" = Some (Some 3%Z) ∧
    status_time <$> record_at Dba "known_id" "000" = Some (Some 4%Z) ∧
    status_time <$> record_at Dab "known_id" "001" = Some (Some 4%Z) ∧
    status_time <$> record_at Dba "known_id" "001" = Some (Some 3%Z).
Proof.
  intros one other ab ba.
  assert (("known_id", "000") ≠ ("known_id", "001")) as Hne by discriminate.
  split; [split; [reflexivity | split; [exact resume_document_wf |
            split; [reflexivity | split; [reflexivity | exact Hne]]]]|].
  destruct (logs_of_two_runs_commute json_adapter_validate_dump
              "known_id" "000" (Some DONE) None
              "known_id" "001" (Some RUNNING) (Some [("out", "a.csv")])
              3%Z 4%Z 3%Z 4%Z
              resume_ledger resume_document (record_with (Some 5%Z)) (record_with None)
              eq_refl resume_document_wf eq_refl eq_refl Hne)
    as (Hab & Hba & _ & Dab & Dba & Hsab & Hsba & Hkeys & _ & _ & _ & Ra & Ra' & Rb & Rb').
  split; [exact Hab|]. split; [exact Hba|].
  exists Dab, Dba. split; [exact Hsab|]. split; [exact Hsba|]. split; [exact Hkeys|].
  rewrite Ra, Ra', Rb, Rb'. repeat split; reflexivity.
Defined.

Lemma queries_agree_witness :
  (stored resume_ledger = Some resume_document ∧ data_wf resume_document ∧
   (find_by_param_hash "known_id" (Some 7%Z) resume_ledger).1
     = Ok (Some ("003", record_with (Some 7%Z)))) ∧
  (get_record "known_id" "003" resume_ledger).1 = Ok (record_with (Some 7%Z)).
Proof.
  split; [split; [reflexivity | split; [exact resume_document_wf | reflexivity]]|].
  exact (proj1 (proj2 (queries_agree "known_id" resume_ledger resume_document
                         eq_refl resume_document_wf)
                  7%Z "003" (record_with (Some 7%Z)) eq_refl)).
Defined.

Lemma allocated_session_runs_witness :
  let st1 := (allocate "known_id" PENDING "." None 0 resume_ledger).2 in
  let st2 := (Session.start next_session 1 st1).2 in
  let st3 := (Session.done next_session 2 st2).2 in
  (stored resume_ledger = Some resume_document ∧ data_wf resume_document ∧
   (allocate "known_id" PENDING "." None 0 resume_ledger).1 = Ok "004") ∧
  (Session.status next_session st1).1 = Ok PENDING ∧
  (Session.status next_session st2).1 = Ok RUNNING ∧
  (Session.is_done next_session st3).1 = Ok true.
Proof.
  intros st1 st2 st3.
  split; [split; [reflexivity | split; [exact resume_document_wf | reflexivity]]|].
  destruct (allocated_session_runs (fun p : string => p) json_adapter_validate_dump
              next_session PENDING "." None 0%Z resume_ledger resume_document
              eq_refl resume_document_wf eq_refl) as (H1 & _ & H3).
  split; [exact H1|]. destruct (H3 1%Z 2%Z) as (_ & H4 & _ & H5).
  split; [exact H4 | exact H5].
Defined.

Lemma allocate_serializable_witness :
  let schedule := [false; true; false; true; false; true; false; true; false; true;
                   true; true; true; true; true;
                   false; false; false; false; false; false] in
  let s := run "exp" schedule (two_workers true) in
  (LEDGER_LOCK (worker true) = true ∧ system_stored (two_workers true) = Some [] ∧
   finished s) ∧
  ∃ h : list (bool * allocate_args),
    of_process false h = [args0; args0] ∧ of_process true h = [args0] ∧
    (∀ p, outcomes (proc p s)
          = of_process p (zip h.*1 (allocations "exp" h.*2 (see None (worker true))).*2)) ∧
    system_stored s
      = stored (perform_all (Allocate "exp" <$> h.*2) (see None (worker true))).
Proof.
  intros schedule s.
  assert (finished s) as Hfin by (intros []; split; reflexivity).
  split; [split; [reflexivity | split; [reflexivity | exact Hfin]]|].
  exact (allocate_serializable json_adapter_validate_dump "exp" schedule None
           (worker true) (worker true) [args0; args0] [args0] []
           eq_refl eq_refl eq_refl eq_refl data_wf_nil Hfin).
Defined.
End coverage_examples.
